(** * NFC payment authorization: a shallow embedding of the service layer

    The development follows the TypeScript sources:
    - [services/authService.ts]        PIN verification and lock-out bookkeeping;
    - [services/nfcService.ts]         the device registry;
    - [services/transactionService.ts] risk scoring, limits, persistence;
    - [components/NFCPayment]          [handlePayment], which chains them;
    - [lib/crypto.ts]                  digests (kept abstract, see [Platform]).

    Every [await supabase.from(..)] of the source is one request to the
    external store.  A request is recorded in the [trace] of the world and
    may fail with an I/O error, decided by the fault oracle of the world.
    The store keeps the constraints of the migration that the services
    can run into: the uniqueness of [device_uid], the checks on [amount]
    and [risk_score], the foreign keys.  Row-level security is not
    modelled: the services act with the rights the store grants them.
    JavaScript numbers that hold money are IEEE 754 doubles, with the
    rounding of every addition and subtraction ([number], on the
    Standard Library's [SpecFloat]); the column [amount] is an
    unconstrained [numeric], so what the client writes it reads back,
    and a select without an order clause answers with the rows in the
    order of their insertion;
    timestamps are milliseconds since the epoch ([Z]); the identifiers
    the store generates are drawn from a counter. *)

From Stdlib Require Import ZArith SpecFloat QArith Qabs Lia String List.
From stdpp Require Import base option list sorting gmap strings pretty.

Local Open Scope string_scope.
Local Open Scope list_scope.
Local Open Scope Z_scope.

(** ** JavaScript numbers

    A [number] is a binary64 value: precision 53, infinities at exponent
    1024, round to nearest with ties to even.  A finite number is
    [S754_finite s m e], of value [(-1)^s * m * 2^e]. *)
Definition number : Type := spec_float.

#[global] Instance number_eq_dec : EqDecision number.
Proof. solve_decision. Defined.

(** [x + y], [x - y], [Math.abs(x)], [x < y] and [x > y]; a comparison
    with [NaN] is false. *)
Definition num_add (x y : number) : number := SFadd 53 1024 x y.
Definition num_sub (x y : number) : number := SFsub 53 1024 x y.
Definition Math_abs (x : number) : number := SFabs x.
Definition num_lt (x y : number) : bool := SFltb x y.
Definition num_gt (x y : number) : bool := SFltb y x.

Declare Scope num_scope.
Delimit Scope num_scope with num.
Bind Scope num_scope with number.
Infix "+" := num_add : num_scope.
Infix "-" := num_sub : num_scope.
Infix "<?" := num_lt : num_scope.
Infix ">?" := num_gt : num_scope.

(** Literals: an integer, and a decimal [n / 10^digits] (the double
    nearest to it: the quotient of two integers that are doubles, rounded
    once). *)
Definition num_of_Z (n : Z) : number := binary_normalize 53 1024 n 0 false.
Definition decimal (n : Z) (digits : nat) : number :=
  SFdiv 53 1024 (num_of_Z n) (num_of_Z (10 ^ Z.of_nat digits)).

(** [x || d]: [0], [-0] and [NaN] are falsy. *)
Definition truthy (x : number) : bool :=
  match x with
  | S754_zero _ | S754_nan => false
  | _ => true
  end.

(** [JSON.stringify] writes a number that is not finite as [null]. *)
Definition isFinite (x : number) : bool :=
  match x with
  | S754_zero _ | S754_finite _ _ _ => true
  | _ => false
  end.

(** ** Data model (supabase/migrations: create_nfc_transaction_system) *)

Inductive UserStatus := active | suspended | locked.
Inductive TxStatus := pending | approved | declined | failed.
Inductive Severity := low | medium | high | critical.

#[global] Instance UserStatus_eq_dec : EqDecision UserStatus.
Proof. solve_decision. Defined.
#[global] Instance TxStatus_eq_dec : EqDecision TxStatus.
Proof. solve_decision. Defined.
#[global] Instance Severity_eq_dec : EqDecision Severity.
Proof. solve_decision. Defined.

(** Row of table [users]; the primary key [id] is the key of the map. *)
Record UserRow := mkUser {
  email : string;
  pin_hash : string;
  daily_limit : option number;
  status : UserStatus;
  failed_auth_attempts : Z;
  last_failed_auth : option Z
}.

(** Row of table [nfc_devices]. *)
Record DeviceRow := mkDevice {
  d_id : N;
  d_user_id : string;
  device_uid : string;
  device_name : string;
  is_active : bool;
  last_used : option Z;
  d_created_at : Z
}.

(** Row of table [transactions]. *)
Record TxRow := mkTx {
  t_id : N;
  t_user_id : string;
  t_device_id : N;
  amount : number;
  currency : string;
  merchant_id : string;
  merchant_name : string;
  t_status : TxStatus;
  risk_score : Z;
  decline_reason : option string;
  signature : string;
  created_at : Z
}.

(** Row of table [security_logs]. *)
Record LogRow := mkLog {
  l_user_id : string;
  event_type : string;
  severity : Severity;
  description : string;
  l_created_at : Z
}.

(** The [AuthUser], [NFCDevice] and [Transaction] interfaces of the services. *)
Record AuthUser := mkAuthUser {
  au_id : string;
  au_email : string;
  dailyLimit : option number;
  au_status : UserStatus
}.

Record NFCDevice := mkNFCDevice {
  nd_id : N;
  userId : string;
  deviceUid : string;
  deviceName : string;
  isActive : bool;
  lastUsed : option Z
}.

Record Transaction := mkTransaction {
  tr_id : N;
  tr_userId : string;
  tr_deviceId : N;
  tr_amount : number;
  tr_currency : string;
  tr_merchantId : string;
  tr_merchantName : string;
  tr_status : TxStatus;
  riskScore : Z;
  declineReason : option string;
  createdAt : Z
}.

Record TransactionRequest := mkRequest {
  rq_userId : string;
  rq_deviceId : N;
  rq_amount : number;
  rq_merchantId : string;
  rq_merchantName : string;
  rq_currency : option string
}.

(** ** The external store *)

Inductive Table := tbl_users | tbl_nfc_devices | tbl_transactions | tbl_security_logs.
Inductive Verb := SELECT (columns : string) | INSERT | UPDATE.

(** One request sent to the store: the table and what is done to it. *)
Definition Call : Type := Table * Verb.

#[global] Instance Table_eq_dec : EqDecision Table.
Proof. solve_decision. Defined.
#[global] Instance Verb_eq_dec : EqDecision Verb.
Proof. solve_decision. Defined.

Record World := mkWorld {
  users : gmap string UserRow;
  nfc_devices : list DeviceRow;
  transactions : list TxRow;
  security_logs : list LogRow;
  (** [Date.now()], and the offset of local time from UTC, both in ms. *)
  now : Z;
  tz_offset : Z;
  (** [faults n] tells whether the [n]-th request to the store fails. *)
  faults : nat -> bool;
  trace : list Call;
  (** Source of the identifiers the store generates for new rows. *)
  next_id : N
}.

Definition set_users (f : gmap string UserRow -> gmap string UserRow) (w : World) : World :=
  mkWorld (f (users w)) (nfc_devices w) (transactions w) (security_logs w)
          (now w) (tz_offset w) (faults w) (trace w) (next_id w).

Definition set_nfc_devices (f : list DeviceRow -> list DeviceRow) (w : World) : World :=
  mkWorld (users w) (f (nfc_devices w)) (transactions w) (security_logs w)
          (now w) (tz_offset w) (faults w) (trace w) (next_id w).

Definition set_transactions (f : list TxRow -> list TxRow) (w : World) : World :=
  mkWorld (users w) (nfc_devices w) (f (transactions w)) (security_logs w)
          (now w) (tz_offset w) (faults w) (trace w) (next_id w).

Definition set_security_logs (f : list LogRow -> list LogRow) (w : World) : World :=
  mkWorld (users w) (nfc_devices w) (transactions w) (f (security_logs w))
          (now w) (tz_offset w) (faults w) (trace w) (next_id w).

Definition set_trace (f : list Call -> list Call) (w : World) : World :=
  mkWorld (users w) (nfc_devices w) (transactions w) (security_logs w)
          (now w) (tz_offset w) (faults w) (f (trace w)) (next_id w).

Definition set_next_id (f : N -> N) (w : World) : World :=
  mkWorld (users w) (nfc_devices w) (transactions w) (security_logs w)
          (now w) (tz_offset w) (faults w) (trace w) (f (next_id w)).

(** ** Computations: state passing with exceptions

    A thrown exception keeps the world reached so far: nothing the store
    has already written is rolled back. *)

Inductive Error :=
| JsError (message : string)     (* [throw new Error(message)] *)
| StoreError (c : Call).         (* the [error] of a store response, rethrown *)

Inductive Res (A : Type) :=
| Ok (a : A)
| Throw (e : Error).
Arguments Ok {A} a.
Arguments Throw {A} e.

Definition M (A : Type) : Type := World -> Res A * World.

#[global] Instance M_ret : MRet M := fun A a w => (Ok a, w).
#[global] Instance M_bind : MBind M := fun A B k m w =>
  match m w with
  | (Ok a, w') => k a w'
  | (Throw e, w') => (Throw e, w')
  end.

Definition throw {A} (e : Error) : M A := fun w => (Throw e, w).
Definition get {A} (f : World -> A) : M A := fun w => (Ok (f w), w).
Definition modify (f : World -> World) : M unit := fun w => (Ok tt, f w).

(** [Date.now()] *)
Definition Date_now : M Z := get now.

(** What a store request answers: [{ data, error }]. *)
Inductive Response (A : Type) :=
| Data (a : A)
| Failed.
Arguments Data {A} a.
Arguments Failed {A}.

(** Sending a request: it is appended to the trace, and the oracle says
    whether it comes back with an I/O error. *)
Definition request (c : Call) : M bool := fun w =>
  (Ok (faults w (length (trace w))), set_trace (fun t => t ++ [c]) w).

Definition fresh_id : M N := fun w => (Ok (next_id w), set_next_id N.succ w).

(** [from('users').select(cols).eq('id', uid).maybeSingle()] *)
Definition select_user (cols : string) (uid : string) : M (Response (option UserRow)) :=
  io_err ← request (tbl_users, SELECT cols);
  if io_err : bool then mret Failed
  else u ← get (fun w => users w !! uid); mret (Data u).

(** [from('users').update(..).eq('id', uid)] *)
Definition update_user (uid : string) (f : UserRow -> UserRow) : M (Response unit) :=
  io_err ← request (tbl_users, UPDATE);
  if io_err : bool then mret Failed
  else modify (set_users (fun us =>
         match us !! uid with Some u => <[uid := f u]> us | None => us end));;
       mret (Data tt).

(** [.order('created_at', { ascending: false })] *)
Definition later_first {A} (key : A -> Z) (x y : A) : Prop := key y <= key x.

#[global] Instance later_first_dec {A} (key : A -> Z) : RelDecision (later_first key).
Proof. intros x y. unfold later_first. apply _. Defined.

Definition order_desc {A} (key : A -> Z) (rows : list A) : list A :=
  merge_sort (later_first key) rows.

(** [from('security_logs').insert(..)]; [user_id] references [users(id)]. *)
Definition insert_log (uid event : string) (sev : Severity) (descr : string)
  : M (Response unit) :=
  io_err ← request (tbl_security_logs, INSERT);
  if io_err : bool then mret Failed
  else
    known ← get (fun w => bool_decide (is_Some (users w !! uid)));
    if known : bool then
      t ← Date_now;
      modify (set_security_logs (fun l => l ++ [mkLog uid event sev descr t]));;
      mret (Data tt)
    else mret Failed.

(** [from('nfc_devices').insert(..).select().single()];
    [device_uid] is UNIQUE and [user_id] references [users(id)]. *)
Definition insert_device (uid duid name : string) : M (Response DeviceRow) :=
  io_err ← request (tbl_nfc_devices, INSERT);
  if io_err : bool then mret Failed
  else
    known ← get (fun w => bool_decide (is_Some (users w !! uid)));
    taken ← get (fun w => existsb (fun d => bool_decide (device_uid d = duid)) (nfc_devices w));
    if known && negb taken then
      i ← fresh_id;
      t ← Date_now;
      let row := mkDevice i uid duid name true None t in
      modify (set_nfc_devices (fun l => l ++ [row]));;
      mret (Data row)
    else mret Failed.

(** [from('nfc_devices').select('*').eq('user_id', uid).order('created_at', desc)] *)
Definition select_devices_of (uid : string) : M (Response (list DeviceRow)) :=
  io_err ← request (tbl_nfc_devices, SELECT "*");
  if io_err : bool then mret Failed
  else
    rows ← get (fun w => filter (fun d => d_user_id d = uid) (nfc_devices w));
    mret (Data (order_desc d_created_at rows)).

(** [from('nfc_devices').select('user_id, is_active').eq('device_uid', duid).maybeSingle()] *)
Definition select_device_by_uid (duid : string) : M (Response (option DeviceRow)) :=
  io_err ← request (tbl_nfc_devices, SELECT "user_id, is_active");
  if io_err : bool then mret Failed
  else
    d ← get (fun w => head (filter (fun d => device_uid d = duid) (nfc_devices w)));
    mret (Data d).

(** [from('nfc_devices').update(..)] on the rows that satisfy [sel]. *)
Definition update_devices (sel : DeviceRow -> bool) (f : DeviceRow -> DeviceRow)
  : M (Response unit) :=
  io_err ← request (tbl_nfc_devices, UPDATE);
  if io_err : bool then mret Failed
  else
    modify (set_nfc_devices (fmap (fun d => if sel d then f d else d)));;
    mret (Data tt).

(** [from('transactions').select(cols).eq('user_id', uid)...] with the
    further filters of the query given by [keep]. *)
Definition select_transactions (cols uid : string) (keep : TxRow -> bool)
  : M (Response (list TxRow)) :=
  io_err ← request (tbl_transactions, SELECT cols);
  if io_err : bool then mret Failed
  else
    rows ← get (fun w =>
      filter (fun t => t_user_id t = uid /\ keep t = true) (transactions w));
    mret (Data rows).

(** [from('transactions').insert(..).select().single()].  [amount] is
    NOT NULL, and a number that is not finite travels as [null]; the
    table checks [amount > 0] and [0 <= risk_score <= 100]; [user_id] and
    [device_id] reference [users(id)] and [nfc_devices(id)]; [id] and
    [created_at] are filled in by the store. *)
Definition insert_transaction (mk : N -> Z -> TxRow) : M (Response TxRow) :=
  io_err ← request (tbl_transactions, INSERT);
  if io_err : bool then mret Failed
  else
    i ← get next_id;
    t ← Date_now;
    let row := mk i t in
    ok ← get (fun w =>
      isFinite (amount row)
      && (amount row >? num_of_Z 0)%num
      && bool_decide (0 <= risk_score row <= 100)
      && bool_decide (is_Some (users w !! t_user_id row))
      && existsb (fun d => bool_decide (d_id d = t_device_id row)) (nfc_devices w));
    if ok : bool then
      _ ← fresh_id;
      modify (set_transactions (fun l => l ++ [row]));;
      mret (Data row)
    else mret Failed.

(** ** What the runtime provides

    [crypto.subtle.digest('SHA-256', ..)] rendered in hexadecimal, the
    printing of a number inside a template literal, and
    [Date.prototype.toISOString]. *)
Class Platform := {
  sha256_hex : string -> string;
  number_to_string : number -> string;
  toISOString : Z -> string
}.

Definition status_name (s : TxStatus) : string :=
  match s with
  | pending => "pending"
  | approved => "approved"
  | declined => "declined"
  | failed => "failed"
  end.

Section Services.
Context `{Platform}.

(** ** lib/crypto.ts *)

Definition hashPin (pin : string) : string := sha256_hex pin.

Definition generateTransactionSignature
    (uid : string) (amt : number) (merchantId timestamp : string) : string :=
  sha256_hex (uid +:+ ":" +:+ number_to_string amt +:+ ":" +:+ merchantId
              +:+ ":" +:+ timestamp).

Definition verifyTransactionSignature
    (sig uid : string) (amt : number) (merchantId timestamp : string) : bool :=
  bool_decide (sig = generateTransactionSignature uid amt merchantId timestamp).

(** ** services/authService.ts *)

(** The result of the insert is not inspected by the source. *)
Definition logSecurityEvent (uid event : string) (sev : Severity) (descr : string)
  : M unit :=
  _ ← insert_log uid event sev descr;
  mret tt.

Definition incrementFailedAuthAttempts (uid : string) : M unit :=
  r ← select_user "failed_auth_attempts" uid;
  (* (data?.failed_auth_attempts || 0) + 1 *)
  let attempts :=
    match r with
    | Data (Some u) => failed_auth_attempts u
    | _ => 0
    end + 1 in
  t ← Date_now;
  _ ← update_user uid (fun u =>
        mkUser (email u) (pin_hash u) (daily_limit u)
               (if 5 <=? attempts then locked else active)
               attempts (Some t));
  if 5 <=? attempts then
    logSecurityEvent uid "account_locked" critical
      ("Account locked after " +:+ pretty attempts +:+ " failed attempts")
  else mret tt.

Definition resetFailedAuthAttempts (uid : string) : M unit :=
  _ ← update_user uid (fun u =>
        mkUser (email u) (pin_hash u) (daily_limit u) (status u) 0 None);
  mret tt.

Definition verifyPin (uid pin : string) : M bool :=
  let pinHash := hashPin pin in
  r ← select_user "pin_hash" uid;
  match r with
  | Failed | Data None =>
      logSecurityEvent uid "pin_verification_failed" medium "PIN verification failed";;
      mret false
  | Data (Some data) =>
      let isValid := bool_decide (pin_hash data = pinHash) in
      (if isValid then mret tt
       else
         incrementFailedAuthAttempts uid;;
         logSecurityEvent uid "invalid_pin" high "Invalid PIN entered");;
      mret isValid
  end.

(** What [supabase.auth.signInWithPassword] answered: the identity
    service is outside the store, its answer is an input here. *)
Record AuthResponse := mkAuthResponse {
  auth_error : option string;
  auth_user : option string
}.

Definition signIn (resp : AuthResponse) : M AuthResponse :=
  match auth_error resp with
  | Some msg =>
      match auth_user resp with
      | Some id => incrementFailedAuthAttempts id
      | None => mret tt
      end;;
      throw (JsError msg)
  | None =>
      match auth_user resp with
      | Some id =>
          resetFailedAuthAttempts id;;
          logSecurityEvent id "user_signin" low "User signed in successfully"
      | None => mret tt
      end;;
      mret resp
  end.

(** ** services/nfcService.ts *)

Definition toNFCDevice (d : DeviceRow) : NFCDevice :=
  mkNFCDevice (d_id d) (d_user_id d) (device_uid d) (device_name d)
              (is_active d) (last_used d).

Definition registerNFCDevice (uid duid name : string) : M NFCDevice :=
  r ← insert_device uid duid name;
  match r with
  | Failed => throw (StoreError (tbl_nfc_devices, INSERT))
  | Data data =>
      logSecurityEvent uid "nfc_device_registered" low
        ("NFC device registered: " +:+ name);;
      mret (toNFCDevice data)
  end.

Definition getUserDevices (uid : string) : M (list NFCDevice) :=
  r ← select_devices_of uid;
  match r with
  | Failed => throw (StoreError (tbl_nfc_devices, SELECT "*"))
  | Data data => mret (toNFCDevice <$> data)
  end.

Definition verifyDeviceOwnership (duid uid : string) : M bool :=
  r ← select_device_by_uid duid;
  match r with
  | Failed | Data None => mret false
  | Data (Some data) => mret (bool_decide (d_user_id data = uid) && is_active data)
  end.

Definition updateDeviceLastUsed (deviceId : N) : M unit :=
  t ← Date_now;
  _ ← update_devices (fun d => bool_decide (d_id d = deviceId))
        (fun d => mkDevice (d_id d) (d_user_id d) (device_uid d) (device_name d)
                           (is_active d) (Some t) (d_created_at d));
  mret tt.

Definition deactivateDevice (deviceId : N) (uid : string) : M unit :=
  r ← update_devices
        (fun d => bool_decide (d_id d = deviceId) && bool_decide (d_user_id d = uid))
        (fun d => mkDevice (d_id d) (d_user_id d) (device_uid d) (device_name d)
                           false (last_used d) (d_created_at d));
  match r with
  | Failed => throw (StoreError (tbl_nfc_devices, UPDATE))
  | Data _ =>
      logSecurityEvent uid "nfc_device_deactivated" medium
        ("NFC device deactivated: " +:+ pretty deviceId)
  end.

(** ** services/transactionService.ts *)

Definition toTransaction (t : TxRow) : Transaction :=
  mkTransaction (t_id t) (t_user_id t) (t_device_id t) (amount t) (currency t)
                (merchant_id t) (merchant_name t) (t_status t) (risk_score t)
                (decline_reason t) (created_at t).

(** [today.setHours(0, 0, 0, 0)]: the local midnight before [t]. *)
Definition startOfDay (offset t : Z) : Z :=
  let l := t + offset in l - l mod 86400000 - offset.

Definition getDailyTransactionTotal (uid : string) : M number :=
  t ← Date_now;
  off ← get tz_offset;
  let today := startOfDay off t in
  r ← select_transactions "amount" uid
        (fun x => bool_decide (t_status x = approved) && (today <=? created_at x));
  match r with
  | Failed => mret (num_of_Z 0)
  | Data data => mret (fold_left (fun sum x => (sum + amount x)%num) data (num_of_Z 0))
  end.

Definition getRecentTransactions (uid : string) (minutes : Z) : M (list TxRow) :=
  t ← Date_now;
  let cutoff := t - minutes * 60 * 1000 in
  r ← select_transactions "*" uid (fun x => cutoff <=? created_at x);
  match r with
  | Failed => mret []
  | Data data => mret (order_desc created_at data)
  end.

Definition isDuplicateOf (request : TransactionRequest) (t : Z) (x : TxRow) : bool :=
  bool_decide (merchant_id x = rq_merchantId request)
  && (Math_abs (amount x - rq_amount request) <? decimal 1 2)%num
  && (t - created_at x <? 60000).

Definition calculateRiskScore (request : TransactionRequest) : M Z :=
  let score := 0 in
  recentTransactions ← getRecentTransactions (rq_userId request) 5;
  let score := if (rq_amount request >? num_of_Z 500)%num then score + 30 else score in
  let score := if (3 <=? length recentTransactions)%nat then score + 40 else score in
  dailyTotal ← getDailyTransactionTotal (rq_userId request);
  let score :=
    if (dailyTotal + rq_amount request >? num_of_Z 1000)%num then score + 50 else score in
  t ← Date_now;
  let isDuplicate := existsb (isDuplicateOf request t) recentTransactions in
  let score := if isDuplicate : bool then score + 70 else score in
  mret (Z.min score 100).

Definition determineTransactionStatus (riskScore : Z) : TxStatus :=
  if 80 <=? riskScore then declined
  else if 50 <=? riskScore then pending
  else approved.

Definition checkAccountStatus (uid : string) : M unit :=
  r ← select_user "status" uid;
  match r with
  | Failed => throw (StoreError (tbl_users, SELECT "status"))
  | Data None => throw (JsError "Account is not active")
  | Data (Some data) =>
      if bool_decide (status data = active) then mret tt
      else throw (JsError "Account is not active")
  end.

(** [data?.daily_limit || 1000]: an absent row, a null and a zero limit
    all give 1000. *)
Definition limitOrDefault (r : Response (option UserRow)) : number :=
  match r with
  | Data (Some data) =>
      match daily_limit data with
      | Some l => if truthy l then l else num_of_Z 1000
      | None => num_of_Z 1000
      end
  | _ => num_of_Z 1000
  end.

Definition checkDailyLimit (uid : string) (amt : number) : M unit :=
  r ← select_user "daily_limit" uid;
  let dailyLimit := limitOrDefault r in
  dailyTotal ← getDailyTransactionTotal uid;
  if (dailyTotal + amt >? dailyLimit)%num
  then throw (JsError "Daily transaction limit exceeded")
  else mret tt.

(** [request.currency || 'USD'] *)
Definition currencyOrDefault (c : option string) : string :=
  match c with
  | Some s => if bool_decide (s = "") then "USD" else s
  | None => "USD"
  end.

Definition processTransaction (request : TransactionRequest) : M Transaction :=
  t ← Date_now;
  let timestamp := toISOString t in
  let signature :=
    generateTransactionSignature (rq_userId request) (rq_amount request)
                                 (rq_merchantId request) timestamp in
  riskScore ← calculateRiskScore request;
  checkAccountStatus (rq_userId request);;
  checkDailyLimit (rq_userId request) (rq_amount request);;
  let status := determineTransactionStatus riskScore in
  r ← insert_transaction (fun id created =>
        mkTx id (rq_userId request) (rq_deviceId request) (rq_amount request)
             (currencyOrDefault (rq_currency request))
             (rq_merchantId request) (rq_merchantName request)
             status riskScore
             (if bool_decide (status = declined) then Some "High risk score" else None)
             signature created);
  match r with
  | Failed => throw (StoreError (tbl_transactions, INSERT))
  | Data data =>
      logSecurityEvent (rq_userId request) "transaction_processed"
        (if 70 <? riskScore then high else low)
        ("Transaction " +:+ status_name status +:+ ": $"
         +:+ number_to_string (rq_amount request) +:+ " at "
         +:+ rq_merchantName request);;
      (if bool_decide (status = approved)
       then updateDeviceLastUsed (rq_deviceId request)
       else mret tt);;
      mret (toTransaction data)
  end.

(** ** components: NFCPayment.handlePayment

    The inputs are the signed-in user (without one the handler returns at
    once), the form fields with the amount already parsed, the list of
    devices the component loaded with [getUserDevices], and what
    [readNFCTag] gave: a serial number, or the error it threw.  The
    component's [catch] turns a thrown error into the message it shows; a
    [Throw] result stands for that outcome.  The state of the form is not
    part of the model. *)

Definition readNFCTag (tag : Res string) : M string := fun w => (tag, w).

Definition handlePayment (user : AuthUser) (pin : string) (amt : number)
    (merchantName : string) (devices : list NFCDevice) (tag : Res string)
  : M Transaction :=
  pinValid ← verifyPin (au_id user) pin;
  if negb pinValid then throw (JsError "Invalid PIN")
  else
    duid ← readNFCTag tag;
    device ←
      match List.find (fun d => bool_decide (deviceUid d = duid)) devices with
      | Some d => mret d
      | None =>
          registerNFCDevice (au_id user) duid
            ("Device " +:+ pretty (length devices + 1)%nat)
      end;
    t ← Date_now;
    processTransaction
      (mkRequest (au_id user) (nd_id device) amt ("MERCH_" +:+ pretty t)
                 merchantName (Some "USD")).

End Services.

(** * The rest of the service layer

    [signUp], [signOut] and [getCurrentUser] of authService, the
    securityService, [getUserTransactions], and the computations of the
    [Auth] and [TransactionHistory] components. *)

(** [from('users').insert(..)]: [id] is the primary key and [email] is
    UNIQUE. *)
Definition insert_user (id : string) (row : UserRow) : M (Response unit) :=
  io_err ← request (tbl_users, INSERT);
  if io_err : bool then mret Failed
  else
    taken ← get (fun w =>
      bool_decide (is_Some (users w !! id))
      || bool_decide (map_Exists (fun _ u => email u = email row) (users w)));
    if taken : bool then mret Failed
    else modify (set_users (fun us => <[id := row]> us));; mret (Data tt).

(** [from('security_logs').select('*').eq('user_id', uid)...] with the
    further filter of the query given by [keep]. *)
Definition select_logs (uid : string) (keep : LogRow -> bool)
  : M (Response (list LogRow)) :=
  io_err ← request (tbl_security_logs, SELECT "*");
  if io_err : bool then mret Failed
  else
    rows ← get (fun w =>
      filter (fun l => l_user_id l = uid /\ keep l = true) (security_logs w));
    mret (Data rows).

Section MoreServices.
Context `{Platform}.

(** ** services/authService.ts, continued

    The identity service ([supabase.auth]) is outside the store; what it
    answered is an input, as for [signIn]. *)

Definition signUp (resp : AuthResponse) (email pin : string) : M AuthResponse :=
  match auth_error resp with
  | Some msg => throw (JsError msg)
  | None =>
      match auth_user resp with
      | None => throw (JsError "Failed to create user")
      | Some id =>
          let pinHash := hashPin pin in
          r ← insert_user id (mkUser email pinHash (Some (num_of_Z 1000)) active 0 None);
          match r with
          | Failed => throw (StoreError (tbl_users, INSERT))
          | Data _ =>
              logSecurityEvent id "user_signup" low "New user account created";;
              mret resp
          end
      end
  end.

(** [session] is the user [supabase.auth.getUser] gave, [signOutError]
    the error of [supabase.auth.signOut], if any. *)
Definition signOut (session : option string) (signOutError : option string)
  : M unit :=
  match session with
  | Some id => logSecurityEvent id "user_signout" low "User signed out"
  | None => mret tt
  end;;
  match signOutError with
  | Some msg => throw (JsError msg)
  | None => mret tt
  end.

Definition getCurrentUser (session : option string) : M (option AuthUser) :=
  match session with
  | None => mret None
  | Some id =>
      r ← select_user "id, email, daily_limit, status" id;
      match r with
      | Failed => throw (StoreError (tbl_users, SELECT "id, email, daily_limit, status"))
      | Data None => mret None
      | Data (Some data) =>
          mret (Some (mkAuthUser id (email data) (daily_limit data) (status data)))
      end
  end.

(** ** components: Auth.handleSubmit

    [!pin || pin.length < 4]: the empty PIN is shorter than 4 too. *)
Definition handleSubmit (isSignUp : bool) (resp : AuthResponse)
    (email pin : string) : M unit :=
  if isSignUp then
    if (String.length pin <? 4)%nat
    then throw (JsError "PIN must be at least 4 digits")
    else signUp resp email pin;; mret tt
  else signIn resp;; mret tt.

End MoreServices.

(** ** services/securityService.ts *)

(** The [SecurityLog] interface; the identifiers of log rows are not
    modelled. *)
Record SecurityLog := mkSecurityLog {
  sl_userId : string;
  eventType : string;
  sl_severity : Severity;
  sl_description : string;
  sl_createdAt : Z
}.

Definition toSecurityLog (l : LogRow) : SecurityLog :=
  mkSecurityLog (l_user_id l) (event_type l) (severity l) (description l)
                (l_created_at l).

Definition getSecurityLogs (uid : string) : M (list SecurityLog) :=
  r ← select_logs uid (fun _ => true);
  match r with
  | Failed => throw (StoreError (tbl_security_logs, SELECT "*"))
  | Data data => mret (toSecurityLog <$> take 100 (order_desc l_created_at data))
  end.

Definition getRecentSecurityLogs (uid : string) (hours : Z) : M (list LogRow) :=
  t ← Date_now;
  let cutoff := t - hours * 60 * 60 * 1000 in
  r ← select_logs uid (fun l => cutoff <=? l_created_at l);
  match r with
  | Failed => mret []
  | Data data => mret data
  end.

Definition calculateSecurityScore (failedAttempts criticalEvents highEvents : Z) : Z :=
  let score := 100 in
  let score := score - failedAttempts * 10 in
  let score := score - criticalEvents * 20 in
  let score := score - highEvents * 10 in
  Z.max 0 score.

(** What [getAccountSecurityStatus] returns; [accountStatus] is [None]
    for the string 'unknown'. *)
Record SecurityStatus := mkSecurityStatus {
  accountStatus : option UserStatus;
  failedAuthAttempts : Z;
  lastFailedAuth : option Z;
  recentCriticalEvents : Z;
  recentHighEvents : Z;
  totalRecentEvents : Z;
  securityScore : Z
}.

Definition count_severity (sev : Severity) (logs : list LogRow) : Z :=
  Z.of_nat (length (filter (fun l => severity l = sev) logs)).

Definition getAccountSecurityStatus (uid : string) : M SecurityStatus :=
  r ← select_user "status, failed_auth_attempts, last_failed_auth" uid;
  let userData := match r with Data (Some u) => Some u | _ => None end in
  recentLogs ← getRecentSecurityLogs uid 24;
  let criticalEvents := count_severity critical recentLogs in
  let highEvents := count_severity high recentLogs in
  let failed := from_option failed_auth_attempts 0 userData in
  mret (mkSecurityStatus
          (status <$> userData)
          failed
          (userData ≫= last_failed_auth)
          criticalEvents highEvents
          (Z.of_nat (length recentLogs))
          (calculateSecurityScore failed criticalEvents highEvents)).

(** ** services/transactionService.ts, continued *)

Definition getUserTransactions (uid : string) : M (list Transaction) :=
  r ← select_transactions "*" uid (fun _ => true);
  match r with
  | Failed => throw (StoreError (tbl_transactions, SELECT "*"))
  | Data data => mret (toTransaction <$> take 50 (order_desc created_at data))
  end.

(** ** components: TransactionHistory *)

Definition getStatusColor (st : TxStatus) : string :=
  match st with
  | approved => "text-emerald-400 bg-emerald-500/10"
  | declined => "text-red-400 bg-red-500/10"
  | pending => "text-yellow-400 bg-yellow-500/10"
  | failed => "text-slate-400 bg-slate-700"
  end.

Definition getRiskColor (score : Z) : string :=
  if 80 <=? score then "text-red-400"
  else if 50 <=? score then "text-yellow-400"
  else "text-emerald-400".

(** [transactions.filter(t => t.status === 'approved').reduce(..)] *)
Definition totalAmount (txs : list Transaction) : number :=
  fold_left (fun sum t => (sum + tr_amount t)%num)
            (List.filter (fun t => bool_decide (tr_status t = approved)) txs)
            (num_of_Z 0).

(** [toDateString] of two instants agree: the same local calendar day. *)
Definition sameDay (offset a b : Z) : bool :=
  (a + offset) / 86400000 =? (b + offset) / 86400000.

Definition todayAmount (offset today : Z) (txs : list Transaction) : number :=
  fold_left (fun sum t => (sum + tr_amount t)%num)
            (List.filter (fun t => sameDay offset (createdAt t) today
                                   && bool_decide (tr_status t = approved)) txs)
            (num_of_Z 0).

(** * Vocabulary of the theorems

    Nothing below is part of the program: these are the notions the
    theorems are stated with. *)

(** ** Properties of computations *)

(** [keeps f m]: the computation [m] leaves the field [f] of the world
    as it found it. *)
Definition keeps {X A} (f : World -> X) (m : M A) : Prop :=
  forall w, f (m w).2 = f w.

(** [safe m]: the computation [m] never throws. *)
Definition safe {A} (m : M A) : Prop := forall w, exists a, (m w).1 = Ok a.

(** ** The rules of the risk engine, in the words of the specification

    These definitions follow the table of rules of the specification, not
    the code: they look at the whole history of the user, with
    propositions where the code has boolean tests, and they take the day
    from the calendar, not from the code's [startOfDay].  Amounts are
    IEEE 754 doubles, and the arithmetic of the rules is that of the
    standard library's [SpecFloat] at precision 53: a sum is accumulated
    from 0 in the order of the ledger, each addition rounded.  The theorem
    on [calculateRiskScore] compares the two. *)

(** The double of an integer, and 0.01, the double nearest to 1/100. *)
Definition double_of (n : Z) : number := binary_normalize 53 1024 n 0 false.
Definition cent : number := SFdiv 53 1024 (double_of 1) (double_of 100).

(** The rounded sum and the rounded distance of two doubles. *)
Definition rounded_sum (x y : number) : number := SFadd 53 1024 x y.
Definition rounded_distance (x y : number) : number := SFabs (SFsub 53 1024 x y).

(** [x] is above [y]; [x] is below [y].  Neither holds of a [NaN]. *)
Definition above (x y : number) : Prop := SFltb y x = true.
Definition below (x y : number) : Prop := SFltb x y = true.

#[global] Instance above_dec x y : Decision (above x y).
Proof. unfold above. apply _. Defined.
#[global] Instance below_dec x y : Decision (below x y).
Proof. unfold below. apply _. Defined.

(** The value of a number as a rational ([0] where it has none). *)
Definition exact (x : number) : Q :=
  match x with
  | S754_finite s m e =>
      ((if s then -1 else 1) * inject_Z (Zpos m) * 2 ^ e)%Q
  | _ => 0%Q
  end.

Definition points (triggered : bool) (p : Z) : Z := if triggered then p else 0.

(** The transactions of a user. *)
Definition history (w : World) (uid : string) : list TxRow :=
  filter (fun x => t_user_id x = uid) (transactions w).

(** Sum of the amounts of a list of transactions, from 0, in the order
    of the list. *)
Definition total_amount (l : list TxRow) : number :=
  fold_left (fun sum x => rounded_sum sum (amount x)) l (double_of 0).

(** The calendar day of an instant on a clock [offset] milliseconds
    ahead of UTC, and the instant at which the day of [t] starts. *)
Definition calendar_day (offset t : Z) : Z := (t + offset) / 86400000.
Definition day_start (offset t : Z) : Z := 86400000 * calendar_day offset t - offset.

(** Approved transactions of the user since the start of the current
    calendar day. *)
Definition approved_today (w : World) (uid : string) : list TxRow :=
  filter (fun x => t_status x = approved
                   /\ day_start (tz_offset w) (now w) <= created_at x)
         (history w uid).

(** Large amount: amount > 500. *)
Definition rule_large_amount (amt : number) : Prop :=
  above amt (double_of 500).

(** Burst velocity: at least 3 transactions in the trailing 5 minutes. *)
Definition rule_burst_velocity (w : World) (uid : string) : Prop :=
  (3 <= length (filter (fun x => (now w - 5 * 60 * 1000 <= created_at x)%Z)
                       (history w uid)))%nat.

(** Daily accumulation: approved-today total + amount > 1000. *)
Definition rule_daily_accumulation (w : World) (uid : string) (amt : number) : Prop :=
  above (rounded_sum (total_amount (approved_today w uid)) amt) (double_of 1000).

(** Duplicate: a transaction to the same merchant, with amount within 0.01
    currency units, created within the trailing 60 seconds. *)
Definition rule_duplicate (w : World) (uid merchant : string) (amt : number) : Prop :=
  Exists (fun x => merchant_id x = merchant
                   /\ below (rounded_distance (amount x) amt) cent
                   /\ now w - created_at x < 60 * 1000)
         (history w uid).

#[global] Instance rule_large_amount_dec amt : Decision (rule_large_amount amt).
Proof. unfold rule_large_amount. apply _. Defined.
#[global] Instance rule_burst_velocity_dec w uid : Decision (rule_burst_velocity w uid).
Proof. unfold rule_burst_velocity. apply _. Defined.
#[global] Instance rule_daily_accumulation_dec w uid amt :
  Decision (rule_daily_accumulation w uid amt).
Proof. unfold rule_daily_accumulation. apply _. Defined.
#[global] Instance rule_duplicate_dec w uid merchant amt :
  Decision (rule_duplicate w uid merchant amt).
Proof. unfold rule_duplicate. apply _. Defined.

(** Final score = min(sum of triggered points, 100). *)
Definition rule_score (w : World) (request : TransactionRequest) : Z :=
  Z.min (points (bool_decide (rule_large_amount (rq_amount request))) 30
         + points (bool_decide (rule_burst_velocity w (rq_userId request))) 40
         + points (bool_decide (rule_daily_accumulation w (rq_userId request)
                                                        (rq_amount request))) 50
         + points (bool_decide (rule_duplicate w (rq_userId request)
                                               (rq_merchantId request)
                                               (rq_amount request))) 70)
        100.

(** ** The rules as arithmetic on the values

    The same table read over the rationals: the amounts are the values
    the numbers denote, and sums, the difference and the comparisons are
    exact. *)

#[global] Instance Qlt_decision (x y : Q) : Decision (x < y)%Q :=
  match Qlt_le_dec x y with
  | left l => left l
  | right r => right (Qle_not_lt _ _ r)
  end.

Definition exact_total (l : list TxRow) : Q :=
  foldr (fun x acc => (exact (amount x) + acc)%Q) 0%Q l.

Definition exact_rule_score (w : World) (request : TransactionRequest) : Z :=
  let uid := rq_userId request in
  let amt := exact (rq_amount request) in
  Z.min (points (bool_decide (500 < amt)%Q) 30
         + points (bool_decide (rule_burst_velocity w uid)) 40
         + points (bool_decide (1000 < exact_total (approved_today w uid) + amt)%Q) 50
         + points (bool_decide
                     (Exists (fun x => merchant_id x = rq_merchantId request
                                       /\ (Qabs (exact (amount x) - amt) < 1 # 100)%Q
                                       /\ now w - created_at x < 60 * 1000)
                             (history w uid))) 70)
        100.

(** The store answers every request. *)
Definition reliable (w : World) : Prop := forall n, faults w n = false.

(** The requests a run sent, and the security events it appended. *)
Definition sent (w w1 : World) : list Call := drop (length (trace w)) (trace w1).
Definition logged (w w1 : World) : list LogRow :=
  drop (length (security_logs w)) (security_logs w1).

(** ** The gates of the pipeline, read off the state of the store *)

Section Gates.
Context `{Platform}.

(** The digest of the supplied PIN is not the stored one, or there is none. *)
Definition pin_rejected (w : World) (uid pin : string) : Prop :=
  forall u, users w !! uid = Some u -> pin_hash u <> hashPin pin.

(** The account is not active. *)
Definition account_inactive (w : World) (uid : string) : Prop :=
  forall u, users w !! uid = Some u -> status u <> active.

(** The device step of [handlePayment] fails: the tag could not be read,
    or it is not one of the devices the component knows and its identifier
    is already taken in the registry, so that the registration is
    refused.  (The step looks neither at the owner nor at the active flag
    of a device the component knows.) *)
Definition tag_refused (w : World) (devices : list NFCDevice) (tag : Res string)
  : Prop :=
  match tag with
  | Throw _ => True
  | Ok duid =>
      (forall d, d ∈ devices -> deviceUid d <> duid)
      /\ exists d, d ∈ nfc_devices w /\ device_uid d = duid
  end.

(** The approved total of the day plus the amount exceeds the limit. *)
Definition limit_exceeded (w : World) (uid : string) (amt : number) : Prop :=
  (total_amount (approved_today w uid) + amt
   >? limitOrDefault (Data (users w !! uid)))%num = true.

(** The row [processTransaction] hands to the store for a request, on a
    store that answers. *)
Definition stored_row (w : World) (request : TransactionRequest) : TxRow :=
  let score := rule_score w request in
  let st := determineTransactionStatus score in
  mkTx (next_id w) (rq_userId request) (rq_deviceId request) (rq_amount request)
       (currencyOrDefault (rq_currency request))
       (rq_merchantId request) (rq_merchantName request)
       st score
       (if bool_decide (st = declined) then Some "High risk score" else None)
       (generateTransactionSignature (rq_userId request) (rq_amount request)
                                     (rq_merchantId request) (toISOString (now w)))
       (now w).

(** The table takes the row of the request: the amount is a finite
    number above 0 and the device exists. *)
Definition insertable (w : World) (request : TransactionRequest) : bool :=
  isFinite (rq_amount request)
  && (rq_amount request >? num_of_Z 0)%num
  && existsb (fun d => bool_decide (d_id d = rq_deviceId request)) (nfc_devices w).

(** What [processTransaction] returns on a store that answers. *)
Definition outcome (w : World) (request : TransactionRequest) : Res Transaction :=
  match users w !! rq_userId request with
  | Some u =>
      if bool_decide (status u = active) then
        if (total_amount (approved_today w (rq_userId request)) + rq_amount request
            >? limitOrDefault (Data (Some u)))%num
        then Throw (JsError "Daily transaction limit exceeded")
        else if insertable w request
             then Ok (toTransaction (stored_row w request))
             else Throw (StoreError (tbl_transactions, INSERT))
      else Throw (JsError "Account is not active")
  | None => Throw (JsError "Account is not active")
  end.

(** The request [handlePayment] builds at time [t]. *)
Definition payment_request (uid : string) (deviceId : N) (amt : number) (t : Z)
    (name : string) : TransactionRequest :=
  mkRequest uid deviceId amt ("MERCH_" +:+ pretty t) name (Some "USD").

(** The registry once the tag [duid] is registered to [uid]. *)
Definition with_device (uid duid name : string) (w : World) : World :=
  set_nfc_devices
    (fun l => l ++ [mkDevice (next_id w) uid duid name true None (now w)])
    (set_next_id N.succ w).

(** What [handlePayment] returns on a store that answers. *)
Definition payment_outcome (w : World) (user : AuthUser) (pin : string)
    (amt : number) (name : string) (devices : list NFCDevice) (tag : Res string)
  : Res Transaction :=
  let uid := au_id user in
  match users w !! uid with
  | Some u =>
      if bool_decide (pin_hash u = hashPin pin) then
        match tag with
        | Throw e => Throw e
        | Ok duid =>
            match List.find (fun d => bool_decide (deviceUid d = duid)) devices with
            | Some d => outcome w (payment_request uid (nd_id d) amt (now w) name)
            | None =>
                if existsb (fun d => bool_decide (device_uid d = duid)) (nfc_devices w)
                then Throw (StoreError (tbl_nfc_devices, INSERT))
                else
                  outcome
                    (with_device uid duid
                       ("Device " +:+ pretty (length devices + 1)%nat) w)
                    (payment_request uid (next_id w) amt (now w) name)
            end
        end
      else Throw (JsError "Invalid PIN")
  | None => Throw (JsError "Invalid PIN")
  end.

End Gates.

(** ** Failed authentication, as a change of the store

    The closed forms of what [incrementFailedAuthAttempts] and a rejected
    [verifyPin] do to the world when the store answers; the lemmas on
    these functions prove them. *)

(** The row of a user after one more failed attempt at time [t]. *)
Definition failed_attempt (t : Z) (u : UserRow) : UserRow :=
  mkUser (email u) (pin_hash u) (daily_limit u)
         (if 5 <=? failed_auth_attempts u + 1 then locked else active)
         (failed_auth_attempts u + 1) (Some t).

Definition account_locked_event (uid : string) (attempts t : Z) : LogRow :=
  mkLog uid "account_locked" critical
        ("Account locked after " +:+ pretty attempts +:+ " failed attempts") t.

Definition invalid_pin_event (uid : string) (t : Z) : LogRow :=
  mkLog uid "invalid_pin" high "Invalid PIN entered" t.

(** The world after [incrementFailedAuthAttempts] on a reliable store. *)
Definition after_increment (uid : string) (u : UserRow) (w : World) : World :=
  let w1 :=
    set_users (fun us => <[uid := failed_attempt (now w) u]> us)
      (set_trace (fun t => t ++ [(tbl_users, UPDATE)])
         (set_trace (fun t => t ++ [(tbl_users, SELECT "failed_auth_attempts")]) w)) in
  if 5 <=? failed_auth_attempts u + 1 then
    set_security_logs
      (fun l => l ++ [account_locked_event uid (failed_auth_attempts u + 1) (now w)])
      (set_trace (fun t => t ++ [(tbl_security_logs, INSERT)]) w1)
  else w1.

(** The world after a PIN verification that found a different digest. *)
Definition after_invalid_pin (uid : string) (u : UserRow) (w : World) : World :=
  set_security_logs (fun l => l ++ [invalid_pin_event uid (now w)])
    (set_trace (fun t => t ++ [(tbl_security_logs, INSERT)])
       (after_increment uid u
          (set_trace (fun t => t ++ [(tbl_users, SELECT "pin_hash")]) w))).

(** The events of [k] failed PIN verifications in a row, the first of
    them on a counter that stands at [n]. *)
Fixpoint failure_events (uid : string) (t n : Z) (k : nat) : list LogRow :=
  match k with
  | O => []
  | S k' =>
      (if 5 <=? n + 1 then [account_locked_event uid (n + 1) t] else [])
      ++ [invalid_pin_event uid t] ++ failure_events uid t (n + 1) k'
  end.

(** The events of a given type among those a run appended. *)
Definition events_of (kind : string) (l : list LogRow) : list LogRow :=
  filter (fun e => event_type e = kind) l.

(** A run appended an event of the given type and severity. *)
Definition emits (w w1 : World) (kind : string) (sev : Severity) : Prop :=
  Exists (fun e => event_type e = kind /\ severity e = sev) (logged w w1).

#[global] Instance emits_dec w w1 kind sev : Decision (emits w w1 kind sev).
Proof. unfold emits. apply _. Defined.

(** One failed attempt rewrote the row of the user: the counter went up
    by one, and the status was written from the new counter alone. *)
Definition status_rewritten (u : UserRow) (uid : string) (w1 : World) : Prop :=
  exists u1, users w1 !! uid = Some u1
    /\ failed_auth_attempts u1 = failed_auth_attempts u + 1
    /\ (failed_auth_attempts u1 < 5 -> status u1 = active)
    /\ (5 <= failed_auth_attempts u1 -> status u1 = locked).

Section Attempts.
Context `{Platform}.

(** PIN verifications of one user, one after the other. *)
Fixpoint attempts (uid : string) (pins : list string) (w : World) : World :=
  match pins with
  | [] => w
  | pin :: rest => attempts uid rest (verifyPin uid pin w).2
  end.

End Attempts.

(** ** The requests of each step of the pipeline *)

Definition pin_calls : list Call := [(tbl_users, SELECT "pin_hash")].

(** A device the component knows needs no request; an unknown one is
    registered, and the registration logged. *)
Definition device_calls (known : bool) : list Call :=
  if known then [] else [(tbl_nfc_devices, INSERT); (tbl_security_logs, INSERT)].

Definition risk_calls : list Call :=
  [(tbl_transactions, SELECT "*"); (tbl_transactions, SELECT "amount")].

Definition account_calls : list Call := [(tbl_users, SELECT "status")].

Definition limit_calls : list Call :=
  [(tbl_users, SELECT "daily_limit"); (tbl_transactions, SELECT "amount")].

Definition persist_calls : list Call := [(tbl_transactions, INSERT)].

(** The audit event, and the last-used stamp of an approved payment. *)
Definition audit_calls (st : TxStatus) : list Call :=
  (tbl_security_logs, INSERT)
  :: (if bool_decide (st = approved) then [(tbl_nfc_devices, UPDATE)] else []).

(** The tag read is one of the devices the component loaded. *)
Definition known_device (devices : list NFCDevice) (tag : Res string) : bool :=
  match tag with
  | Ok duid =>
      match List.find (fun d => bool_decide (deviceUid d = duid)) devices with
      | Some _ => true
      | None => false
      end
  | Throw _ => false
  end.

(** A device as the component sees it once it is deactivated. *)
Definition deactivated (d : NFCDevice) : NFCDevice :=
  mkNFCDevice (nd_id d) (userId d) (deviceUid d) (deviceName d) false (lastUsed d).

(** Requests that only keep the books of a failed PIN verification. *)
Definition bookkeeping (c : Call) : Prop :=
  c.1 = tbl_users \/ c.1 = tbl_security_logs.

(** Every [a] of the trace comes before every [b]. *)
Definition before (a b : Call) (cs : list Call) : Prop :=
  forall i j, cs !! i = Some a -> cs !! j = Some b -> (i < j)%nat.

(** ** Concrete runs

    A stand-in for the runtime, to run the services on concrete inputs:
    the digest keeps its input readable.  The theorems below hold for
    every [Platform]. *)

Definition demo_platform : Platform :=
  {| sha256_hex s := "sha256:" +:+ s;
     number_to_string x :=
       match x with
       | S754_zero _ => "0"
       | S754_infinity s => (if s then "-" else "") +:+ "Infinity"
       | S754_nan => "NaN"
       | S754_finite s m e =>
           (if s then "-" else "") +:+ pretty (Zpos m) +:+ "p" +:+ pretty e
       end;
     toISOString t := pretty t |}.

Definition no_faults : nat -> bool := fun _ => false.

Definition alice_row (st : UserStatus) (failures : Z) : UserRow :=
  mkUser "alice@example.com" (@hashPin demo_platform "1234") (Some (num_of_Z 1000))
         st failures None.

Definition alice : AuthUser :=
  mkAuthUser "alice" "alice@example.com" (Some (num_of_Z 1000)) active.

(** A store with one user, [alice], and nothing else; noon of some day. *)
Definition world_of (row : UserRow) : World :=
  mkWorld {[ "alice" := row ]} [] [] [] 1700000000000 0 no_faults [] 0.

Definition noon : Z := 1700000000000.

(** The devices the component shows for [alice]: what [getUserDevices]
    returns on the world. *)
Definition devices_of (w : World) : list NFCDevice :=
  match (getUserDevices "alice" w).1 with
  | Ok l => l
  | Throw _ => []
  end.

(** [alice] has registered the tag "tag-1". *)
Definition paired_world : World :=
  (registerNFCDevice "alice" "tag-1" "Device 1" (world_of (alice_row active 0))).2.

(** ... and has deactivated it since. *)
Definition unpaired_world : World := (deactivateDevice 0 "alice" paired_world).2.

Definition past_payment (i : N) (amt : number) (merchant : string) (st : TxStatus)
    (age : Z) : TxRow :=
  mkTx i "alice" 0 amt "USD" merchant merchant st 0 None "" (noon - age).

(** [alice] has spent 900 today, an hour ago; the store fails the
    requests [down] names. *)
Definition spent_world (down : nat -> bool) : World :=
  mkWorld (users paired_world) (nfc_devices paired_world)
          [past_payment 1 (num_of_Z 900) "M0" approved 3600000]
          [] noon 0 down [] 2.

(** The three reads of table [transactions] of a payment with a known
    device: requests 1, 2 and 5. *)
Definition reads_down (n : nat) : bool :=
  bool_decide (n = 1%nat \/ n = 2%nat \/ n = 5%nat).

(** Three payments in the last five minutes, one of them of 600.00 to
    "M1" half a minute ago. *)
Definition busy_world : World :=
  mkWorld (users paired_world) (nfc_devices paired_world)
          [past_payment 1 (num_of_Z 30) "M3" declined 200000;
           past_payment 2 (num_of_Z 20) "M2" approved 120000;
           past_payment 3 (num_of_Z 600) "M1" approved 30000]
          [] noon 0 no_faults [] 4.

Definition busy_request : TransactionRequest :=
  mkRequest "alice" 0 (decimal 600005 3) "M1" "M1" (Some "USD").

(** [alice] has spent 1000.00 today, an hour ago, and pays 2^-45, a
    positive amount below half the gap between 1000 and the next number. *)
Definition sliver : number := S754_finite false 4503599627370496 (-97).

Definition full_world : World :=
  mkWorld (users paired_world) (nfc_devices paired_world)
          [past_payment 1 (num_of_Z 1000) "M0" approved 3600000]
          [] noon 0 no_faults [] 2.

Definition sliver_request : TransactionRequest :=
  mkRequest "alice" 0 sliver "M9" "Cafe" (Some "USD").

(** [alice] has spent 32.84 and 256.97 today and pays 710.19: 1000.00 in
    all. *)
Definition cents_world : World :=
  mkWorld (users paired_world) (nfc_devices paired_world)
          [past_payment 1 (decimal 3284 2) "M0" approved 7200000;
           past_payment 2 (decimal 25697 2) "M1" approved 3600000]
          [] noon 0 no_faults [] 3.

Definition cents_request : TransactionRequest :=
  mkRequest "alice" 0 (decimal 71019 2) "M9" "Cafe" (Some "USD").

(** A payment of 10.01 to "M1" half a minute ago, and one of 10.00 now. *)
Definition near_world : World :=
  mkWorld (users paired_world) (nfc_devices paired_world)
          [past_payment 1 (decimal 1001 2) "M1" approved 30000]
          [] noon 0 no_faults [] 2.

Definition near_request : TransactionRequest :=
  mkRequest "alice" 0 (num_of_Z 10) "M1" "M1" (Some "USD").

Definition small_request : TransactionRequest :=
  mkRequest "alice" 0 (num_of_Z 25) "M9" "Cafe" None.

Definition wrong_pins : list string := ["0000"; "1111"; "2222"; "3333"; "4444"].

(** ** The service layer as a state machine

    One step is a call of one of the services, or the environment
    moving on: the clock advances and the store fails other requests. *)

Definition elapse (t : Z) (down : nat -> bool) (w : World) : World :=
  mkWorld (users w) (nfc_devices w) (transactions w) (security_logs w)
          t (tz_offset w) down (trace w) (next_id w).

Inductive Operation :=
| OpElapse (t : Z) (down : nat -> bool)
| OpHandleSubmit (isSignUp : bool) (resp : AuthResponse) (email pin : string)
| OpSignUp (resp : AuthResponse) (email pin : string)
| OpSignIn (resp : AuthResponse)
| OpSignOut (session signOutError : option string)
| OpGetCurrentUser (session : option string)
| OpVerifyPin (uid pin : string)
| OpRegisterNFCDevice (uid duid name : string)
| OpGetUserDevices (uid : string)
| OpVerifyDeviceOwnership (duid uid : string)
| OpUpdateDeviceLastUsed (deviceId : N)
| OpDeactivateDevice (deviceId : N) (uid : string)
| OpProcessTransaction (request : TransactionRequest)
| OpGetUserTransactions (uid : string)
| OpGetSecurityLogs (uid : string)
| OpGetAccountSecurityStatus (uid : string)
| OpHandlePayment (user : AuthUser) (pin : string) (amt : number) (name : string)
                  (devices : list NFCDevice) (tag : Res string).

Section Machine.
Context `{Platform}.

Definition perform (op : Operation) (w : World) : World :=
  match op with
  | OpElapse t down => elapse t down w
  | OpHandleSubmit isSignUp resp email pin => (handleSubmit isSignUp resp email pin w).2
  | OpSignUp resp email pin => (signUp resp email pin w).2
  | OpSignIn resp => (signIn resp w).2
  | OpSignOut session err => (signOut session err w).2
  | OpGetCurrentUser session => (getCurrentUser session w).2
  | OpVerifyPin uid pin => (verifyPin uid pin w).2
  | OpRegisterNFCDevice uid duid name => (registerNFCDevice uid duid name w).2
  | OpGetUserDevices uid => (getUserDevices uid w).2
  | OpVerifyDeviceOwnership duid uid => (verifyDeviceOwnership duid uid w).2
  | OpUpdateDeviceLastUsed deviceId => (updateDeviceLastUsed deviceId w).2
  | OpDeactivateDevice deviceId uid => (deactivateDevice deviceId uid w).2
  | OpProcessTransaction request => (processTransaction request w).2
  | OpGetUserTransactions uid => (getUserTransactions uid w).2
  | OpGetSecurityLogs uid => (getSecurityLogs uid w).2
  | OpGetAccountSecurityStatus uid => (getAccountSecurityStatus uid w).2
  | OpHandlePayment user pin amt name devices tag =>
      (handlePayment user pin amt name devices tag w).2
  end.

Definition perform_all (ops : list Operation) (w : World) : World :=
  fold_left (fun w op => perform op w) ops w.

End Machine.

(** [respects R m]: every run of [m] takes a world to one that [R]
    relates to it. *)
Definition respects (R : World -> World -> Prop) {A} (m : M A) : Prop :=
  forall w, R w (m w).2.

(** No two devices of the registry share an identifier. *)
Definition unique_devices (w : World) : Prop :=
  NoDup (device_uid <$> nfc_devices w).

(** Every device of [w] is still there in [w1], with its owner, its
    identifier, its name and its date of registration: all the columns
    but [is_active] and [last_used]. *)
Definition same_owners (w w1 : World) : Prop :=
  forall d, d ∈ nfc_devices w ->
    exists d1, d1 ∈ nfc_devices w1 /\ d_id d1 = d_id d
               /\ d_user_id d1 = d_user_id d /\ device_uid d1 = device_uid d
               /\ device_name d1 = device_name d
               /\ d_created_at d1 = d_created_at d.

(** The ledger and the audit log of [w1] extend those of [w]. *)
Definition append_only (w w1 : World) : Prop :=
  transactions w `prefix_of` transactions w1
  /\ security_logs w `prefix_of` security_logs w1.

(** A stored transaction as the pipeline writes it. *)
Definition sound_transaction (t : TxRow) : Prop :=
  isFinite (amount t) = true /\ (amount t >? num_of_Z 0)%num = true
  /\ 0 <= risk_score t <= 100
  /\ t_status t = determineTransactionStatus (risk_score t)
  /\ (t_status t = declined <-> is_Some (decline_reason t)).

(** The security events of a user in the 24 hours before now. *)
Definition recent_events (w : World) (uid : string) : list LogRow :=
  filter (fun l => l_user_id l = uid /\ now w - 86400000 <= l_created_at l)
         (security_logs w).

(** The events of a severity among them. *)
Definition recent_of (sev : Severity) (w : World) (uid : string) : list LogRow :=
  filter (fun l => severity l = sev) (recent_events w uid).

(** The failed attempts on record for a user: the counter of the row,
    0 without a row. *)
Definition attempts_on_record (w : World) (uid : string) : Z :=
  match users w !! uid with
  | Some u => failed_auth_attempts u
  | None => 0
  end.

(** The security status the store has on record for a user: 100 less 10
    for each failed attempt, 20 for each recent critical event and 10 for
    each recent high event, and not below 0. *)
Definition status_on_record (w : World) (uid : string) : SecurityStatus :=
  let u := users w !! uid in
  let criticals := Z.of_nat (length (recent_of critical w uid)) in
  let highs := Z.of_nat (length (recent_of high w uid)) in
  mkSecurityStatus (status <$> u) (attempts_on_record w uid)
    (u ≫= last_failed_auth) criticals highs
    (Z.of_nat (length (recent_events w uid)))
    (Z.max 0 (100 - 10 * attempts_on_record w uid - 20 * criticals - 10 * highs)).

(** Every account of [w] is still there in [w1], with its e-mail, its
    PIN digest and its daily limit. *)
Definition same_credentials (w w1 : World) : Prop :=
  forall uid u, users w !! uid = Some u ->
    exists u1, users w1 !! uid = Some u1 /\ email u1 = email u
               /\ pin_hash u1 = pin_hash u /\ daily_limit u1 = daily_limit u.

(** No two accounts share an e-mail. *)
Definition unique_emails (w : World) : Prop :=
  forall i j u v, users w !! i = Some u -> users w !! j = Some v ->
    email u = email v -> i = j.

(** [.order(.., { ascending: false })] compares any two rows. *)
#[global] Instance later_first_total {A} (key : A -> Z) : Total (later_first key).
Proof. intros x y. unfold later_first. lia. Qed.

#[global] Instance later_first_trans {A} (key : A -> Z) : Transitive (later_first key).
Proof. intros x y z. unfold later_first. lia. Qed.

(** ** Concrete runs *)

(** A day in the life of the store: a registration, a second one of the
    same tag, a payment with a tag nobody has registered, a sign-up, a
    wrong PIN and a deactivation. *)
Definition sample_ops : list Operation :=
  [ OpRegisterNFCDevice "alice" "tag-1" "Device 1";
    OpRegisterNFCDevice "alice" "tag-1" "Device 2";
    OpHandlePayment alice "1234" (num_of_Z 25) "Cafe" [] (Ok "tag-2");
    OpSignUp (mkAuthResponse None (Some "bob")) "bob@example.com" "4321";
    OpSignUp (mkAuthResponse None (Some "carol")) "alice@example.com" "9999";
    OpVerifyPin "alice" "0000";
    OpDeactivateDevice 0 "alice" ].

(** The device of [paired_world]. *)
Definition first_device : DeviceRow :=
  mkDevice 0 "alice" "tag-1" "Device 1" true None noon.

(** Three payments of 10.00 to "M1" in the last five minutes, the last
    one half a minute ago, and the same payment again. *)
Definition echo_world : World :=
  mkWorld (users paired_world) (nfc_devices paired_world)
          [past_payment 1 (num_of_Z 10) "M1" approved 200000;
           past_payment 2 (num_of_Z 10) "M1" approved 120000;
           past_payment 3 (num_of_Z 10) "M1" approved 30000]
          [] noon 0 no_faults [] 4.

Definition echo_request : TransactionRequest :=
  mkRequest "alice" 0 (num_of_Z 10) "M1" "M1" (Some "USD").

(** [alice] with a stored daily limit of zero. *)
Definition unlimited_row : UserRow :=
  mkUser "alice@example.com" (@hashPin demo_platform "1234") (Some (num_of_Z 0)) active 0 None.

(** The read of the counter fails, the other requests go through. *)
Definition first_read_down (n : nat) : bool := Nat.eqb n 0.

(** Every request fails. *)
Definition all_down (n : nat) : bool := true.

(** [alice] with a daily limit of 5000, who has spent 600.00 an hour
    ago. *)
Definition generous_row : UserRow :=
  mkUser "alice@example.com" (@hashPin demo_platform "1234") (Some (num_of_Z 5000))
         active 0 None.

Definition generous_world : World :=
  mkWorld {[ "alice" := generous_row ]} (nfc_devices paired_world)
          [past_payment 1 (num_of_Z 600) "M0" approved 3600000]
          [] noon 0 no_faults [] 2.

(** [alice] has spent 0.10, 0.20 and 0.30 today, in this order. *)
Definition tenths_world : World :=
  mkWorld (users paired_world) (nfc_devices paired_world)
          [past_payment 1 (decimal 1 1) "M1" approved 10800000;
           past_payment 2 (decimal 2 1) "M2" approved 7200000;
           past_payment 3 (decimal 3 1) "M3" approved 3600000]
          [] noon 0 no_faults [] 4.

(** * Reasoning about runs *)

Lemma bind_run {A B} (m : M A) (k : A -> M B) (w : World) :
  (m ≫= k) w =
  match m w with
  | (Ok a, w') => k a w'
  | (Throw e, w') => (Throw e, w')
  end.
Proof. reflexivity. Qed.

Lemma bind_Ok_inv {A B} (m : M A) (k : A -> M B) w b w2 :
  (m ≫= k) w = (Ok b, w2) ->
  exists a w1, m w = (Ok a, w1) /\ k a w1 = (Ok b, w2).
Proof.
  rewrite bind_run. destruct (m w) as [[a|e] w1]; intros Hk.
  - exists a, w1. split; [reflexivity | exact Hk].
  - discriminate Hk.
Qed.

Lemma bind_Throw_inv {A B} (m : M A) (k : A -> M B) w e w2 :
  (m ≫= k) w = (Throw e, w2) ->
  m w = (Throw e, w2) \/ exists a w1, m w = (Ok a, w1) /\ k a w1 = (Throw e, w2).
Proof.
  rewrite bind_run. destruct (m w) as [[a|e'] w1]; intros Hk.
  - right. exists a, w1. split; [reflexivity | exact Hk].
  - left. injection Hk as -> ->. reflexivity.
Qed.

(** Runs the plumbing of a computation: binds, returns, reads of the world. *)
Ltac run :=
  cbv beta iota zeta delta [mbind M_bind mret M_ret get Date_now modify
                            fresh_id throw request].

(** Projections of updated worlds. *)
Ltac world_simpl :=
  unfold set_users, set_nfc_devices, set_transactions, set_security_logs,
         set_trace, set_next_id;
  cbn [users nfc_devices transactions security_logs now tz_offset faults trace
       next_id fst snd].

(** Runs a computation on a store whose requests all succeed ([Hrel]). *)
Ltac reliably Hrel := repeat (progress (run; world_simpl; rewrite ?Hrel)).

(** ** Frames: the fields of the world a computation leaves alone *)

Lemma keeps_ret {X A} (f : World -> X) (a : A) : keeps f (mret a).
Proof. intros w. reflexivity. Qed.

Lemma keeps_throw {X A} (f : World -> X) (e : Error) : keeps f (@throw A e).
Proof. intros w. reflexivity. Qed.

Lemma keeps_get {X A} (f : World -> X) (g : World -> A) : keeps f (get g).
Proof. intros w. reflexivity. Qed.

Lemma keeps_bind {X A B} (f : World -> X) (m : M A) (k : A -> M B) :
  keeps f m -> (forall a, keeps f (k a)) -> keeps f (m ≫= k).
Proof.
  intros Hm Hk w. rewrite bind_run. specialize (Hm w).
  destruct (m w) as [[a|e] w1]; cbn in *.
  - rewrite Hk. exact Hm.
  - exact Hm.
Qed.

Create HintDb frame discriminated.

(** Splits a composite computation along its binds and branches, and
    leaves the calls to other functions to the hints of [frame]. *)
Ltac frame_step :=
  match goal with
  | |- keeps _ (_ ≫= _) => apply keeps_bind; [ | intros ? ]
  | |- keeps _ (mret _) => apply keeps_ret
  | |- keeps _ (throw _) => apply keeps_throw
  | |- keeps _ (get _) => apply keeps_get
  | |- keeps _ Date_now => apply keeps_get
  | |- keeps _ (match ?x with _ => _ end) => destruct x
  | |- keeps _ (let _ := _ in _) => cbv zeta
  end.

Ltac frame := repeat frame_step; auto with frame.

Section Frames.
Context `{Platform} {X : Type} (f : World -> X).

(** Which writes [f] does not see. *)
Hypothesis f_trace : forall g w, f (set_trace g w) = f w.
Hypothesis f_users : forall g w, f (set_users g w) = f w.
Hypothesis f_logs : forall g w, f (set_security_logs g w) = f w.
Hypothesis f_devices : forall g w, f (set_nfc_devices g w) = f w.
Hypothesis f_ids : forall g w, f (set_next_id g w) = f w.
Hypothesis f_txs : forall g w, f (set_transactions g w) = f w.

Lemma keeps_request c : keeps f (request c).
Proof. intros w. apply f_trace. Qed.

Lemma keeps_modify_users g : keeps f (modify (set_users g)).
Proof. intros w. apply f_users. Qed.

Lemma keeps_modify_logs g : keeps f (modify (set_security_logs g)).
Proof. intros w. apply f_logs. Qed.

Lemma keeps_modify_devices g : keeps f (modify (set_nfc_devices g)).
Proof. intros w. apply f_devices. Qed.

Lemma keeps_modify_txs g : keeps f (modify (set_transactions g)).
Proof. intros w. apply f_txs. Qed.

Lemma keeps_fresh_id : keeps f fresh_id.
Proof. intros w. apply f_ids. Qed.

Local Hint Resolve keeps_request keeps_modify_users keeps_modify_logs
  keeps_modify_devices keeps_modify_txs keeps_fresh_id : frame.

(** *** The store *)

Lemma keeps_select_user cols uid : keeps f (select_user cols uid).
Proof. unfold select_user. frame. Qed.

Lemma keeps_select_devices_of uid : keeps f (select_devices_of uid).
Proof. unfold select_devices_of. frame. Qed.

Lemma keeps_select_device_by_uid duid : keeps f (select_device_by_uid duid).
Proof. unfold select_device_by_uid. frame. Qed.

Lemma keeps_select_transactions cols uid keep :
  keeps f (select_transactions cols uid keep).
Proof. unfold select_transactions. frame. Qed.

Lemma keeps_update_user uid g : keeps f (update_user uid g).
Proof. unfold update_user. frame. Qed.

Lemma keeps_insert_log uid ev sev descr : keeps f (insert_log uid ev sev descr).
Proof. unfold insert_log. frame. Qed.

Lemma keeps_insert_device uid duid name : keeps f (insert_device uid duid name).
Proof. unfold insert_device. frame. Qed.

Lemma keeps_update_devices sel g : keeps f (update_devices sel g).
Proof. unfold update_devices. frame. Qed.

Lemma keeps_insert_transaction mk : keeps f (insert_transaction mk).
Proof. unfold insert_transaction. frame. Qed.

Local Hint Resolve keeps_select_user keeps_select_devices_of
  keeps_select_device_by_uid keeps_select_transactions keeps_update_user
  keeps_insert_log keeps_insert_device keeps_update_devices : frame.

(** *** authService *)

Lemma keeps_logSecurityEvent uid ev sev descr :
  keeps f (logSecurityEvent uid ev sev descr).
Proof. unfold logSecurityEvent. frame. Qed.
Local Hint Resolve keeps_logSecurityEvent : frame.

Lemma keeps_incrementFailedAuthAttempts uid :
  keeps f (incrementFailedAuthAttempts uid).
Proof. unfold incrementFailedAuthAttempts. frame. Qed.

Lemma keeps_resetFailedAuthAttempts uid : keeps f (resetFailedAuthAttempts uid).
Proof. unfold resetFailedAuthAttempts. frame. Qed.
Local Hint Resolve keeps_incrementFailedAuthAttempts
  keeps_resetFailedAuthAttempts : frame.

Lemma keeps_verifyPin uid pin : keeps f (verifyPin uid pin).
Proof. unfold verifyPin. frame. Qed.

Lemma keeps_signIn resp : keeps f (signIn resp).
Proof. unfold signIn. frame. Qed.

(** *** nfcService *)

Lemma keeps_registerNFCDevice uid duid name :
  keeps f (registerNFCDevice uid duid name).
Proof. unfold registerNFCDevice. frame. Qed.

Lemma keeps_getUserDevices uid : keeps f (getUserDevices uid).
Proof. unfold getUserDevices. frame. Qed.

Lemma keeps_updateDeviceLastUsed deviceId : keeps f (updateDeviceLastUsed deviceId).
Proof. unfold updateDeviceLastUsed. frame. Qed.

(** *** transactionService *)

Lemma keeps_getDailyTransactionTotal uid : keeps f (getDailyTransactionTotal uid).
Proof. unfold getDailyTransactionTotal. frame. Qed.

Lemma keeps_getRecentTransactions uid minutes :
  keeps f (getRecentTransactions uid minutes).
Proof. unfold getRecentTransactions. frame. Qed.
Local Hint Resolve keeps_getDailyTransactionTotal keeps_getRecentTransactions : frame.

Lemma keeps_calculateRiskScore request : keeps f (calculateRiskScore request).
Proof. unfold calculateRiskScore. frame. Qed.

Lemma keeps_checkAccountStatus uid : keeps f (checkAccountStatus uid).
Proof. unfold checkAccountStatus. frame. Qed.

Lemma keeps_checkDailyLimit uid amt : keeps f (checkDailyLimit uid amt).
Proof. unfold checkDailyLimit. frame. Qed.

Lemma keeps_readNFCTag tag : keeps f (readNFCTag tag).
Proof. intros w. reflexivity. Qed.

End Frames.

#[global] Hint Resolve keeps_select_user keeps_select_devices_of
  keeps_select_device_by_uid keeps_select_transactions keeps_update_user
  keeps_insert_log keeps_insert_device keeps_update_devices
  keeps_insert_transaction keeps_logSecurityEvent
  keeps_incrementFailedAuthAttempts keeps_resetFailedAuthAttempts
  keeps_verifyPin keeps_signIn keeps_registerNFCDevice keeps_getUserDevices
  keeps_updateDeviceLastUsed keeps_getDailyTransactionTotal
  keeps_getRecentTransactions keeps_calculateRiskScore keeps_checkAccountStatus
  keeps_checkDailyLimit keeps_readNFCTag : frame.

Lemma keeps_run {X A} (f : World -> X) (m : M A) w r w1 :
  keeps f m -> m w = (r, w1) -> f w1 = f w.
Proof. intros Hk Hrun. specialize (Hk w). rewrite Hrun in Hk. exact Hk. Qed.

(** [kept f in Hrun as E]: the run [Hrun : m w = (r, w1)] left the field
    [f] alone, [E : f w1 = f w]. *)
Tactic Notation "kept" constr(f) "in" hyp(Hrun) "as" ident(E) :=
  lazymatch type of Hrun with
  | ?m ?w = (?r, ?w1) =>
      assert (E : f w1 = f w)
        by (apply (keeps_run f m w r w1); [frame | exact Hrun])
  end.

(** ** Computations that never throw *)


Lemma safe_ret {A} (a : A) : safe (mret a).
Proof. intros w. exists a. reflexivity. Qed.

Lemma safe_get {A} (g : World -> A) : safe (get g).
Proof. intros w. eexists. reflexivity. Qed.

Lemma safe_modify g : safe (modify g).
Proof. intros w. eexists. reflexivity. Qed.

Lemma safe_request c : safe (request c).
Proof. intros w. eexists. reflexivity. Qed.

Lemma safe_fresh_id : safe fresh_id.
Proof. intros w. eexists. reflexivity. Qed.

Lemma safe_bind {A B} (m : M A) (k : A -> M B) :
  safe m -> (forall a, safe (k a)) -> safe (m ≫= k).
Proof.
  intros Hm Hk w. rewrite bind_run. destruct (Hm w) as [a Ha].
  destruct (m w) as [[a'|e] w1]; cbn in Ha; [ | discriminate Ha].
  apply Hk.
Qed.

Lemma safe_run {A} (m : M A) w e w1 : safe m -> m w = (Throw e, w1) -> False.
Proof. intros Hm Hrun. destruct (Hm w) as [a Ha]. rewrite Hrun in Ha. discriminate Ha. Qed.

Create HintDb safe discriminated.
#[global] Hint Resolve safe_request safe_modify safe_fresh_id : safe.

Ltac safe_step :=
  match goal with
  | |- safe (_ ≫= _) => apply safe_bind; [ | intros ? ]
  | |- safe (mret _) => apply safe_ret
  | |- safe (get _) => apply safe_get
  | |- safe Date_now => apply safe_get
  | |- safe (match ?x with _ => _ end) => destruct x
  | |- safe (let _ := _ in _) => cbv zeta
  end.

Ltac safe := repeat safe_step; auto with safe.

Section Safe.
Context `{Platform}.

Lemma safe_select_user cols uid : safe (select_user cols uid).
Proof. unfold select_user. safe. Qed.

Lemma safe_update_user uid g : safe (update_user uid g).
Proof. unfold update_user. safe. Qed.

Lemma safe_insert_log uid ev sev descr : safe (insert_log uid ev sev descr).
Proof. unfold insert_log. safe. Qed.

Lemma safe_insert_device uid duid name : safe (insert_device uid duid name).
Proof. unfold insert_device. safe. Qed.

Lemma safe_update_devices sel g : safe (update_devices sel g).
Proof. unfold update_devices. safe. Qed.

Lemma safe_select_transactions cols uid keep :
  safe (select_transactions cols uid keep).
Proof. unfold select_transactions. safe. Qed.

Lemma safe_insert_transaction mk : safe (insert_transaction mk).
Proof. unfold insert_transaction. safe. Qed.

Local Hint Resolve safe_select_user safe_update_user safe_insert_log
  safe_insert_device safe_update_devices safe_select_transactions
  safe_insert_transaction : safe.

Lemma safe_logSecurityEvent uid ev sev descr :
  safe (logSecurityEvent uid ev sev descr).
Proof. unfold logSecurityEvent. safe. Qed.
Local Hint Resolve safe_logSecurityEvent : safe.

Lemma safe_incrementFailedAuthAttempts uid : safe (incrementFailedAuthAttempts uid).
Proof. unfold incrementFailedAuthAttempts. safe. Qed.
Local Hint Resolve safe_incrementFailedAuthAttempts : safe.

Lemma safe_verifyPin uid pin : safe (verifyPin uid pin).
Proof. unfold verifyPin. safe. Qed.

Lemma safe_updateDeviceLastUsed deviceId : safe (updateDeviceLastUsed deviceId).
Proof. unfold updateDeviceLastUsed. safe. Qed.

Lemma safe_getDailyTransactionTotal uid : safe (getDailyTransactionTotal uid).
Proof. unfold getDailyTransactionTotal. safe. Qed.

Lemma safe_getRecentTransactions uid minutes :
  safe (getRecentTransactions uid minutes).
Proof. unfold getRecentTransactions. safe. Qed.
Local Hint Resolve safe_getDailyTransactionTotal safe_getRecentTransactions : safe.

Lemma safe_calculateRiskScore request : safe (calculateRiskScore request).
Proof. unfold calculateRiskScore. safe. Qed.

End Safe.

#[global] Hint Resolve safe_select_user safe_update_user safe_insert_log
  safe_insert_device safe_update_devices safe_select_transactions
  safe_insert_transaction safe_logSecurityEvent
  safe_incrementFailedAuthAttempts safe_verifyPin safe_updateDeviceLastUsed
  safe_getDailyTransactionTotal safe_getRecentTransactions
  safe_calculateRiskScore : safe.

(** [unsafe Hrun]: the run [Hrun] threw, but its computation never does. *)
Ltac unsafe Hrun :=
  exfalso;
  lazymatch type of Hrun with
  | ?m ?w = (Throw ?e, ?w1) => apply (safe_run m w e w1); [safe | exact Hrun]
  end.

(** * Persistence *)

Section Persist.
Context `{Platform}.

Lemma insert_transaction_run mk w r w1 :
  insert_transaction mk w = (r, w1) ->
  (r = Ok Failed /\ transactions w1 = transactions w)
  \/ (exists i t, r = Ok (Data (mk i t))
      /\ transactions w1 = transactions w ++ [mk i t]).
Proof.
  unfold insert_transaction. run.
  destruct (faults w (length (trace w))).
  - intros [= <- <-]. left. split; reflexivity.
  - match goal with |- context [if ?b then _ else _] => destruct b end.
    + intros [= <- <-]. right. do 2 eexists. split; reflexivity.
    + intros [= <- <-]. left. split; reflexivity.
Qed.

Lemma determineTransactionStatus_cases (riskScore : Z) :
  (80 <= riskScore -> determineTransactionStatus riskScore = declined)
  /\ (50 <= riskScore < 80 -> determineTransactionStatus riskScore = pending)
  /\ (riskScore < 50 -> determineTransactionStatus riskScore = approved).
Proof.
  unfold determineTransactionStatus.
  destruct (Z.leb_spec 80 riskScore), (Z.leb_spec 50 riskScore);
    repeat split; intros; first [reflexivity | lia].
Qed.

Lemma getRecentTransactions_run uid minutes w :
  getRecentTransactions uid minutes w =
  (Ok (if faults w (length (trace w)) then []
       else order_desc created_at
              (filter (fun t => t_user_id t = uid
                                /\ (now w - minutes * 60 * 1000 <=? created_at t) = true)
                      (transactions w))),
   set_trace (fun t => t ++ [(tbl_transactions, SELECT "*")]) w).
Proof.
  unfold getRecentTransactions, select_transactions. run.
  destruct (faults w (length (trace w))); reflexivity.
Qed.

Lemma getDailyTransactionTotal_run uid w :
  getDailyTransactionTotal uid w =
  (Ok (if faults w (length (trace w)) then num_of_Z 0
       else fold_left (fun sum x => (sum + amount x)%num)
              (filter (fun t => t_user_id t = uid
                                /\ bool_decide (t_status t = approved)
                                   && (startOfDay (tz_offset w) (now w) <=? created_at t)
                                   = true)
                      (transactions w)) (num_of_Z 0)),
   set_trace (fun t => t ++ [(tbl_transactions, SELECT "amount")]) w).
Proof.
  unfold getDailyTransactionTotal, select_transactions. run.
  destruct (faults w (length (trace w))); reflexivity.
Qed.

(** The score as a function of what the two reads returned. *)
Lemma calculateRiskScore_run request w :
  exists recent dailyTotal,
    getRecentTransactions (rq_userId request) 5 w
      = (Ok recent, set_trace (fun t => t ++ [(tbl_transactions, SELECT "*")]) w)
    /\ getDailyTransactionTotal (rq_userId request)
         (set_trace (fun t => t ++ [(tbl_transactions, SELECT "*")]) w)
       = (Ok dailyTotal,
          set_trace (fun t => (t ++ [(tbl_transactions, SELECT "*")])
                              ++ [(tbl_transactions, SELECT "amount")]) w)
    /\ calculateRiskScore request w =
       (Ok (Z.min (points (rq_amount request >? num_of_Z 500)%num 30
                   + points (3 <=? length recent)%nat 40
                   + points (dailyTotal + rq_amount request >? num_of_Z 1000)%num 50
                   + points (existsb (isDuplicateOf request (now w)) recent) 70)
                  100),
        set_trace (fun t => (t ++ [(tbl_transactions, SELECT "*")])
                            ++ [(tbl_transactions, SELECT "amount")]) w).
Proof.
  do 2 eexists. split; [apply getRecentTransactions_run | ].
  split; [apply getDailyTransactionTotal_run | ].
  unfold calculateRiskScore. rewrite bind_run, getRecentTransactions_run.
  rewrite bind_run, getDailyTransactionTotal_run. run. cbn [now set_trace].
  unfold points.
  repeat match goal with |- context [if ?b then _ else _] => destruct b end;
    reflexivity.
Qed.

Lemma points_bounds b p : 0 <= p -> 0 <= points b p <= p.
Proof. intros Hp. destruct b; cbn; lia. Qed.

Lemma calculateRiskScore_range request w :
  exists s w1, calculateRiskScore request w = (Ok s, w1) /\ 0 <= s <= 100.
Proof.
  destruct (calculateRiskScore_run request w) as (recent & total & _ & _ & ->).
  do 2 eexists. split; [reflexivity | ].
  repeat match goal with
         | |- context [points ?b ?p] =>
             let Hb := fresh in
             assert (Hb := points_bounds b p ltac:(lia)); generalize dependent (points b p);
             intros
         end.
  lia.
Qed.

End Persist.

(** * The risk engine *)

(** The code's [startOfDay] is the start of the calendar day. *)
Lemma startOfDay_day_start offset t : startOfDay offset t = day_start offset t.
Proof.
  unfold startOfDay, day_start, calendar_day. cbv zeta.
  assert (Hdiv := Z.div_mod (t + offset) 86400000 ltac:(lia)). lia.
Qed.

Lemma decide_bool (b : bool) (P : Prop) `{!Decision P} :
  (b = true <-> P) -> b = bool_decide P.
Proof.
  intros Hb. destruct b; symmetry.
  - apply bool_decide_eq_true_2, Hb. reflexivity.
  - apply bool_decide_eq_false_2. intros HP. apply Hb in HP. discriminate HP.
Qed.

Lemma length_order_desc {A} (key : A -> Z) (l : list A) :
  length (order_desc key l) = length l.
Proof. unfold order_desc. apply Permutation_length, merge_sort_Permutation. Qed.

Lemma existsb_Exists {A} (f : A -> bool) (l : list A) :
  existsb f l = true <-> Exists (fun x => f x = true) l.
Proof.
  rewrite existsb_exists, Exists_exists. split.
  - intros (x & Hin & Hf). exists x. split; [apply list_elem_of_In, Hin | exact Hf].
  - intros (x & Hin & Hf). exists x. split; [apply list_elem_of_In, Hin | exact Hf].
Qed.

(** The user's transactions of the last [minutes] minutes, as the store
    selects them, are the recent part of the user's history. *)
Lemma recent_is_history w uid minutes :
  filter (fun t => t_user_id t = uid
                   /\ (now w - minutes * 60 * 1000 <=? created_at t) = true)
         (transactions w)
  = filter (fun x => now w - minutes * 60 * 1000 <= created_at x) (history w uid).
Proof.
  unfold history. rewrite list_filter_filter. apply list_filter_iff.
  intros x. rewrite Z.leb_le. tauto.
Qed.

Lemma approved_is_history w uid :
  filter (fun t => t_user_id t = uid
                   /\ bool_decide (t_status t = approved)
                      && (startOfDay (tz_offset w) (now w) <=? created_at t) = true)
         (transactions w)
  = approved_today w uid.
Proof.
  unfold approved_today, history. rewrite list_filter_filter. apply list_filter_iff.
  intros x. rewrite andb_true_iff, bool_decide_eq_true, Z.leb_le.
  rewrite startOfDay_day_start. tauto.
Qed.

(** A duplicate is less than a minute old, so the five-minute window of
    the read does not hide it. *)
Lemma duplicate_in_window w request :
  existsb (isDuplicateOf request (now w))
          (order_desc created_at
             (filter (fun x => now w - 5 * 60 * 1000 <= created_at x)
                     (history w (rq_userId request))))
  = bool_decide (rule_duplicate w (rq_userId request) (rq_merchantId request)
                                (rq_amount request)).
Proof.
  apply eq_true_iff_eq. rewrite existsb_Exists, bool_decide_eq_true.
  unfold rule_duplicate, order_desc. rewrite merge_sort_Permutation.
  rewrite !Exists_exists. split.
  - intros (x & Hx & Hdup). apply list_elem_of_filter in Hx as [_ Hx].
    exists x. split; [exact Hx | ].
    unfold isDuplicateOf in Hdup.
    rewrite !andb_true_iff, bool_decide_eq_true, Z.ltb_lt in Hdup.
    tauto.
  - intros (x & Hx & Hm & Ha & Ht). exists x. split.
    + apply list_elem_of_filter. split; [lia | exact Hx].
    + unfold isDuplicateOf.
      rewrite !andb_true_iff, bool_decide_eq_true, Z.ltb_lt. tauto.
Qed.

Lemma score_range (a b c d : bool) :
  0 <= Z.min (points a 30 + points b 40 + points c 50 + points d 70) 100 <= 100.
Proof. destruct a, b, c, d; cbn; lia. Qed.

(** The score on a store that answers: the rules of the table. *)
Lemma calculateRiskScore_reliable request w :
  reliable w ->
  calculateRiskScore request w
  = (Ok (rule_score w request),
     set_trace (fun t => (t ++ [(tbl_transactions, SELECT "*")])
                         ++ [(tbl_transactions, SELECT "amount")]) w).
Proof.
  intros Hrel.
  destruct (calculateRiskScore_run request w) as (recent & total & Hrec & Htot & ->).
  rewrite getRecentTransactions_run, Hrel in Hrec.
  rewrite getDailyTransactionTotal_run in Htot. cbn [faults set_trace] in Htot.
  rewrite Hrel in Htot.
  injection Hrec as <-. injection Htot as <-.
  unfold rule_score. do 3 f_equal.
  rewrite recent_is_history, approved_is_history.
  fold (total_amount (approved_today w (rq_userId request))).
  rewrite duplicate_in_window, length_order_desc.
  repeat f_equal.
  - apply decide_bool. reflexivity.
  - apply decide_bool. unfold rule_burst_velocity. apply Nat.leb_le.
  - apply decide_bool. reflexivity.
Qed.

(** C2, as the code has it: the risk score is min(sum of the points of
    the triggered rules, 100) -- +30 for an amount above 500, +40 for at
    least 3 transactions in the trailing 5 minutes, +50 when the approved
    total of the day plus the amount exceeds 1000, +70 for a transaction
    to the same merchant within 0.01 of the amount in the trailing 60
    seconds -- where the total, the difference and the comparisons are
    those of IEEE 754 doubles: the total is accumulated from 0 in the
    order of the ledger, every addition and subtraction is rounded, and
    "within 0.01" is a rounded difference below 0.01 in absolute value.
    The score is computed on every request (the function never throws)
    and lies in [0,100]; on a store that answers it is the score of the
    table, where all four rules count and none hides another. *)
Theorem calculateRiskScore_is_rule_score request w :
  exists s w1,
    calculateRiskScore request w = (Ok s, w1)
    /\ 0 <= s <= 100
    /\ (reliable w -> s = rule_score w request).
Proof.
  destruct (calculateRiskScore_run request w) as (recent & total & _ & _ & Hrun).
  do 2 eexists. split; [exact Hrun | ]. split; [apply score_range | ].
  intros Hrel. rewrite (calculateRiskScore_reliable request w Hrel) in Hrun.
  injection Hrun as Hs. symmetry. exact Hs.
Qed.

(** * Status decision and persistence *)

Section Decision.
Context `{Platform}.

(** What [processTransaction] returns is the row it stored, and the row
    is the one the request, the score and the decision determine. *)
Lemma processTransaction_Ok request w tx w1 :
  processTransaction request w = (Ok tx, w1) ->
  exists row,
    transactions w1 = transactions w ++ [row]
    /\ tx = toTransaction row
    /\ 0 <= risk_score row <= 100
    /\ t_status row = determineTransactionStatus (risk_score row)
    /\ decline_reason row =
       (if bool_decide (t_status row = declined) then Some "High risk score" else None).
Proof.
  unfold processTransaction. intros Hrun.
  apply bind_Ok_inv in Hrun as (t & w0 & [= <- <-] & Hrun). cbv zeta in Hrun.
  apply bind_Ok_inv in Hrun as (s & w2 & Hscore & Hrun).
  apply bind_Ok_inv in Hrun as ([] & w3 & Hacct & Hrun).
  apply bind_Ok_inv in Hrun as ([] & w4 & Hlimit & Hrun).
  apply bind_Ok_inv in Hrun as (r & w5 & Hins & Hrun).
  destruct (calculateRiskScore_range request w) as (s' & w2' & Hscore' & Hrange).
  rewrite Hscore in Hscore'. injection Hscore' as <- <-.
  kept transactions in Hscore as E2. kept transactions in Hacct as E3.
  kept transactions in Hlimit as E4.
  apply insert_transaction_run in Hins as [[[= ->] _] | (i & t & [= ->] & Hrows)].
  { discriminate Hrun. }
  apply bind_Ok_inv in Hrun as ([] & w6 & Hlog & Hrun).
  apply bind_Ok_inv in Hrun as ([] & w7 & Htouch & [= <- <-]).
  kept transactions in Hlog as E6.
  assert (E7 : transactions w7 = transactions w6).
  { destruct (bool_decide _) in Htouch.
    - kept transactions in Htouch as E. exact E.
    - injection Htouch as <-. reflexivity. }
  eexists. split; [ | split; [reflexivity | ] ].
  - rewrite E7, E6, Hrows. congruence.
  - cbn. auto.
Qed.

(** C3: for every authorized transaction the persisted status follows
    from the risk score alone: a score of 80 or more gives [declined] with
    the decline reason "High risk score", a score from 50 to 79 gives
    [pending], a score below 50 gives [approved]; a decline reason is
    present exactly when the status is [declined]. *)
Theorem persisted_status_follows_risk request w tx w1 :
  processTransaction request w = (Ok tx, w1) ->
  exists row,
    transactions w1 = transactions w ++ [row]
    /\ tx = toTransaction row
    /\ (80 <= risk_score row ->
        t_status row = declined /\ decline_reason row = Some "High risk score")
    /\ (50 <= risk_score row < 80 -> t_status row = pending)
    /\ (risk_score row < 50 -> t_status row = approved)
    /\ (is_Some (decline_reason row) <-> t_status row = declined).
Proof.
  intros Hrun.
  destruct (processTransaction_Ok _ _ _ _ Hrun)
    as (row & Hrows & Htx & _ & Hstatus & Hreason).
  destruct (determineTransactionStatus_cases (risk_score row)) as (Hd & Hp & Ha).
  exists row. repeat split; try assumption.
  - rewrite Hstatus. auto.
  - rewrite Hreason, Hstatus, Hd by assumption. reflexivity.
  - rewrite Hstatus. auto.
  - rewrite Hstatus. auto.
  - rewrite Hreason. destruct (bool_decide_reflect (t_status row = declined)).
    + auto.
    + intros [? [=]].
  - intros Hdecl. rewrite Hreason, Hdecl. cbn. eauto.
Qed.

End Decision.

(** * The payment pipeline: what an error leaves behind *)

Section Pipeline.
Context `{Platform}.

Lemma verifyPin_true uid pin w w1 :
  verifyPin uid pin w = (Ok true, w1) ->
  exists u, users w !! uid = Some u /\ pin_hash u = hashPin pin
            /\ faults w (length (trace w)) = false
            /\ w1 = set_trace (fun t => t ++ [(tbl_users, SELECT "pin_hash")]) w.
Proof.
  unfold verifyPin, select_user. run.
  destruct (faults w (length (trace w))) eqn:Efault.
  - destruct (logSecurityEvent _ _ _ _ _) as [[[]|?] ?]; discriminate.
  - cbn [users set_trace]. destruct (users w !! uid) as [u|].
    + destruct (bool_decide_reflect (pin_hash u = hashPin pin)) as [Heq|Hne].
      * intros [= <-]. exists u. auto.
      * destruct (incrementFailedAuthAttempts _ _) as [[[]|?] ?]; [ | discriminate].
        destruct (logSecurityEvent _ _ _ _ _) as [[[]|?] ?]; discriminate.
    + destruct (logSecurityEvent _ _ _ _ _) as [[[]|?] ?]; discriminate.
Qed.

Lemma processTransaction_Throw request w e w1 :
  processTransaction request w = (Throw e, w1) ->
  transactions w1 = transactions w.
Proof.
  unfold processTransaction. intros Hrun.
  apply bind_Throw_inv in Hrun as [[=] | (t & w0 & [= <- <-] & Hrun)].
  cbv zeta in Hrun.
  apply bind_Throw_inv in Hrun as [Hrun | (s & w2 & Hscore & Hrun)];
    [unsafe Hrun | ].
  kept transactions in Hscore as E2.
  apply bind_Throw_inv in Hrun as [Hrun | ([] & w3 & Hacct & Hrun)].
  { kept transactions in Hrun as E3. congruence. }
  kept transactions in Hacct as E3.
  apply bind_Throw_inv in Hrun as [Hrun | ([] & w4 & Hlimit & Hrun)].
  { kept transactions in Hrun as E4. congruence. }
  kept transactions in Hlimit as E4.
  apply bind_Throw_inv in Hrun as [Hrun | (r & w5 & Hins & Hrun)];
    [unsafe Hrun | ].
  apply insert_transaction_run in Hins as [[[= ->] E5] | (i & t & [= ->] & _)].
  - injection Hrun as <- <-. congruence.
  - apply bind_Throw_inv in Hrun as [Hrun | ([] & w6 & _ & Hrun)];
      [unsafe Hrun | ].
    apply bind_Throw_inv in Hrun as [Hrun | ([] & w7 & _ & [=])].
    destruct (bool_decide _) in Hrun; [unsafe Hrun | discriminate Hrun].
Qed.

Lemma handlePayment_Throw user pin amt name devices tag w e w1 :
  handlePayment user pin amt name devices tag w = (Throw e, w1) ->
  transactions w1 = transactions w.
Proof.
  unfold handlePayment. intros Hrun.
  apply bind_Throw_inv in Hrun as [Hrun | (ok & w2 & Hpin & Hrun)];
    [unsafe Hrun | ].
  kept transactions in Hpin as E2.
  destruct ok; cbn [negb] in Hrun.
  2: { injection Hrun as <- <-. exact E2. }
  apply bind_Throw_inv in Hrun as [Hrun | (duid & w3 & Htag & Hrun)].
  { kept transactions in Hrun as E3. congruence. }
  kept transactions in Htag as E3.
  apply bind_Throw_inv in Hrun as [Hrun | (dev & w4 & Hdev & Hrun)].
  { destruct (List.find _ _); [discriminate Hrun | ].
    kept transactions in Hrun as E4. congruence. }
  assert (E4 : transactions w4 = transactions w3).
  { destruct (List.find _ _).
    - injection Hdev as <- <-. reflexivity.
    - kept transactions in Hdev as E. exact E. }
  apply bind_Throw_inv in Hrun as [[=] | (t & w5 & [= <- <-] & Hrun)].
  apply processTransaction_Throw in Hrun. congruence.
Qed.

Lemma handlePayment_Ok user pin amt name devices tag w tx w1 :
  handlePayment user pin amt name devices tag w = (Ok tx, w1) ->
  exists row, transactions w1 = transactions w ++ [row] /\ tx = toTransaction row.
Proof.
  unfold handlePayment. intros Hrun.
  apply bind_Ok_inv in Hrun as (ok & w2 & Hpin & Hrun).
  kept transactions in Hpin as E2.
  destruct ok; cbn [negb] in Hrun; [ | discriminate Hrun].
  apply bind_Ok_inv in Hrun as (duid & w3 & Htag & Hrun).
  kept transactions in Htag as E3.
  apply bind_Ok_inv in Hrun as (dev & w4 & Hdev & Hrun).
  assert (E4 : transactions w4 = transactions w3).
  { destruct (List.find _ _).
    - injection Hdev as <- <-. reflexivity.
    - kept transactions in Hdev as E. exact E. }
  apply bind_Ok_inv in Hrun as (t & w5 & [= <- <-] & Hrun).
  apply processTransaction_Ok in Hrun as (row & Hrows & Htx & _).
  exists row. split; [congruence | exact Htx].
Qed.

Lemma checkAccountStatus_Ok uid w w1 :
  checkAccountStatus uid w = (Ok tt, w1) ->
  exists u, users w !! uid = Some u /\ status u = active.
Proof.
  unfold checkAccountStatus, select_user. run.
  destruct (faults w (length (trace w))); [discriminate | ].
  cbn [users set_trace]. destruct (users w !! uid) as [u|]; [ | discriminate].
  destruct (bool_decide_reflect (status u = active)); [ | discriminate].
  intros _. exists u. auto.
Qed.

Lemma approved_today_same w w1 uid :
  transactions w1 = transactions w -> now w1 = now w ->
  tz_offset w1 = tz_offset w ->
  approved_today w1 uid = approved_today w uid.
Proof. unfold approved_today, history. intros -> -> ->. reflexivity. Qed.

Lemma checkDailyLimit_Ok uid amt w w1 :
  checkDailyLimit uid amt w = (Ok tt, w1) ->
  faults w (length (trace w)) = false ->
  faults w (S (length (trace w))) = false ->
  ~ limit_exceeded w uid amt.
Proof.
  unfold checkDailyLimit, select_user. run. intros Hrun F0 F1. revert Hrun.
  rewrite F0, getDailyTransactionTotal_run.
  cbn [faults trace set_trace users now tz_offset transactions].
  rewrite length_app, Nat.add_1_r, F1, approved_is_history.
  destruct (_ >? _)%num eqn:Elt; [discriminate | ]. intros _ Hex.
  unfold limit_exceeded in Hex.
  apply not_true_iff_false in Elt. apply Elt. exact Hex.
Qed.

Lemma registerNFCDevice_Ok uid duid name w dev w1 :
  registerNFCDevice uid duid name w = (Ok dev, w1) ->
  forall d, d ∈ nfc_devices w -> device_uid d <> duid.
Proof.
  unfold registerNFCDevice, insert_device. run.
  destruct (faults w (length (trace w))); [discriminate | ].
  cbn [users nfc_devices set_trace].
  destruct (bool_decide (is_Some (users w !! uid))); [ | discriminate].
  destruct (existsb _ (nfc_devices w)) eqn:Etaken; [discriminate | ].
  intros _ d Hd Huid.
  assert (Hex : existsb (fun d => bool_decide (device_uid d = duid)) (nfc_devices w) = true).
  { apply existsb_exists. exists d. split; [apply list_elem_of_In, Hd | ].
    apply bool_decide_eq_true, Huid. }
  congruence.
Qed.

(** A payment that goes through has passed every gate. *)
Lemma handlePayment_Ok_gates user pin amt name devices tag w tx w1 :
  handlePayment user pin amt name devices tag w = (Ok tx, w1) ->
  reliable w ->
  ~ pin_rejected w (au_id user) pin
  /\ ~ account_inactive w (au_id user)
  /\ ~ tag_refused w devices tag
  /\ ~ limit_exceeded w (au_id user) amt.
Proof.
  unfold handlePayment. intros Hrun Hrel.
  apply bind_Ok_inv in Hrun as (ok & w2 & Hpin & Hrun).
  destruct ok; cbn [negb] in Hrun; [ | discriminate Hrun].
  apply verifyPin_true in Hpin as (u & Hu & Hhash & _ & ->).
  apply bind_Ok_inv in Hrun as (duid & w3 & [= -> <-] & Hrun).
  apply bind_Ok_inv in Hrun as (dev & w4 & Hdev & Hrun).
  apply bind_Ok_inv in Hrun as (t & w5 & [= <- <-] & Hrun).
  assert (Hdevice : ~ tag_refused w devices (Ok duid)).
  { intros [Hnew (d & Hd & Huid)].
    destruct (List.find _ devices) as [d'|] eqn:Efind.
    - apply find_some in Efind as [Hin Heq].
      apply bool_decide_eq_true in Heq. apply list_elem_of_In in Hin.
      exact (Hnew d' Hin Heq).
    - exact (registerNFCDevice_Ok _ _ _ _ _ _ Hdev d Hd Huid). }
  assert (Eu : users w4 = users w /\ transactions w4 = transactions w
               /\ now w4 = now w /\ tz_offset w4 = tz_offset w
               /\ faults w4 = faults w).
  { destruct (List.find _ devices).
    - injection Hdev as <- <-. repeat split.
    - kept users in Hdev as E1. kept transactions in Hdev as E2.
      kept now in Hdev as E3. kept tz_offset in Hdev as E4.
      kept faults in Hdev as E5. auto. }
  destruct Eu as (Eu & Et & En & Ez & Ef).
  unfold processTransaction in Hrun.
  apply bind_Ok_inv in Hrun as (t & w0 & [= <- <-] & Hrun). cbv zeta in Hrun.
  apply bind_Ok_inv in Hrun as (s & w6 & Hscore & Hrun).
  apply bind_Ok_inv in Hrun as ([] & w7 & Hacct & Hrun).
  apply bind_Ok_inv in Hrun as ([] & w8 & Hlimit & _).
  cbn [rq_userId rq_amount] in *.
  kept users in Hscore as Eu6. kept transactions in Hscore as Et6.
  kept now in Hscore as En6. kept tz_offset in Hscore as Ez6.
  kept faults in Hscore as Ef6.
  kept users in Hacct as Eu7. kept transactions in Hacct as Et7.
  kept now in Hacct as En7. kept tz_offset in Hacct as Ez7.
  kept faults in Hacct as Ef7.
  apply checkAccountStatus_Ok in Hacct as (u' & Hu' & Hactive).
  apply checkDailyLimit_Ok in Hlimit;
    [ | rewrite Ef7, Ef6, Ef; apply Hrel | rewrite Ef7, Ef6, Ef; apply Hrel ].
  repeat split.
  - intros Hrej. exact (Hrej u Hu Hhash).
  - intros Hin. rewrite Eu6, Eu in Hu'. exact (Hin u' Hu' Hactive).
  - exact Hdevice.
  - intros Hex. apply Hlimit. unfold limit_exceeded in *.
    rewrite Eu7, Eu6, Eu.
    rewrite (approved_today_same w w7) by congruence. exact Hex.
Qed.

(** X26: the gates the code has.  For every input and every pattern of
    store failures, a payment that ends in an error persists no
    transaction, and one that returns normally has persisted exactly the
    transaction it returns.  On a store that answers, a rejected PIN, an
    account that is not active, a tag that cannot be read or registered,
    and an exceeded limit each end the payment in an error.  (The active
    flag of a device the component knows is not among the gates.) *)
Theorem failed_gate_persists_nothing user pin amt name devices tag w :
  let r := (handlePayment user pin amt name devices tag w).1 in
  let w1 := (handlePayment user pin amt name devices tag w).2 in
  (forall e, r = Throw e -> transactions w1 = transactions w)
  /\ (forall tx, r = Ok tx ->
      exists row, transactions w1 = transactions w ++ [row] /\ tx = toTransaction row)
  /\ (reliable w ->
      pin_rejected w (au_id user) pin \/ account_inactive w (au_id user)
      \/ tag_refused w devices tag \/ limit_exceeded w (au_id user) amt ->
      exists e, r = Throw e).
Proof.
  cbv zeta.
  destruct (handlePayment user pin amt name devices tag w) as [r w1] eqn:Hrun.
  cbn [fst snd]. split; [ | split].
  - intros e ->. exact (handlePayment_Throw _ _ _ _ _ _ _ _ _ Hrun).
  - intros tx ->. exact (handlePayment_Ok _ _ _ _ _ _ _ _ _ Hrun).
  - intros Hrel Hgate. destruct r as [tx|e]; [ | eauto].
    destruct (handlePayment_Ok_gates _ _ _ _ _ _ _ _ _ Hrun Hrel)
      as (Hp & Ha & Hd & Hl).
    tauto.
Qed.

End Pipeline.

(** * PIN verification and the lock-out *)

Section Auth.
Context `{Platform}.

Lemma logSecurityEvent_known uid ev sev descr w :
  faults w (length (trace w)) = false ->
  is_Some (users w !! uid) ->
  logSecurityEvent uid ev sev descr w =
  (Ok tt, set_security_logs (fun l => l ++ [mkLog uid ev sev descr (now w)])
            (set_trace (fun t => t ++ [(tbl_security_logs, INSERT)]) w)).
Proof.
  intros Hfault Hknown. unfold logSecurityEvent, insert_log. run.
  rewrite Hfault. cbn [users set_trace].
  rewrite (bool_decide_eq_true_2 _ Hknown). reflexivity.
Qed.

Lemma incrementFailedAuthAttempts_run uid u w :
  reliable w -> users w !! uid = Some u ->
  incrementFailedAuthAttempts uid w = (Ok tt, after_increment uid u w).
Proof.
  intros Hrel Hu. unfold incrementFailedAuthAttempts, select_user, update_user.
  reliably Hrel. rewrite Hu. unfold after_increment, failed_attempt. world_simpl.
  destruct (5 <=? failed_auth_attempts u + 1); [ | reflexivity].
  rewrite logSecurityEvent_known; [reflexivity | apply Hrel | ].
  cbn [users]. rewrite lookup_insert_eq. eauto.
Qed.

Lemma verifyPin_wrong uid pin u w :
  reliable w -> users w !! uid = Some u -> pin_hash u <> hashPin pin ->
  verifyPin uid pin w = (Ok false, after_invalid_pin uid u w).
Proof.
  intros Hrel Hu Hne. unfold verifyPin, select_user. reliably Hrel. rewrite Hu.
  rewrite (bool_decide_eq_false_2 _ Hne).
  rewrite (incrementFailedAuthAttempts_run uid u) by assumption.
  unfold after_invalid_pin, after_increment.
  destruct (5 <=? failed_auth_attempts u + 1);
    (rewrite logSecurityEvent_known;
     [ reflexivity | apply Hrel | world_simpl; rewrite lookup_insert_eq; eauto ]).
Qed.

Lemma after_increment_users uid u w :
  users (after_increment uid u w) = <[uid := failed_attempt (now w) u]> (users w).
Proof. unfold after_increment. destruct (5 <=? _); reflexivity. Qed.

Lemma after_invalid_pin_users uid u w :
  users (after_invalid_pin uid u w) = <[uid := failed_attempt (now w) u]> (users w).
Proof.
  unfold after_invalid_pin. cbn [users set_security_logs set_trace].
  rewrite after_increment_users. reflexivity.
Qed.

Lemma after_invalid_pin_logs uid u w :
  security_logs (after_invalid_pin uid u w) =
  security_logs w
  ++ (if 5 <=? failed_auth_attempts u + 1
      then [account_locked_event uid (failed_auth_attempts u + 1) (now w)] else [])
  ++ [invalid_pin_event uid (now w)].
Proof.
  unfold after_invalid_pin, after_increment.
  destruct (5 <=? _); cbn; rewrite <- ?app_assoc, ?app_nil_r; reflexivity.
Qed.

Lemma after_invalid_pin_env uid u w :
  faults (after_invalid_pin uid u w) = faults w
  /\ now (after_invalid_pin uid u w) = now w
  /\ transactions (after_invalid_pin uid u w) = transactions w
  /\ nfc_devices (after_invalid_pin uid u w) = nfc_devices w.
Proof.
  unfold after_invalid_pin, after_increment. destruct (5 <=? _); repeat split.
Qed.

Lemma failed_attempt_status t u :
  (failed_auth_attempts (failed_attempt t u) < 5 -> status (failed_attempt t u) = active)
  /\ (5 <= failed_auth_attempts (failed_attempt t u) ->
      status (failed_attempt t u) = locked).
Proof.
  unfold failed_attempt. cbn.
  destruct (Z.leb_spec 5 (failed_auth_attempts u + 1)); split; intros;
    first [reflexivity | lia].
Qed.

Lemma signIn_failed uid u msg w :
  reliable w -> users w !! uid = Some u ->
  signIn (mkAuthResponse (Some msg) (Some uid)) w
  = (Throw (JsError msg), after_increment uid u w).
Proof.
  intros Hrel Hu. unfold signIn. cbn [auth_error auth_user].
  rewrite bind_run, (incrementFailedAuthAttempts_run uid u) by assumption.
  reflexivity.
Qed.

(** A successful sign-in resets the counter; [verifyPin] has no such step. *)
Lemma signIn_resets uid u w :
  reliable w -> users w !! uid = Some u ->
  exists u1, users (signIn (mkAuthResponse None (Some uid)) w).2 !! uid = Some u1
             /\ failed_auth_attempts u1 = 0 /\ status u1 = status u.
Proof.
  intros Hrel Hu. unfold signIn, resetFailedAuthAttempts, update_user.
  cbn [auth_error auth_user]. reliably Hrel. rewrite Hu.
  rewrite logSecurityEvent_known;
    [ | apply Hrel | world_simpl; rewrite lookup_insert_eq; eauto ].
  world_simpl. rewrite lookup_insert_eq. eexists. repeat split.
Qed.

(** C10: a failed attempt that leaves the counter below 5 writes the
    status [active] whatever it was before -- a suspended account is
    active again after one wrong PIN or one failed sign-in -- and only a
    counter that has reached 5 writes [locked]. *)
Theorem failed_attempt_rewrites_status uid pin msg u w :
  reliable w -> users w !! uid = Some u ->
  status_rewritten u uid (incrementFailedAuthAttempts uid w).2
  /\ (pin_hash u <> hashPin pin -> status_rewritten u uid (verifyPin uid pin w).2)
  /\ status_rewritten u uid (signIn (mkAuthResponse (Some msg) (Some uid)) w).2.
Proof.
  intros Hrel Hu.
  assert (Hrow : forall w1,
    users w1 = <[uid := failed_attempt (now w) u]> (users w) ->
    status_rewritten u uid w1).
  { intros w1 Hw1. exists (failed_attempt (now w) u).
    rewrite Hw1, lookup_insert_eq. split; [reflexivity | ].
    split; [reflexivity | apply failed_attempt_status]. }
  split; [ | split].
  - rewrite (incrementFailedAuthAttempts_run uid u) by assumption.
    apply Hrow, after_increment_users.
  - intros Hne. rewrite (verifyPin_wrong uid pin u) by assumption.
    apply Hrow, after_invalid_pin_users.
  - rewrite (signIn_failed uid u) by assumption.
    apply Hrow, after_increment_users.
Qed.

Lemma verifyPin_right uid pin u w :
  users w !! uid = Some u -> pin_hash u = hashPin pin ->
  faults w (length (trace w)) = false ->
  verifyPin uid pin w
  = (Ok true, set_trace (fun t => t ++ [(tbl_users, SELECT "pin_hash")]) w).
Proof.
  intros Hu Hhash Hfault. unfold verifyPin, select_user. run.
  rewrite Hfault. world_simpl. rewrite Hu, (bool_decide_eq_true_2 _ Hhash).
  reflexivity.
Qed.

(** C6: a successful PIN verification only reads the digest: the row of
    the user, and with it the failed-authentication counter, stays as it
    was.  The counter is not reset. *)
Theorem verifyPin_success_keeps_counter uid pin u w :
  users w !! uid = Some u -> pin_hash u = hashPin pin ->
  faults w (length (trace w)) = false ->
  (verifyPin uid pin w).1 = Ok true
  /\ users (verifyPin uid pin w).2 !! uid = Some u.
Proof.
  intros Hu Hhash Hfault. rewrite (verifyPin_right uid pin u) by assumption.
  split; [reflexivity | exact Hu].
Qed.

Lemma logSecurityEvent_run uid ev sev descr w :
  exists w1, logSecurityEvent uid ev sev descr w = (Ok tt, w1)
    /\ users w1 = users w
    /\ (security_logs w1 = security_logs w
        \/ security_logs w1 = security_logs w ++ [mkLog uid ev sev descr (now w)]).
Proof.
  unfold logSecurityEvent, insert_log. run.
  destruct (faults w (length (trace w))).
  - eexists. split; [reflexivity | ]. split; [reflexivity | left; reflexivity].
  - world_simpl. destruct (bool_decide _).
    + eexists. split; [reflexivity | ]. split; [reflexivity | right; reflexivity].
    + eexists. split; [reflexivity | ]. split; [reflexivity | left; reflexivity].
Qed.

Lemma logged_app w w1 l :
  security_logs w1 = security_logs w ++ l -> logged w w1 = l.
Proof. unfold logged. intros ->. apply drop_app_length. Qed.

Lemma logged_same w w1 :
  security_logs w1 = security_logs w -> logged w w1 = [].
Proof. intros E. apply logged_app. rewrite app_nil_r. exact E. Qed.

Lemma verifyPin_unreadable uid pin w :
  users w !! uid = None \/ faults w (length (trace w)) = true ->
  verifyPin uid pin w
  = (logSecurityEvent uid "pin_verification_failed" medium "PIN verification failed"
     ≫= fun _ => mret false)
      (set_trace (fun t => t ++ [(tbl_users, SELECT "pin_hash")]) w).
Proof.
  intros Hmissing. unfold verifyPin, select_user. run.
  destruct (faults w (length (trace w))); [reflexivity | ].
  destruct Hmissing as [Hnone | [=]].
  cbn [users set_trace]. rewrite Hnone. reflexivity.
Qed.

(** C5, as the code has it: when the digest of the supplied PIN differs
    from the stored one, the verification fails, the failed-authentication
    counter goes up by one and one [invalid_pin] event is appended, of
    severity [high]; when the row of the user is missing or cannot be
    read, the verification fails, no counter changes, and the only event
    it may append is [pin_verification_failed], of severity [medium]. *)
Theorem verifyPin_failure uid pin w :
  (reliable w -> forall u, users w !! uid = Some u -> pin_hash u <> hashPin pin ->
   exists w1 u1 e,
     verifyPin uid pin w = (Ok false, w1)
     /\ users w1 !! uid = Some u1
     /\ failed_auth_attempts u1 = failed_auth_attempts u + 1
     /\ events_of "invalid_pin" (logged w w1) = [e]
     /\ severity e = high)
  /\ (users w !! uid = None \/ faults w (length (trace w)) = true ->
      exists w1,
        verifyPin uid pin w = (Ok false, w1)
        /\ users w1 = users w
        /\ Forall (fun e => event_type e = "pin_verification_failed"
                            /\ severity e = medium) (logged w w1)).
Proof.
  split.
  - intros Hrel u Hu Hne.
    exists (after_invalid_pin uid u w), (failed_attempt (now w) u),
           (invalid_pin_event uid (now w)).
    split; [apply verifyPin_wrong; assumption | ].
    split; [rewrite after_invalid_pin_users; apply lookup_insert_eq | ].
    split; [reflexivity | ]. split; [ | reflexivity].
    rewrite (logged_app _ _ _ (after_invalid_pin_logs uid u w)).
    destruct (5 <=? _); reflexivity.
  - intros Hmissing.
    destruct (logSecurityEvent_run uid "pin_verification_failed" medium
                "PIN verification failed"
                (set_trace (fun t => t ++ [(tbl_users, SELECT "pin_hash")]) w))
      as (w1 & Hlog & Husers & Hlogs).
    exists w1. split; [ | split; [exact Husers | ] ].
    + rewrite verifyPin_unreadable, bind_run, Hlog by exact Hmissing.
      reflexivity.
    + destruct Hlogs as [Hsame | Hone].
      * rewrite (logged_same w w1) by exact Hsame. constructor.
      * rewrite (logged_app w w1 _ Hone). repeat constructor.
Qed.

End Auth.

(** * The outcome of a payment on a store that answers *)

Lemma existsb_device_uid duid (l : list DeviceRow) :
  existsb (fun d => bool_decide (device_uid d = duid)) l = false
  <-> forall d, d ∈ l -> device_uid d <> duid.
Proof.
  split.
  - intros Hnone d Hd Huid.
    assert (Hex : existsb (fun d => bool_decide (device_uid d = duid)) l = true).
    { apply existsb_exists. exists d. split; [apply list_elem_of_In, Hd | ].
      apply bool_decide_eq_true, Huid. }
    congruence.
  - intros Hfresh. destruct (existsb _ l) eqn:Hex; [ | reflexivity].
    apply existsb_exists in Hex as (d & Hd & Huid).
    apply bool_decide_eq_true in Huid. apply list_elem_of_In in Hd.
    destruct (Hfresh d Hd Huid).
Qed.

Lemma registerNFCDevice_fresh uid duid name w :
  reliable w -> is_Some (users w !! uid) ->
  (forall d, d ∈ nfc_devices w -> device_uid d <> duid) ->
  registerNFCDevice uid duid name w
  = (Ok (mkNFCDevice (next_id w) uid duid name true None),
     set_security_logs
       (fun l => l ++ [mkLog uid "nfc_device_registered" low
                         ("NFC device registered: " +:+ name) (now w)])
       (set_trace (fun t => t ++ [(tbl_security_logs, INSERT)])
          (set_nfc_devices
             (fun l => l ++ [mkDevice (next_id w) uid duid name true None (now w)])
             (set_next_id N.succ
                (set_trace (fun t => t ++ [(tbl_nfc_devices, INSERT)]) w))))).
Proof.
  intros Hrel Hknown Hfresh. unfold registerNFCDevice, insert_device. run.
  rewrite Hrel. cbn [users nfc_devices set_trace].
  rewrite (bool_decide_eq_true_2 _ Hknown).
  rewrite (proj2 (existsb_device_uid duid (nfc_devices w)) Hfresh).
  cbn [andb negb]. run. cbn [next_id now set_trace set_next_id].
  rewrite logSecurityEvent_known; [reflexivity | apply Hrel | exact Hknown].
Qed.

Lemma registerNFCDevice_taken uid duid name w :
  (exists d, d ∈ nfc_devices w /\ device_uid d = duid) ->
  registerNFCDevice uid duid name w
  = (Throw (StoreError (tbl_nfc_devices, INSERT)),
     set_trace (fun t => t ++ [(tbl_nfc_devices, INSERT)]) w).
Proof.
  intros (d & Hd & Huid). unfold registerNFCDevice, insert_device. run.
  destruct (faults w (length (trace w))); [reflexivity | ].
  cbn [users nfc_devices set_trace].
  destruct (existsb _ (nfc_devices w)) eqn:Etaken.
  - rewrite andb_false_r. reflexivity.
  - destruct (proj1 (existsb_device_uid duid _) Etaken d Hd Huid).
Qed.


Lemma checkAccountStatus_reliable uid w :
  reliable w ->
  checkAccountStatus uid w
  = (match users w !! uid with
     | Some u => if bool_decide (status u = active) then Ok tt
                 else Throw (JsError "Account is not active")
     | None => Throw (JsError "Account is not active")
     end,
     set_trace (fun t => t ++ [(tbl_users, SELECT "status")]) w).
Proof.
  intros Hrel. unfold checkAccountStatus, select_user. run. rewrite Hrel.
  cbn [users set_trace]. destruct (users w !! uid) as [u|]; [ | reflexivity].
  destruct (bool_decide _); reflexivity.
Qed.

(** A computation that never throws does not decide the result. *)
Lemma safe_then {A B} (m : M A) (k : M B) w :
  safe m -> exists w1, (m ≫= fun _ => k) w = k w1.
Proof.
  intros Hm. rewrite bind_run. destruct (Hm w) as [a Ha].
  destruct (m w) as [[a'|e] w1]; [ | discriminate Ha]. eauto.
Qed.

Section Outcomes.
Context `{Platform}.

Lemma checkDailyLimit_reliable uid amt w :
  reliable w ->
  checkDailyLimit uid amt w
  = (if (total_amount (approved_today w uid) + amt
         >? limitOrDefault (Data (users w !! uid)))%num
     then Throw (JsError "Daily transaction limit exceeded")
     else Ok tt,
     set_trace (fun t => (t ++ [(tbl_users, SELECT "daily_limit")])
                         ++ [(tbl_transactions, SELECT "amount")]) w).
Proof.
  intros Hrel. unfold checkDailyLimit, select_user. run. rewrite Hrel.
  rewrite getDailyTransactionTotal_run.
  cbn [faults trace set_trace users now tz_offset transactions].
  rewrite Hrel, approved_is_history.
  fold (total_amount (approved_today w uid)).
  destruct (_ >? _)%num; reflexivity.
Qed.

(** The rules and the limit read the ledger and the clock only. *)
Lemma rule_score_same w w1 request :
  transactions w1 = transactions w -> now w1 = now w ->
  tz_offset w1 = tz_offset w ->
  rule_score w1 request = rule_score w request.
Proof. destruct w, w1. cbn. intros -> -> ->. reflexivity. Qed.

Lemma stored_row_same w w1 request :
  transactions w1 = transactions w -> now w1 = now w ->
  tz_offset w1 = tz_offset w -> next_id w1 = next_id w ->
  stored_row w1 request = stored_row w request.
Proof. destruct w, w1. cbn. intros -> -> -> ->. reflexivity. Qed.

Lemma outcome_same w w1 request :
  users w1 = users w -> nfc_devices w1 = nfc_devices w ->
  transactions w1 = transactions w -> now w1 = now w ->
  tz_offset w1 = tz_offset w -> next_id w1 = next_id w ->
  outcome w1 request = outcome w request.
Proof. destruct w, w1. cbn. intros -> -> -> -> -> ->. reflexivity. Qed.

(** [processTransaction] on a store that answers: the account must be
    active, the limit must hold, the table must take the row; the row is
    the one the rules decide. *)
Lemma processTransaction_outcome request w :
  reliable w -> (processTransaction request w).1 = outcome w request.
Proof.
  intros Hrel. unfold processTransaction, outcome.
  rewrite bind_run. change (Date_now w) with (Ok (now w), w). cbv beta iota zeta.
  rewrite bind_run, (calculateRiskScore_reliable request w Hrel).
  set (w1 := set_trace _ w).
  assert (Hrel1 : reliable w1) by exact Hrel.
  rewrite bind_run, (checkAccountStatus_reliable _ w1 Hrel1).
  change (users w1) with (users w).
  destruct (users w !! rq_userId request) as [u|] eqn:Hu; [ | reflexivity].
  destruct (bool_decide (status u = active)); [ | reflexivity].
  set (w2 := set_trace _ w1).
  assert (Hrel2 : reliable w2) by exact Hrel.
  rewrite bind_run, (checkDailyLimit_reliable _ _ w2 Hrel2).
  change (users w2) with (users w). rewrite Hu.
  change (approved_today w2 (rq_userId request))
    with (approved_today w (rq_userId request)).
  destruct (_ >? _)%num; [reflexivity | ].
  set (w3 := set_trace _ w2).
  rewrite bind_run. unfold insert_transaction. run.
  replace (faults w3 (length (trace w3))) with false by (symmetry; apply Hrel).
  cbn [amount risk_score t_user_id t_device_id].
  change (users (set_trace _ w3)) with (users w).
  change (nfc_devices (set_trace _ w3)) with (nfc_devices w).
  rewrite Hu, (bool_decide_eq_true_2 (is_Some (Some u))) by eauto.
  rewrite (bool_decide_eq_true_2 (0 <= rule_score w request <= 100))
    by apply score_range.
  rewrite !andb_true_r. unfold insertable.
  destruct (isFinite _ && _ && _); [ | reflexivity].
  match goal with
  | |- context [logSecurityEvent ?a ?b ?c ?d ?w0] =>
      destruct (safe_logSecurityEvent a b c d w0) as [[] Hlog];
      destruct (logSecurityEvent a b c d w0) as [[[]|e] w4]; [ | discriminate Hlog]
  end.
  destruct (bool_decide (_ = approved)).
  - match goal with
    | |- context [updateDeviceLastUsed ?a ?w0] =>
        destruct (safe_updateDeviceLastUsed a w0) as [[] Hup];
        destruct (updateDeviceLastUsed a w0) as [[[]|e] w5]; [ | discriminate Hup]
    end.
    reflexivity.
  - reflexivity.
Qed.

(** [handlePayment] on a store that answers. *)
Lemma handlePayment_outcome user pin amt name devices tag w :
  reliable w ->
  (handlePayment user pin amt name devices tag w).1
  = payment_outcome w user pin amt name devices tag.
Proof.
  intros Hrel. unfold handlePayment, payment_outcome. cbv zeta. rewrite bind_run.
  destruct (users w !! au_id user) as [u|] eqn:Hu.
  2: { rewrite verifyPin_unreadable by auto.
       destruct (safe_then
                   (logSecurityEvent (au_id user) "pin_verification_failed" medium
                      "PIN verification failed")
                   (mret false)
                   (set_trace (fun t => t ++ [(tbl_users, SELECT "pin_hash")]) w)
                   (safe_logSecurityEvent _ _ _ _)) as [w1 ->].
       reflexivity. }
  destruct (bool_decide_reflect (pin_hash u = hashPin pin)) as [Hpin|Hpin].
  2: { rewrite (verifyPin_wrong _ _ u) by assumption. reflexivity. }
  rewrite (verifyPin_right _ _ u) by (auto; apply Hrel).
  cbn [negb]. set (w1 := set_trace _ w).
  assert (Hrel1 : reliable w1) by exact Hrel.
  rewrite bind_run. unfold readNFCTag.
  destruct tag as [duid|e]; [ | reflexivity].
  rewrite bind_run.
  destruct (List.find _ devices) as [d|].
  - cbn [mret M_ret]. rewrite bind_run.
    change (Date_now w1) with (Ok (now w), w1). cbv beta iota.
    rewrite (processTransaction_outcome _ w1 Hrel1).
    apply outcome_same; reflexivity.
  - destruct (existsb _ (nfc_devices w)) eqn:Etaken.
    + rewrite registerNFCDevice_taken; [reflexivity | ].
      apply existsb_exists in Etaken as (d & Hd & Huid).
      exists d. split; [apply list_elem_of_In, Hd | ].
      apply bool_decide_eq_true in Huid. exact Huid.
    + rewrite registerNFCDevice_fresh;
        [ | exact Hrel1 | change (users w1) with (users w); rewrite Hu; eauto
          | apply existsb_device_uid, Etaken ].
      set (w2 := set_security_logs _ _).
      assert (Hrel2 : reliable w2) by exact Hrel.
      rewrite bind_run. change (Date_now w2) with (Ok (now w), w2).
      cbv beta iota. cbn [nd_id].
      rewrite (processTransaction_outcome _ w2 Hrel2).
      apply outcome_same; reflexivity.
Qed.

(** A payment on an account that is not active. *)
Lemma handlePayment_inactive user pin amt name devices tag u w :
  reliable w -> users w !! au_id user = Some u -> status u <> active ->
  (handlePayment user pin amt name devices tag w).1
  = if bool_decide (pin_hash u = hashPin pin) then
      match tag with
      | Throw e => Throw e
      | Ok duid =>
          if known_device devices tag
             || negb (existsb (fun d => bool_decide (device_uid d = duid))
                              (nfc_devices w))
          then Throw (JsError "Account is not active")
          else Throw (StoreError (tbl_nfc_devices, INSERT))
      end
    else Throw (JsError "Invalid PIN").
Proof.
  intros Hrel Hu Hst. rewrite handlePayment_outcome by exact Hrel.
  unfold payment_outcome. cbv zeta. rewrite Hu.
  destruct (bool_decide _); [ | reflexivity].
  destruct tag as [duid|e]; [ | reflexivity]. cbn [known_device].
  destruct (List.find _ devices) as [d|]; cbn [orb].
  - unfold outcome. cbn [rq_userId payment_request]. rewrite Hu.
    rewrite (bool_decide_eq_false_2 _ Hst). reflexivity.
  - destruct (existsb _ (nfc_devices w)); cbn [negb]; [reflexivity | ].
    unfold outcome, with_device. cbn [rq_userId payment_request users
      set_nfc_devices set_next_id].
    rewrite Hu, (bool_decide_eq_false_2 _ Hst). reflexivity.
Qed.

(** Whether the device step fails, as a boolean. *)
Lemma tag_refused_known devices duid w :
  tag_refused w devices (Ok duid)
  <-> known_device devices (Ok duid)
      || negb (existsb (fun d => bool_decide (device_uid d = duid)) (nfc_devices w))
      = false.
Proof.
  unfold tag_refused, known_device. rewrite orb_false_iff, negb_false_iff. split.
  - intros [Hnew (d & Hd & Huid)]. split.
    + destruct (List.find _ devices) as [d'|] eqn:Efind; [ | reflexivity].
      apply find_some in Efind as [Hin Heq].
      apply bool_decide_eq_true in Heq. apply list_elem_of_In in Hin.
      destruct (Hnew d' Hin Heq).
    + apply existsb_exists. exists d. split; [apply list_elem_of_In, Hd | ].
      apply bool_decide_eq_true, Huid.
  - intros [Hfind Htaken]. split.
    + intros d Hd Huid. destruct (List.find _ devices) eqn:Efind; [discriminate | ].
      apply list_elem_of_In in Hd.
      assert (Hf := find_none _ _ Efind d Hd). cbv beta in Hf.
      apply bool_decide_eq_false in Hf. exact (Hf Huid).
    + apply existsb_exists in Htaken as (d & Hd & Huid).
      exists d. split; [apply list_elem_of_In, Hd | ].
      apply bool_decide_eq_true in Huid. exact Huid.
Qed.

(** X27: when every gate passes, the payment returns normally, whatever
    the rules decide -- a declined payment too.  On a store that answers,
    with the right PIN, an active account, a tag of a device the
    component knows and the registry holds, a finite amount above 0 and the
    limit not exceeded, [handlePayment] returns a transaction of the
    payer, the device and the amount; its score is the score of the
    rules; its status is [declined] from 80, [pending] from 50 and
    [approved] below, with the reason "High risk score" when declined;
    and that transaction is what the ledger gained. *)
Theorem passed_gates_store_the_decided_row user pin amt name devices duid d u w :
  reliable w -> users w !! au_id user = Some u ->
  pin_hash u = hashPin pin -> status u = active ->
  List.find (fun d => bool_decide (deviceUid d = duid)) devices = Some d ->
  (exists row, row ∈ nfc_devices w /\ d_id row = nd_id d) ->
  isFinite amt = true -> (amt >? num_of_Z 0)%num = true ->
  ~ limit_exceeded w (au_id user) amt ->
  let request := payment_request (au_id user) (nd_id d) amt (now w) name in
  let run := handlePayment user pin amt name devices (Ok duid) w in
  let score := rule_score w request in
  exists tx row,
    run.1 = Ok tx
    /\ transactions run.2 = transactions w ++ [row] /\ tx = toTransaction row
    /\ tr_userId tx = au_id user /\ tr_deviceId tx = nd_id d /\ tr_amount tx = amt
    /\ riskScore tx = score
    /\ tr_status tx = (if 80 <=? score then declined
                       else if 50 <=? score then pending else approved)
    /\ declineReason tx = (if 80 <=? score then Some "High risk score" else None).
Proof.
  intros Hrel Hu Hpin Hactive Hfind (row & Hrow & Hid) Hfinite Hpos Hlimit.
  cbv zeta.
  set (request := payment_request (au_id user) (nd_id d) amt (now w) name).
  assert (Hrun : (handlePayment user pin amt name devices (Ok duid) w).1
                 = Ok (toTransaction (stored_row w request))).
  { rewrite handlePayment_outcome by exact Hrel.
    unfold payment_outcome. cbv zeta.
    rewrite Hu, (bool_decide_eq_true_2 _ Hpin), Hfind.
    fold request. unfold outcome. cbn [rq_userId rq_amount payment_request request].
    rewrite Hu, (bool_decide_eq_true_2 _ Hactive).
    unfold limit_exceeded in Hlimit. rewrite Hu in Hlimit.
    apply not_true_is_false in Hlimit. rewrite Hlimit.
    unfold insertable. cbn [rq_amount rq_deviceId payment_request request].
    rewrite Hfinite, Hpos. cbn [andb].
    replace (existsb _ (nfc_devices w)) with true; [reflexivity | ].
    symmetry. apply existsb_exists. exists row.
    split; [apply list_elem_of_In, Hrow | apply bool_decide_eq_true, Hid]. }
  destruct (handlePayment user pin amt name devices (Ok duid) w) as [r w1] eqn:Hpay.
  cbn [fst snd] in *. subst r.
  destruct (handlePayment_Ok _ _ _ _ _ _ _ _ _ Hpay) as (row' & Hrows & Htx).
  exists (toTransaction (stored_row w request)), row'.
  split; [reflexivity | ]. split; [exact Hrows | ]. split; [exact Htx | ].
  unfold stored_row, determineTransactionStatus.
  cbn [toTransaction tr_userId tr_deviceId tr_amount riskScore tr_status
       declineReason t_user_id t_device_id amount risk_score t_status
       decline_reason rq_userId rq_deviceId rq_amount payment_request request].
  repeat (split; [reflexivity | ]).
  destruct (80 <=? rule_score w request); [reflexivity | ].
  destruct (50 <=? rule_score w request); reflexivity.
Qed.

End Outcomes.

(** * Five strikes *)

Section Lockout.
Context `{Platform}.

Lemma iter_failed_attempt t k u :
  pin_hash (Nat.iter k (failed_attempt t) u) = pin_hash u
  /\ failed_auth_attempts (Nat.iter k (failed_attempt t) u)
     = failed_auth_attempts u + Z.of_nat k.
Proof.
  induction k as [|k [IHp IHf]].
  - split; [reflexivity | cbn; lia].
  - rewrite Nat.iter_succ. unfold failed_attempt at 1 3.
    cbn [pin_hash failed_auth_attempts]. split; [exact IHp | lia].
Qed.

(** [k] wrong PINs in a row: the row of the user, and the events. *)
Lemma attempts_failed uid pins :
  forall u w,
    reliable w -> users w !! uid = Some u ->
    Forall (fun pin => pin_hash u <> hashPin pin) pins ->
    let w1 := attempts uid pins w in
    faults w1 = faults w /\ now w1 = now w
    /\ users w1 !! uid = Some (Nat.iter (length pins) (failed_attempt (now w)) u)
    /\ security_logs w1
       = security_logs w
         ++ failure_events uid (now w) (failed_auth_attempts u) (length pins).
Proof.
  induction pins as [|pin pins IH]; intros u w Hrel Hu Hwrong; cbn zeta.
  - cbn. rewrite app_nil_r. auto.
  - apply Forall_cons in Hwrong as [Hpin Hwrong].
    cbn [attempts length failure_events].
    rewrite (verifyPin_wrong uid pin u) by assumption. cbn [snd].
    destruct (after_invalid_pin_env uid u w) as (Ef & En & _ & _).
    destruct (IH (failed_attempt (now w) u) (after_invalid_pin uid u w))
      as (IHf & IHn & IHu & IHl).
    + intros n. rewrite Ef. apply Hrel.
    + rewrite after_invalid_pin_users. apply lookup_insert_eq.
    + exact Hwrong.
    + rewrite IHf, IHn, IHu, IHl, Ef, En, after_invalid_pin_logs.
      rewrite Nat.iter_succ_r, <- !app_assoc.
      repeat split.
Qed.

(** C7, as the code has it: on a counter that stands at 0, five failed
    PIN verifications in a row set the status [locked] (the counter is 5)
    and append exactly one [account_locked] event, of severity
    [critical].  In the state they leave, a sixth PIN verification does
    not fail regardless of the PIN: it returns true for the right PIN and
    false for a wrong one, since [verifyPin] never reads the status.  A
    payment attempted in that state persists nothing and ends in an error
    whatever the PIN: with a wrong PIN, "Invalid PIN"; with the right
    PIN, the error of the tag read if the tag cannot be read, the error
    of the insert if the tag is unknown to the component and taken in the
    registry, and otherwise "Account is not active", raised by the
    account-status check. *)
Theorem five_failures_lock uid u pins w :
  reliable w -> users w !! uid = Some u -> failed_auth_attempts u = 0 ->
  length pins = 5%nat ->
  Forall (fun pin => pin_hash u <> hashPin pin) pins ->
  let w5 := attempts uid pins w in
  (exists u5, users w5 !! uid = Some u5 /\ status u5 = locked
              /\ failed_auth_attempts u5 = 5)
  /\ (exists e, events_of "account_locked" (logged w w5) = [e]
                /\ severity e = critical)
  /\ (forall pin,
        (verifyPin uid pin w5).1 = Ok (bool_decide (pin_hash u = hashPin pin)))
  /\ (forall user pin amt name devices tag,
        au_id user = uid ->
        let run := handlePayment user pin amt name devices tag w5 in
        transactions run.2 = transactions w5
        /\ (pin_hash u <> hashPin pin -> run.1 = Throw (JsError "Invalid PIN"))
        /\ (pin_hash u = hashPin pin ->
            match tag with
            | Throw e => run.1 = Throw e
            | Ok duid =>
                (tag_refused w5 devices tag ->
                 run.1 = Throw (StoreError (tbl_nfc_devices, INSERT)))
                /\ (~ tag_refused w5 devices tag ->
                    run.1 = Throw (JsError "Account is not active"))
            end)).
Proof.
  intros Hrel Hu Hzero Hlen Hwrong w5.
  destruct (attempts_failed uid pins u w Hrel Hu Hwrong) as (Ef & En & Eu & El).
  fold w5 in Ef, En, Eu, El. rewrite Hlen, Hzero in *.
  destruct (iter_failed_attempt (now w) 5 u) as [Hhash Hcount].
  set (u5 := Nat.iter 5 (failed_attempt (now w)) u) in *.
  assert (Hlocked : status u5 = locked).
  { unfold u5. rewrite Nat.iter_succ. unfold failed_attempt at 1. cbn [status].
    destruct (iter_failed_attempt (now w) 4 u) as [_ H4].
    rewrite H4, Hzero. reflexivity. }
  assert (Hrel5 : reliable w5).
  { intros n. rewrite Ef. apply Hrel. }
  split; [exists u5; rewrite Hcount, Hzero; auto | ]. split; [ | split].
  - rewrite (logged_app _ _ _ El). eexists. split; reflexivity.
  - intros pin.
    destruct (bool_decide_reflect (pin_hash u = hashPin pin)) as [Hpin|Hpin].
    + rewrite (verifyPin_right uid pin u5);
        [reflexivity | exact Eu | congruence | apply Hrel5].
    + rewrite (verifyPin_wrong uid pin u5);
        [reflexivity | exact Hrel5 | exact Eu | congruence].
  - intros user pin amt name devices tag <-. cbv zeta.
    assert (Hrun := handlePayment_inactive user pin amt name devices tag u5 w5
                      Hrel5 Eu ltac:(rewrite Hlocked; discriminate)).
    rewrite Hhash in Hrun.
    assert (Hsame : transactions (handlePayment user pin amt name devices tag w5).2
                    = transactions w5).
    { destruct (handlePayment user pin amt name devices tag w5)
        as [[tx|e] w6] eqn:Hpay; cbn [fst snd] in *.
      - exfalso. revert Hrun. destruct (bool_decide _); [ | discriminate].
        destruct tag as [duid|e]; [ | discriminate].
        destruct (_ || _); discriminate.
      - exact (handlePayment_Throw _ _ _ _ _ _ _ _ _ Hpay). }
    split; [exact Hsame | split].
    + intros Hpin. rewrite Hrun, (bool_decide_eq_false_2 _ Hpin). reflexivity.
    + intros Hpin. rewrite Hrun, (bool_decide_eq_true_2 _ Hpin).
      destruct tag as [duid|e]; [ | reflexivity].
      split; intros Href.
      * apply tag_refused_known in Href. rewrite Href. reflexivity.
      * destruct (_ || _) eqn:Eok; [reflexivity | ].
        destruct Href. apply tag_refused_known. exact Eok.
Qed.

End Lockout.

(** * The order of the steps *)

Section Order.
Context `{Platform}.

Lemma sent_app w w1 cs : trace w1 = trace w ++ cs -> sent w w1 = cs.
Proof. unfold sent. intros ->. apply drop_app_length. Qed.

Lemma logSecurityEvent_trace uid ev sev descr w :
  exists w1, logSecurityEvent uid ev sev descr w = (Ok tt, w1)
             /\ trace w1 = trace w ++ [(tbl_security_logs, INSERT)].
Proof.
  unfold logSecurityEvent, insert_log. run.
  destruct (faults w (length (trace w))); run; world_simpl;
    [ | destruct (bool_decide _)]; eexists; split; reflexivity.
Qed.

Lemma updateDeviceLastUsed_trace deviceId w :
  exists w1, updateDeviceLastUsed deviceId w = (Ok tt, w1)
             /\ trace w1 = trace w ++ [(tbl_nfc_devices, UPDATE)].
Proof.
  unfold updateDeviceLastUsed, update_devices. run.
  destruct (faults w (length (trace w))); eexists; split; reflexivity.
Qed.

Lemma insert_transaction_trace mk w :
  trace (insert_transaction mk w).2 = trace w ++ persist_calls.
Proof.
  unfold insert_transaction. run.
  destruct (faults w (length (trace w))); run; world_simpl;
    [ | match goal with |- context [if ?b then _ else _] => destruct b end ];
    reflexivity.
Qed.

Lemma calculateRiskScore_trace request w :
  trace (calculateRiskScore request w).2 = trace w ++ risk_calls.
Proof.
  destruct (calculateRiskScore_run request w) as (? & ? & _ & _ & ->).
  cbn. rewrite <- app_assoc. reflexivity.
Qed.

Lemma checkAccountStatus_run uid w :
  trace (checkAccountStatus uid w).2 = trace w ++ account_calls
  /\ ((checkAccountStatus uid w).1 = Ok tt
      \/ (checkAccountStatus uid w).1 = Throw (StoreError (tbl_users, SELECT "status"))
      \/ (checkAccountStatus uid w).1 = Throw (JsError "Account is not active")).
Proof.
  unfold checkAccountStatus, select_user. run.
  destruct (faults w (length (trace w))); run; [cbn; auto | ].
  world_simpl. destruct (users w !! uid) as [u|]; [ | cbn; auto].
  destruct (bool_decide _); cbn; auto.
Qed.

Lemma checkDailyLimit_run uid amt w :
  trace (checkDailyLimit uid amt w).2 = trace w ++ limit_calls
  /\ ((checkDailyLimit uid amt w).1 = Ok tt
      \/ (checkDailyLimit uid amt w).1
         = Throw (JsError "Daily transaction limit exceeded")).
Proof.
  unfold checkDailyLimit. rewrite bind_run.
  assert (Hsel : exists r, select_user "daily_limit" uid w
    = (Ok r, set_trace (fun t => t ++ [(tbl_users, SELECT "daily_limit")]) w)).
  { unfold select_user. run. destruct (faults w (length (trace w)));
      eexists; reflexivity. }
  destruct Hsel as [r ->]. cbv zeta.
  rewrite bind_run, getDailyTransactionTotal_run.
  destruct (_ >? _)%num; cbn; rewrite <- app_assoc; auto.
Qed.

Lemma registerNFCDevice_run uid duid name w :
  (exists dev, (registerNFCDevice uid duid name w).1 = Ok dev
     /\ trace (registerNFCDevice uid duid name w).2 = trace w ++ device_calls false)
  \/ ((registerNFCDevice uid duid name w).1
        = Throw (StoreError (tbl_nfc_devices, INSERT))
      /\ trace (registerNFCDevice uid duid name w).2
         = trace w ++ [(tbl_nfc_devices, INSERT)]).
Proof.
  unfold registerNFCDevice, insert_device. run.
  destruct (faults w (length (trace w))); run; [right; split; reflexivity | ].
  world_simpl.
  match goal with |- context [if ?b then _ else _] => destruct b end; run.
  - left. world_simpl.
    match goal with
    | |- context [logSecurityEvent ?a ?b ?c ?d ?w0] =>
        destruct (logSecurityEvent_trace a b c d w0) as (w1 & -> & Htrace)
    end.
    eexists. split; [reflexivity | ]. cbn [fst snd]. rewrite Htrace. cbn [trace].
    rewrite <- app_assoc. reflexivity.
  - right. split; reflexivity.
Qed.

Lemma incrementFailedAuthAttempts_trace uid w :
  exists w1 rest,
    incrementFailedAuthAttempts uid w = (Ok tt, w1)
    /\ trace w1 = trace w ++ rest /\ Forall bookkeeping rest.
Proof.
  unfold incrementFailedAuthAttempts, select_user, update_user. run.
  assert (Hend : forall (a : Z) w0 cs,
    trace w0 = trace w ++ cs -> Forall bookkeeping cs ->
    exists w1 rest,
      (if 5 <=? a
       then logSecurityEvent uid "account_locked" critical
              ("Account locked after " +:+ pretty a +:+ " failed attempts")
       else mret tt) w0 = (Ok tt, w1)
      /\ trace w1 = trace w ++ rest /\ Forall bookkeeping rest).
  { intros a w0 cs Hcs Hbook. destruct (5 <=? a).
    - destruct (logSecurityEvent_trace uid "account_locked" critical
                  ("Account locked after " +:+ pretty a +:+ " failed attempts") w0)
        as (w1 & Hlog & Htrace).
      exists w1, (cs ++ [(tbl_security_logs, INSERT)]).
      split; [exact Hlog | ]. split.
      + rewrite Htrace, Hcs, <- app_assoc. reflexivity.
      + apply Forall_app. split; [exact Hbook | ].
        constructor; [right; reflexivity | constructor].
    - exists w0, cs. split; [reflexivity | ]. auto. }
  assert (Hbook : Forall bookkeeping
            [(tbl_users, SELECT "failed_auth_attempts"); (tbl_users, UPDATE)]).
  { constructor; [left; reflexivity | ].
    constructor; [left; reflexivity | constructor]. }
  destruct (faults w (length (trace w))); run; world_simpl;
    match goal with |- context [if faults w ?n then _ else _] =>
      destruct (faults w n) end; run;
    (eapply Hend; [ | exact Hbook]); world_simpl;
    rewrite <- app_assoc; reflexivity.
Qed.

Lemma verifyPin_trace uid pin w :
  exists rest,
    trace (verifyPin uid pin w).2 = trace w ++ pin_calls ++ rest
    /\ Forall bookkeeping rest
    /\ ((verifyPin uid pin w).1 = Ok true -> rest = []).
Proof.
  destruct (verifyPin uid pin w) as [[[|]|e] w1] eqn:Hrun.
  - apply verifyPin_true in Hrun as (_ & _ & _ & _ & ->).
    exists []. split; [reflexivity | ]. split; [constructor | reflexivity].
  - revert Hrun. unfold verifyPin, select_user. run.
    assert (Hlog : forall ev sev descr w0 cs,
      trace w0 = trace w ++ pin_calls ++ cs -> Forall bookkeeping cs ->
      forall b w2,
        (let (r, w') := logSecurityEvent uid ev sev descr w0 in
         match r with Ok _ => (Ok b, w') | Throw e => (Throw e, w') end)
        = (Ok false, w2) ->
        exists rest, trace w2 = trace w ++ pin_calls ++ rest
                     /\ Forall bookkeeping rest
                     /\ (Ok false = Ok true :> Res bool -> rest = [])).
    { intros ev sev descr w0 cs Hcs Hbook b w2.
      destruct (logSecurityEvent_trace uid ev sev descr w0) as (w3 & -> & Htrace).
      intros [= _ <-]. exists (cs ++ [(tbl_security_logs, INSERT)]).
      split; [rewrite Htrace, Hcs, <- !app_assoc; reflexivity | ].
      split; [ | discriminate].
      apply Forall_app. split; [exact Hbook | ].
      constructor; [right; reflexivity | constructor]. }
    destruct (faults w (length (trace w))); run.
    + apply (Hlog _ _ _ _ []); [ | constructor].
      reflexivity.
    + world_simpl. destruct (users w !! uid) as [u|]; run.
      * destruct (bool_decide _); run; [discriminate | ].
        match goal with
        | |- context [incrementFailedAuthAttempts uid ?w0] =>
            destruct (incrementFailedAuthAttempts_trace uid w0)
              as (w2 & cs & -> & Htrace & Hbook)
        end.
        apply (Hlog _ _ _ _ cs); [ | exact Hbook].
        rewrite Htrace. cbn [trace]. rewrite <- app_assoc. reflexivity.
      * apply (Hlog _ _ _ _ []); [ | constructor].
        reflexivity.
  - exfalso. exact (safe_run _ _ _ _ (safe_verifyPin uid pin) Hrun).
Qed.

(** The steps of [processTransaction], by the requests they send: risk
    scoring, then the account-status check, then the daily-limit check,
    then the insert, then the audit event and the last-used stamp. *)
Lemma processTransaction_steps request w :
  match (processTransaction request w).1 with
  | Ok tx =>
      trace (processTransaction request w).2
      = trace w ++ risk_calls ++ account_calls ++ limit_calls ++ persist_calls
        ++ audit_calls (tr_status tx)
  | Throw e =>
      ((e = StoreError (tbl_users, SELECT "status")
        \/ e = JsError "Account is not active")
       /\ trace (processTransaction request w).2
          = trace w ++ risk_calls ++ account_calls)
      \/ (e = JsError "Daily transaction limit exceeded"
          /\ trace (processTransaction request w).2
             = trace w ++ risk_calls ++ account_calls ++ limit_calls)
      \/ (e = StoreError (tbl_transactions, INSERT)
          /\ trace (processTransaction request w).2
             = trace w ++ risk_calls ++ account_calls ++ limit_calls
               ++ persist_calls)
  end.
Proof.
  unfold processTransaction. rewrite bind_run.
  change (Date_now w) with (Ok (now w), w). cbv beta iota zeta.
  rewrite bind_run.
  destruct (calculateRiskScore_range request w) as (s & w2 & Hs & _).
  assert (T2 := calculateRiskScore_trace request w). rewrite Hs in *. cbn [snd] in T2.
  rewrite bind_run.
  destruct (checkAccountStatus_run (rq_userId request) w2) as [T3 R3].
  destruct (checkAccountStatus (rq_userId request) w2) as [r3 w3].
  cbn [fst snd] in *.
  destruct R3 as [-> | [-> | ->]]; cbn [fst snd];
    [ | left; split; [auto | rewrite T3, T2, <- !app_assoc; reflexivity] .. ].
  rewrite bind_run.
  destruct (checkDailyLimit_run (rq_userId request) (rq_amount request) w3) as [T4 R4].
  destruct (checkDailyLimit (rq_userId request) (rq_amount request) w3) as [r4 w4].
  cbn [fst snd] in *.
  destruct R4 as [-> | ->]; cbn [fst snd];
    [ | right; left; split;
        [reflexivity | rewrite T4, T3, T2, <- !app_assoc; reflexivity] ].
  rewrite bind_run.
  match goal with
  | |- context [insert_transaction ?mk w4] =>
      assert (T5 := insert_transaction_trace mk w4);
      destruct (insert_transaction mk w4) as [[r5|e5] w5] eqn:Hins
  end; cbn [snd] in T5.
  2: { exfalso. exact (safe_run _ _ _ _ (safe_insert_transaction _) Hins). }
  apply insert_transaction_run in Hins as [[[= ->] _] | (i & t & [= ->] & _)].
  { unfold throw. cbn [fst snd]. right. right. split; [reflexivity | ].
    rewrite T5, T4, T3, T2, <- !app_assoc. reflexivity. }
  rewrite bind_run.
  match goal with
  | |- context [logSecurityEvent ?a ?b ?c ?d w5] =>
      destruct (logSecurityEvent_trace a b c d w5) as (w6 & -> & T6)
  end.
  rewrite bind_run. unfold audit_calls. cbn [toTransaction tr_status t_status].
  destruct (bool_decide (determineTransactionStatus s = approved)) eqn:Eappr.
  - destruct (updateDeviceLastUsed_trace (rq_deviceId request) w6) as (w7 & -> & T7).
    cbn [fst snd mret M_ret toTransaction tr_status t_status].
    rewrite Eappr, T7, T6, T5, T4, T3, T2, <- !app_assoc. reflexivity.
  - cbn [fst snd mret M_ret toTransaction tr_status t_status].
    rewrite Eappr, T6, T5, T4, T3, T2, <- !app_assoc. reflexivity.
Qed.

(** C1, as the code has it: a payment runs PIN verification, then
    device resolution, then risk scoring, then the account-status check,
    then the daily-limit check, then the status decision and the insert,
    then the audit event.  An error stops the run at the step that raised
    it: the requests sent are those of the steps up to that one, and no
    request of a later step.  Risk scoring comes before the account-status
    and daily-limit checks, and device resolution before all three. *)
Theorem payment_steps_in_order user pin amt name devices tag w :
  let r := (handlePayment user pin amt name devices tag w).1 in
  let w1 := (handlePayment user pin amt name devices tag w).2 in
  let known := known_device devices tag in
  match r with
  | Ok tx =>
      sent w w1 = pin_calls ++ device_calls known ++ risk_calls ++ account_calls
                  ++ limit_calls ++ persist_calls ++ audit_calls (tr_status tx)
  | Throw e =>
      (e = JsError "Invalid PIN"
       /\ exists rest, sent w w1 = pin_calls ++ rest /\ Forall bookkeeping rest)
      \/ (tag = Throw e /\ sent w w1 = pin_calls)
      \/ (e = StoreError (tbl_nfc_devices, INSERT) /\ known = false
          /\ sent w w1 = pin_calls ++ [(tbl_nfc_devices, INSERT)])
      \/ ((e = StoreError (tbl_users, SELECT "status")
           \/ e = JsError "Account is not active")
          /\ sent w w1 = pin_calls ++ device_calls known ++ risk_calls
                         ++ account_calls)
      \/ (e = JsError "Daily transaction limit exceeded"
          /\ sent w w1 = pin_calls ++ device_calls known ++ risk_calls
                         ++ account_calls ++ limit_calls)
      \/ (e = StoreError (tbl_transactions, INSERT)
          /\ sent w w1 = pin_calls ++ device_calls known ++ risk_calls
                         ++ account_calls ++ limit_calls ++ persist_calls)
  end.
Proof.
  cbv zeta.
  assert (Htail : forall request w2 pre,
    trace w2 = trace w ++ pin_calls ++ pre ->
    match (processTransaction request w2).1 with
    | Ok tx =>
        sent w (processTransaction request w2).2
        = pin_calls ++ pre ++ risk_calls ++ account_calls ++ limit_calls
          ++ persist_calls ++ audit_calls (tr_status tx)
    | Throw e =>
        ((e = StoreError (tbl_users, SELECT "status")
          \/ e = JsError "Account is not active")
         /\ sent w (processTransaction request w2).2
            = pin_calls ++ pre ++ risk_calls ++ account_calls)
        \/ (e = JsError "Daily transaction limit exceeded"
            /\ sent w (processTransaction request w2).2
               = pin_calls ++ pre ++ risk_calls ++ account_calls ++ limit_calls)
        \/ (e = StoreError (tbl_transactions, INSERT)
            /\ sent w (processTransaction request w2).2
               = pin_calls ++ pre ++ risk_calls ++ account_calls ++ limit_calls
                 ++ persist_calls)
    end).
  { intros request w2 pre Hpre.
    assert (S := processTransaction_steps request w2).
    destruct (processTransaction request w2) as [[tx|e] w3]; cbn [fst snd] in *.
    - apply sent_app. rewrite S, Hpre, <- !app_assoc. reflexivity.
    - destruct S as [[He S] | [[He S] | [He S]]];
        [left | right; left | right; right];
        (split; [exact He | ]);
        apply sent_app; rewrite S, Hpre, <- !app_assoc; reflexivity. }
  unfold handlePayment. rewrite bind_run.
  destruct (verifyPin_trace (au_id user) pin w) as (rest & T1 & B1 & R1).
  destruct (verifyPin (au_id user) pin w) as [[ok|e] w1] eqn:Hpin.
  2: { exfalso. exact (safe_run _ _ _ _ (safe_verifyPin _ _) Hpin). }
  cbn [fst snd] in *. destruct ok; cbn [negb].
  2: { unfold throw. cbn [fst snd]. left. split; [reflexivity | ].
       exists rest. split; [apply sent_app, T1 | exact B1]. }
  rewrite (R1 eq_refl) in T1. clear R1 B1 rest.
  rewrite bind_run. unfold readNFCTag.
  destruct tag as [duid|e]; cbn [fst snd known_device].
  2: { right. left. split; [reflexivity | ]. apply sent_app.
       rewrite T1, app_nil_r. reflexivity. }
  rewrite bind_run.
  destruct (List.find _ devices) as [d|].
  - cbn [mret M_ret]. rewrite bind_run.
    change (Date_now w1) with (Ok (now w1), w1). cbv beta iota.
    specialize (Htail (mkRequest (au_id user) (nd_id d) amt
                                 ("MERCH_" +:+ pretty (now w1)) name (Some "USD"))
                      w1 [] T1).
    destruct (processTransaction _ w1) as [[tx|e] w3]; cbn [fst snd] in *.
    + exact Htail.
    + do 3 right. exact Htail.
  - destruct (registerNFCDevice_run (au_id user) duid
                ("Device " +:+ pretty (length devices + 1)%nat) w1)
      as [(dev & R & T) | [R T]];
      destruct (registerNFCDevice _ _ _ w1) as [r2 w2];
      cbn [fst snd] in *; subst r2.
    + rewrite bind_run. change (Date_now w2) with (Ok (now w2), w2).
      cbv beta iota.
      assert (T2 : trace w2 = trace w ++ pin_calls ++ device_calls false).
      { rewrite T, T1, app_nil_r, <- app_assoc. reflexivity. }
      specialize (Htail (mkRequest (au_id user) (nd_id dev) amt
                                   ("MERCH_" +:+ pretty (now w2)) name (Some "USD"))
                        w2 _ T2).
      destruct (processTransaction _ w2) as [[tx|e] w3]; cbn [fst snd] in *.
      * exact Htail.
      * do 3 right. exact Htail.
    + cbn [fst snd]. right. right. left. split; [reflexivity | ].
      split; [reflexivity | ]. apply sent_app.
      rewrite T, T1, app_nil_r, <- app_assoc. reflexivity.
Qed.

(** Where a failing store stops [processTransaction]: the read of the
    status is its third request, the insert its sixth. *)
Lemma processTransaction_faults request w :
  (faults w (length (trace w) + 2) = true ->
   (processTransaction request w).1 = Throw (StoreError (tbl_users, SELECT "status")))
  /\ (faults w (length (trace w) + 5) = true ->
      forall tx, (processTransaction request w).1 <> Ok tx).
Proof.
  split.
  - intros Hfault. unfold processTransaction. rewrite bind_run.
    change (Date_now w) with (Ok (now w), w). cbv beta iota zeta.
    rewrite bind_run.
    destruct (calculateRiskScore_run request w) as (recent & total & _ & _ & ->).
    rewrite !bind_run. unfold checkAccountStatus, select_user. run.
    cbn [faults trace set_trace]. rewrite !length_app. cbn [length].
    replace (length (trace w) + 1 + 1)%nat with (length (trace w) + 2)%nat by lia.
    rewrite Hfault. reflexivity.
  - intros Hfault tx Hok.
    destruct (processTransaction request w) as [r w9] eqn:Hrun.
    cbn [fst] in Hok. subst r. unfold processTransaction in Hrun.
    apply bind_Ok_inv in Hrun as (t & w0 & [= <- <-] & Hrun). cbv zeta in Hrun.
    apply bind_Ok_inv in Hrun as (s & w2 & Hscore & Hrun).
    apply bind_Ok_inv in Hrun as ([] & w3 & Hacct & Hrun).
    apply bind_Ok_inv in Hrun as ([] & w4 & Hlimit & Hrun).
    apply bind_Ok_inv in Hrun as (r & w5 & Hins & Hrun).
    assert (T2 := calculateRiskScore_trace request w). rewrite Hscore in T2.
    destruct (checkAccountStatus_run (rq_userId request) w2) as [T3 _].
    rewrite Hacct in T3.
    destruct (checkDailyLimit_run (rq_userId request) (rq_amount request) w3)
      as [T4 _].
    rewrite Hlimit in T4. cbn [snd] in *.
    kept faults in Hscore as F2. kept faults in Hacct as F3.
    kept faults in Hlimit as F4.
    revert Hins. unfold insert_transaction. run.
    rewrite F4, F3, F2, T4, T3, T2, !length_app.
    replace (length (trace w) + length risk_calls + length account_calls
             + length limit_calls)%nat
      with (length (trace w) + 5)%nat by (cbn [length risk_calls account_calls
                                               limit_calls]; lia).
    rewrite Hfault. intros [= <- <-]. discriminate Hrun.
Qed.

(** C9, as the code has it.  Of the requests of an authorization, three
    surface a failure of the store at once, as the error of the request,
    and nothing is sent after them: the registration of an unknown tag,
    the read of the account status and the insert of the transaction.  A
    failed read of the PIN digest ends the request too, as "Invalid PIN".
    The other reads are answered with a default and the request goes on:
    a failed read of the recent history with the empty history, a failed
    read of the daily total with 0, a failed read of the daily limit with
    1000; risk scoring never raises an error.  The audit events and the
    last-used stamp never raise one either. *)
Theorem read_failures_fall_back user pin amt name devices tag request uid minutes w :
  let n := length (trace w) in
  let pay := handlePayment user pin amt name devices tag w in
  let run := processTransaction request w in
  (faults w n = true ->
   (getRecentTransactions uid minutes w).1 = Ok []
   /\ (getDailyTransactionTotal uid w).1 = Ok (num_of_Z 0)
   /\ (exists total,
        (getDailyTransactionTotal uid
           (set_trace (fun t => t ++ [(tbl_users, SELECT "daily_limit")]) w)).1
        = Ok total
        /\ (checkDailyLimit uid amt w).1
           = if (total + amt >? num_of_Z 1000)%num
             then Throw (JsError "Daily transaction limit exceeded")
             else Ok tt))
  /\ (exists s, (calculateRiskScore request w).1 = Ok s)
  /\ (forall ev sev descr deviceId,
        (logSecurityEvent uid ev sev descr w).1 = Ok tt
        /\ (updateDeviceLastUsed deviceId w).1 = Ok tt)
  /\ (faults w n = true -> pay.1 = Throw (JsError "Invalid PIN"))
  /\ (faults w (n + 1) = true -> known_device devices tag = false ->
      (exists duid, tag = Ok duid) ->
      pay.1 = Throw (JsError "Invalid PIN")
      \/ (pay.1 = Throw (StoreError (tbl_nfc_devices, INSERT))
          /\ sent w pay.2 = pin_calls ++ [(tbl_nfc_devices, INSERT)]))
  /\ (faults w (n + 2) = true ->
      run.1 = Throw (StoreError (tbl_users, SELECT "status"))
      /\ sent w run.2 = risk_calls ++ account_calls)
  /\ (faults w (n + 5) = true ->
      run.1 = Throw (StoreError (tbl_users, SELECT "status"))
      \/ run.1 = Throw (JsError "Account is not active")
      \/ run.1 = Throw (JsError "Daily transaction limit exceeded")
      \/ (run.1 = Throw (StoreError (tbl_transactions, INSERT))
          /\ sent w run.2 = risk_calls ++ account_calls ++ limit_calls
                            ++ persist_calls))
  /\ (forall c, run.1 = Throw (StoreError c) ->
      c = (tbl_users, SELECT "status") \/ c = (tbl_transactions, INSERT)).
Proof.
  cbv zeta.
  assert (S := processTransaction_steps request w).
  destruct (processTransaction_faults request w) as [Hstatus Hinsert].
  split; [ | split; [ | split; [ | split; [ | split; [ | split; [ | split] ] ] ] ] ].
  - intros Hfault.
    rewrite getRecentTransactions_run, getDailyTransactionTotal_run, Hfault.
    split; [reflexivity | ]. split; [reflexivity | ].
    eexists. split; [rewrite getDailyTransactionTotal_run; reflexivity | ].
    unfold checkDailyLimit, select_user. run. rewrite Hfault.
    rewrite getDailyTransactionTotal_run. cbn [fst limitOrDefault].
    destruct (_ >? _)%num; reflexivity.
  - destruct (calculateRiskScore_range request w) as (s & w1 & -> & _). eauto.
  - intros ev sev descr deviceId.
    destruct (logSecurityEvent_trace uid ev sev descr w) as (w1 & -> & _).
    destruct (updateDeviceLastUsed_trace deviceId w) as (w2 & -> & _).
    split; reflexivity.
  - intros Hfault. unfold handlePayment. rewrite bind_run.
    rewrite verifyPin_unreadable by auto.
    destruct (safe_then
                (logSecurityEvent (au_id user) "pin_verification_failed" medium
                   "PIN verification failed")
                (mret false)
                (set_trace (fun t => t ++ [(tbl_users, SELECT "pin_hash")]) w)
                (safe_logSecurityEvent _ _ _ _)) as [w1 ->].
    reflexivity.
  - intros Hfault Hknown [duid ->]. unfold handlePayment. rewrite bind_run.
    destruct (verifyPin (au_id user) pin w) as [[[|]|e] w1] eqn:Hpin.
    + apply verifyPin_true in Hpin as (_ & _ & _ & _ & ->).
      right. cbn [negb]. rewrite bind_run. unfold readNFCTag. rewrite bind_run.
      cbn [known_device] in Hknown.
      destruct (List.find _ devices); [discriminate Hknown | ].
      unfold registerNFCDevice, insert_device. run.
      cbn [faults trace set_trace]. rewrite length_app. cbn [length].
      rewrite Hfault. cbn [fst snd]. split; [reflexivity | ].
      apply sent_app. cbn [trace set_trace]. rewrite <- app_assoc. reflexivity.
    + left. reflexivity.
    + exfalso. exact (safe_run _ _ _ _ (safe_verifyPin _ _) Hpin).
  - intros Hfault. specialize (Hstatus Hfault). split; [exact Hstatus | ].
    rewrite Hstatus in S.
    destruct S as [[_ S] | [[[=] _] | [[=] _]]].
    apply sent_app. exact S.
  - intros Hfault. specialize (Hinsert Hfault).
    destruct (processTransaction request w) as [[tx|e] w1]; cbn [fst snd] in *.
    + destruct (Hinsert tx eq_refl).
    + destruct S as [[[-> | ->] _] | [[-> _] | [-> S]]]; auto.
      do 3 right. split; [reflexivity | ].
      apply sent_app. exact S.
  - intros c Hthrow. rewrite Hthrow in S.
    destruct S as [[[[= ->] | [=]] _] | [[[=] _] | [[= ->] _]]]; auto.
Qed.

End Order.

(** * The theorems at concrete inputs *)

(** The score of a request that triggers the four rules is capped at
    100; a payment of 10.00 half a minute after one of 10.01 to the same
    merchant scores 70: the rounded difference is below 0.01. *)
Lemma calculateRiskScore_witness :
  (calculateRiskScore busy_request busy_world).1 = Ok 100
  /\ rule_score busy_world busy_request = 100
  /\ (calculateRiskScore near_request near_world).1 = Ok 70.
Proof.
  destruct (calculateRiskScore_is_rule_score busy_request busy_world)
    as (s & w1 & Hrun & _ & Hs).
  destruct (calculateRiskScore_is_rule_score near_request near_world)
    as (s' & w1' & Hrun' & _ & Hs').
  rewrite Hrun, Hrun'. cbn [fst].
  rewrite (Hs (fun n => eq_refl)), (Hs' (fun n => eq_refl)).
  split; [f_equal | split; [ | f_equal] ]; vm_compute; reflexivity.
Defined.

(** A small payment on a quiet account is stored as [approved], with no
    decline reason. *)
Lemma persisted_status_witness :
  exists tx w1 row,
    @processTransaction demo_platform small_request paired_world = (Ok tx, w1)
    /\ transactions w1 = transactions paired_world ++ [row]
    /\ risk_score row = 0 /\ t_status row = approved
    /\ decline_reason row = None.
Proof.
  destruct (@processTransaction demo_platform small_request paired_world)
    as [[tx|e] w1] eqn:Hrun; [ | vm_compute in Hrun; discriminate Hrun].
  destruct (@persisted_status_follows_risk demo_platform _ _ _ _ Hrun)
    as (row & Hrows & Htx & _ & _ & Happroved & Hreason).
  exists tx, w1, row. split; [reflexivity | ]. split; [exact Hrows | ].
  assert (Hrisk : risk_score row = 0).
  { assert (Hlast : last (transactions w1) = Some row).
    { rewrite Hrows. apply last_snoc. }
    injection Hrun as _ <-. vm_compute in Hlast. injection Hlast as <-.
    reflexivity. }
  split; [exact Hrisk | ].
  assert (Hst : t_status row = approved) by (apply Happroved; rewrite Hrisk; lia).
  split; [exact Hst | ].
  destruct (decline_reason row) as [reason|]; [ | reflexivity].
  assert (Hdecl : t_status row = declined) by (apply Hreason; eauto).
  rewrite Hst in Hdecl. discriminate Hdecl.
Defined.

(** A payment on a suspended account ends in an error and stores nothing. *)
Lemma failed_gate_witness :
  let run := @handlePayment demo_platform alice "1234" (num_of_Z 25) "Cafe"
               (devices_of paired_world) (Ok "tag-1")
               (mkWorld {[ "alice" := alice_row suspended 0 ]}
                        (nfc_devices paired_world) [] [] noon 0 no_faults [] 1) in
  (exists e, run.1 = Throw e) /\ transactions run.2 = [].
Proof.
  cbv zeta.
  set (w := mkWorld _ _ _ _ _ _ _ _ _).
  destruct (@failed_gate_persists_nothing demo_platform alice "1234" (num_of_Z 25) "Cafe"
              (devices_of paired_world) (Ok "tag-1") w) as (Hthrow & _ & Hgate).
  assert (Herr : exists e,
    (@handlePayment demo_platform alice "1234" (num_of_Z 25) "Cafe"
       (devices_of paired_world) (Ok "tag-1") w).1 = Throw e).
  { apply Hgate; [intros n; reflexivity | ].
    right. left. intros u Hu. vm_compute in Hu. injection Hu as <-. discriminate. }
  split; [exact Herr | ].
  destruct Herr as [e He]. exact (Hthrow e He).
Defined.

(** One wrong PIN on a suspended account, or one failed sign-in, and the
    account is active again. *)
Lemma failed_attempt_witness :
  let w := world_of (alice_row suspended 0) in
  (status <$> users (@verifyPin demo_platform "alice" "0000" w).2 !! "alice")
    = Some active
  /\ (status <$> users (signIn (mkAuthResponse (Some "Invalid login credentials")
                                               (Some "alice")) w).2 !! "alice")
     = Some active.
Proof.
  cbv zeta.
  destruct (@failed_attempt_rewrites_status demo_platform "alice" "0000"
              "Invalid login credentials" (alice_row suspended 0)
              (world_of (alice_row suspended 0)))
    as (_ & Hpin & Hsign); [intros n; reflexivity | reflexivity | ].
  destruct Hpin as (u1 & Hu1 & Hn1 & Hlow1 & _); [vm_compute; discriminate | ].
  destruct Hsign as (u2 & Hu2 & Hn2 & Hlow2 & _).
  rewrite Hu1, Hu2. cbn [fmap option_fmap option_map].
  rewrite Hlow1, Hlow2; [split; reflexivity | | ]; cbn in *; lia.
Defined.

(** The right PIN after two wrong ones: the counter still stands at 2. *)
Lemma verifyPin_success_witness :
  (@verifyPin demo_platform "alice" "1234" (world_of (alice_row active 2))).1 = Ok true
  /\ (failed_auth_attempts
        <$> users (@verifyPin demo_platform "alice" "1234"
                     (world_of (alice_row active 2))).2 !! "alice") = Some 2.
Proof.
  destruct (@verifyPin_success_keeps_counter demo_platform "alice" "1234"
              (alice_row active 2) (world_of (alice_row active 2)))
    as [Hok Hrow]; [reflexivity | reflexivity | reflexivity | ].
  split; [exact Hok | ]. rewrite Hrow. reflexivity.
Defined.

(** A wrong PIN for [alice]: one [invalid_pin] event, of severity [high]. *)
Lemma verifyPin_failure_witness :
  let w := world_of (alice_row active 0) in
  exists w1 e,
    @verifyPin demo_platform "alice" "0000" w = (Ok false, w1)
    /\ events_of "invalid_pin" (logged w w1) = [e] /\ severity e = high.
Proof.
  cbv zeta.
  destruct (@verifyPin_failure demo_platform "alice" "0000"
              (world_of (alice_row active 0))) as [Hwrong _].
  destruct (Hwrong (fun n => eq_refl) (alice_row active 0) eq_refl)
    as (w1 & u1 & e & Hrun & _ & _ & Hev & Hsev); [vm_compute; discriminate | ].
  exists w1, e. auto.
Defined.

(** Five wrong PINs on a fresh account: locked, one event; the sixth
    verification accepts the right PIN, and the payment that follows is
    stopped by the account-status check. *)
Lemma five_failures_witness :
  let w := world_of (alice_row active 0) in
  let w5 := @attempts demo_platform "alice" wrong_pins w in
  (exists u5, users w5 !! "alice" = Some u5 /\ status u5 = locked)
  /\ (exists e, events_of "account_locked" (logged w w5) = [e]
                /\ severity e = critical)
  /\ (@verifyPin demo_platform "alice" "1234" w5).1 = Ok true
  /\ (@verifyPin demo_platform "alice" "9999" w5).1 = Ok false
  /\ (@handlePayment demo_platform alice "1234" (num_of_Z 25) "Cafe" []
        (Ok "tag-1") w5).1 = Throw (JsError "Account is not active")
  /\ (@handlePayment demo_platform alice "9999" (num_of_Z 25) "Cafe" []
        (Ok "tag-1") w5).1 = Throw (JsError "Invalid PIN").
Proof.
  cbv zeta.
  pose proof (@five_failures_lock demo_platform "alice" (alice_row active 0)
                wrong_pins (world_of (alice_row active 0))) as Hthm.
  cbv zeta in Hthm.
  destruct Hthm as (Hlocked & Hone & Hsixth & Hpay).
  - intros n. reflexivity.
  - reflexivity.
  - reflexivity.
  - reflexivity.
  - repeat constructor; vm_compute; discriminate.
  - destruct Hlocked as (u5 & Hu5 & Hst & _).
    split; [eauto | ]. split; [exact Hone | ].
    split; [rewrite Hsixth; reflexivity | ].
    split; [rewrite Hsixth; reflexivity | ].
    destruct (Hpay alice "1234" (num_of_Z 25) "Cafe" [] (Ok "tag-1") eq_refl)
      as (_ & _ & Hright).
    destruct (Hpay alice "9999" (num_of_Z 25) "Cafe" [] (Ok "tag-1") eq_refl)
      as (_ & Hwrong & _).
    split.
    + apply (Hright eq_refl). intros [_ (d & Hd & _)].
      vm_compute in Hd. inversion Hd.
    + apply Hwrong. vm_compute. discriminate.
Defined.

(** With the store down, the daily total of 900 reads as 0, and a
    payment stops at the read of the PIN digest. *)
Lemma read_failures_witness :
  let w := spent_world (fun _ => true) in
  (getDailyTransactionTotal "alice" w).1 = Ok (num_of_Z 0)
  /\ (getRecentTransactions "alice" 5 w).1 = Ok []
  /\ total_amount (approved_today w "alice") = num_of_Z 900
  /\ (@handlePayment demo_platform alice "1234" (num_of_Z 25) "Cafe" []
        (Ok "tag-1") w).1 = Throw (JsError "Invalid PIN")
  /\ (@processTransaction demo_platform small_request w).1
     = Throw (StoreError (tbl_users, SELECT "status")).
Proof.
  cbv zeta.
  pose proof (@read_failures_fall_back demo_platform alice "1234" (num_of_Z 25)
                "Cafe" [] (Ok "tag-1") small_request "alice" 5
                (spent_world (fun _ => true))) as Hthm.
  cbv zeta in Hthm.
  destruct Hthm as (Hdown & _ & _ & Hpin & _ & Hstatus & _).
  destruct (Hdown eq_refl) as (Hrecent & Htotal & _).
  split; [exact Htotal | ]. split; [exact Hrecent | ].
  split; [vm_compute; reflexivity | ].
  split; [exact (Hpin eq_refl) | exact (proj1 (Hstatus eq_refl))].
Defined.
(** A payment with an unknown tag: the requests of the eight steps. *)
Lemma payment_steps_witness :
  let w := world_of (alice_row active 0) in
  sent w (@handlePayment demo_platform alice "1234" (num_of_Z 25) "Cafe" [] (Ok "tag-1") w).2
  = [(tbl_users, SELECT "pin_hash");
     (tbl_nfc_devices, INSERT); (tbl_security_logs, INSERT);
     (tbl_transactions, SELECT "*"); (tbl_transactions, SELECT "amount");
     (tbl_users, SELECT "status");
     (tbl_users, SELECT "daily_limit"); (tbl_transactions, SELECT "amount");
     (tbl_transactions, INSERT);
     (tbl_security_logs, INSERT); (tbl_nfc_devices, UPDATE)].
Proof.
  cbv zeta.
  assert (S := @payment_steps_in_order demo_platform alice "1234" (num_of_Z 25) "Cafe" []
                 (Ok "tag-1") (world_of (alice_row active 0))).
  cbv zeta in S.
  destruct (@handlePayment demo_platform alice "1234" (num_of_Z 25) "Cafe" [] (Ok "tag-1")
              (world_of (alice_row active 0))) as [[tx|e] w1] eqn:Hrun;
    [ | vm_compute in Hrun; discriminate Hrun].
  cbn [fst snd] in *. rewrite S.
  assert (Hst : tr_status tx = approved).
  { vm_compute in Hrun. injection Hrun as <- _. reflexivity. }
  rewrite Hst. reflexivity.
Defined.

(** * Where the code departs from the specification *)

(** C1, against the order the specification gives (account status and
    daily limit before device resolution and risk scoring): on a
    suspended account the payment fails at the account-status check, but
    by then the unknown tag has been registered, and the reads of risk
    scoring have been sent before the read of the status. *)
Lemma checks_come_after_scoring :
  let w := world_of (alice_row suspended 0) in
  let run := @handlePayment demo_platform alice "1234" (num_of_Z 25) "Cafe" [] (Ok "tag-1") w in
  run.1 = Throw (JsError "Account is not active")
  /\ nfc_devices w = []
  /\ device_uid <$> nfc_devices run.2 = ["tag-1"]
  /\ sent w run.2
     = [(tbl_users, SELECT "pin_hash");
        (tbl_nfc_devices, INSERT); (tbl_security_logs, INSERT);
        (tbl_transactions, SELECT "*"); (tbl_transactions, SELECT "amount");
        (tbl_users, SELECT "status")]
  /\ ~ before (tbl_users, SELECT "status") (tbl_transactions, SELECT "*")
              (sent w run.2).
Proof.
  cbv zeta. split; [vm_compute; reflexivity | ].
  split; [reflexivity | ]. split; [vm_compute; reflexivity | ].
  assert (Hsent : sent (world_of (alice_row suspended 0))
                    (@handlePayment demo_platform alice "1234" (num_of_Z 25) "Cafe" []
                       (Ok "tag-1") (world_of (alice_row suspended 0))).2
                  = [(tbl_users, SELECT "pin_hash");
                     (tbl_nfc_devices, INSERT); (tbl_security_logs, INSERT);
                     (tbl_transactions, SELECT "*");
                     (tbl_transactions, SELECT "amount");
                     (tbl_users, SELECT "status")])
    by (vm_compute; reflexivity).
  split; [exact Hsent | ].
  rewrite Hsent. intros Hbefore.
  specialize (Hbefore 5%nat 3%nat eq_refl eq_refl). lia.
Qed.

(** C2, against the table read as arithmetic on the values.  [alice]
    has spent 1000 today; an amount of 2^-45 brings the total above 1000,
    so the daily rule is triggered and the table gives 50; the code adds
    the two numbers, the sum rounds to 1000, and the score is 0.  And with
    amounts in cents: 32.84 and 256.97 spent, 710.19 to pay, 1000.00 in
    all, which is not above 1000, so the table gives 30 for the amount
    alone; the code sums to 1000.0000000000001 and scores 80. *)
Lemma rounding_hides_the_daily_rule :
  (exact (num_of_Z 1000) == 1000)%Q
  /\ (0 < exact sliver)%Q
  /\ (1000 < exact_total (approved_today full_world "alice") + exact sliver)%Q
  /\ exact_rule_score full_world sliver_request = 50
  /\ (calculateRiskScore sliver_request full_world).1 = Ok 0
  /\ ((3284 # 100) + (25697 # 100) + (71019 # 100) == 1000)%Q
  /\ (calculateRiskScore cents_request cents_world).1 = Ok 80.
Proof. repeat split; vm_compute; reflexivity. Qed.

(** C5, against "an [invalid_pin] event of severity [medium]": a wrong
    PIN appends an [invalid_pin] event of severity [high], and none of
    severity [medium]; a PIN for a user without a row increments nothing
    and appends no [invalid_pin] event at all. *)
Lemma invalid_pin_is_not_medium :
  let w := world_of (alice_row active 0) in
  let wrong := @verifyPin demo_platform "alice" "0000" w in
  let missing := @verifyPin demo_platform "bob" "0000" w in
  wrong.1 = Ok false
  /\ emits w wrong.2 "invalid_pin" high
  /\ ~ emits w wrong.2 "invalid_pin" medium
  /\ missing.1 = Ok false
  /\ users missing.2 = users w
  /\ ~ emits w missing.2 "invalid_pin" medium.
Proof.
  cbv zeta. split; [vm_compute; reflexivity | ].
  split; [apply (bool_decide_eq_true_1 _); vm_compute; reflexivity | ].
  split; [apply (bool_decide_eq_false_1 _); vm_compute; reflexivity | ].
  split; [vm_compute; reflexivity | ].
  split; [vm_compute; reflexivity | ].
  apply (bool_decide_eq_false_1 _). vm_compute. reflexivity.
Qed.

(** C7, against "a sixth verification attempt then fails regardless of
    whether the supplied PIN is correct": after five wrong PINs the
    account is locked, and the verification of the right PIN succeeds.
    And against "exactly one" for every user: after two wrong PINs and
    the right one, which resets nothing, five wrong PINs in a row append
    three [account_locked] events. *)
Lemma sixth_verification_succeeds :
  let w := world_of (alice_row active 0) in
  let w5 := @attempts demo_platform "alice" wrong_pins w in
  let w3 := @attempts demo_platform "alice" ["0000"; "1111"; "1234"] w in
  let w8 := @attempts demo_platform "alice" wrong_pins w3 in
  (status <$> users w5 !! "alice") = Some locked
  /\ (@verifyPin demo_platform "alice" "1234" w5).1 = Ok true
  /\ (@verifyPin demo_platform "alice" "1234" (@attempts demo_platform "alice"
                                                ["0000"; "1111"] w)).1 = Ok true
  /\ length (events_of "account_locked" (logged w3 w8)) = 3%nat.
Proof. cbv zeta. repeat split; vm_compute; reflexivity. Qed.

Lemma find_deactivated duid (devices : list NFCDevice) :
  List.find (fun d => bool_decide (deviceUid d = duid)) (deactivated <$> devices)
  = deactivated <$> List.find (fun d => bool_decide (deviceUid d = duid)) devices.
Proof.
  induction devices as [|d devices IH]; [reflexivity | ].
  rewrite fmap_cons. cbn [List.find deactivated deviceUid].
  destruct (bool_decide _); [reflexivity | exact IH].
Qed.

(** C4: the device checks of the claim are not all gates of the code.
    [handlePayment] never looks at the active flag of a device the
    component knows: a payment with the devices deactivated runs exactly
    as with the devices as they are.  So when [alice] has deactivated her
    tag, and [verifyDeviceOwnership] refuses it, her payment still is no
    error and a transaction is persisted for the inactive device. *)
Theorem inactive_device_is_no_gate :
  (forall (P : Platform) user pin amt name devices tag w,
     handlePayment user pin amt name (deactivated <$> devices) tag w
     = handlePayment user pin amt name devices tag w)
  /\ (let w := unpaired_world in
      let run := @handlePayment demo_platform alice "1234" (num_of_Z 25) "Cafe"
                   (devices_of w) (Ok "tag-1") w in
      (verifyDeviceOwnership "tag-1" "alice" w).1 = Ok false
      /\ isActive <$> devices_of w = [false]
      /\ (forall e, run.1 <> Throw e)
      /\ transactions w = []
      /\ t_device_id <$> transactions run.2 = [0%N]
      /\ is_active <$> nfc_devices run.2 = [false]).
Proof.
  split.
  - intros P user pin amt name devices tag w. unfold handlePayment.
    rewrite !bind_run.
    destruct (verifyPin (au_id user) pin w) as [[[|]|e] w1]; try reflexivity.
    cbn [negb]. rewrite !bind_run.
    destruct (readNFCTag tag w1) as [[duid|e] w2]; [ | reflexivity].
    rewrite !bind_run, find_deactivated, length_fmap.
    destruct (List.find _ devices) as [d|]; reflexivity.
  - cbv zeta. split; [vm_compute; reflexivity | ].
    split; [vm_compute; reflexivity | ].
    split; [intros e He; vm_compute in He; discriminate He | ].
    repeat split; vm_compute; reflexivity.
Qed.

(** C8: [alice] has deactivated her tag; [verifyDeviceOwnership] refuses
    it, but [handlePayment] does not ask: the payment is approved and
    stored. *)
Theorem deactivated_device_still_pays :
  let w := unpaired_world in
  let run := @handlePayment demo_platform alice "1234" (num_of_Z 25) "Cafe" (devices_of w)
               (Ok "tag-1") w in
  is_active <$> nfc_devices w = [false]
  /\ isActive <$> devices_of w = [false]
  /\ (verifyDeviceOwnership "tag-1" "alice" w).1 = Ok false
  /\ tr_status <$> (match run.1 with Ok tx => Some tx | Throw _ => None end)
     = Some approved
  /\ length (transactions run.2) = 1%nat.
Proof. cbv zeta. repeat split; vm_compute; reflexivity. Qed.

(** C9, against "a call failure is surfaced as an error of the request":
    [alice] has spent 900 of her limit of 1000 today.  On a reliable store
    a payment of 200 is refused.  When the three reads of table
    [transactions] fail, the same payment is approved and stored. *)
Lemma failed_reads_are_not_surfaced :
  let pay := fun w => @handlePayment demo_platform alice "1234" (num_of_Z 200) "Shop"
                        (devices_of paired_world) (Ok "tag-1") w in
  (pay (spent_world no_faults)).1
    = Throw (JsError "Daily transaction limit exceeded")
  /\ tr_status <$> (match (pay (spent_world reads_down)).1 with
                    | Ok tx => Some tx
                    | Throw _ => None
                    end) = Some approved
  /\ length (transactions (pay (spent_world reads_down)).2) = 2%nat.
Proof. cbv zeta. repeat split; vm_compute; reflexivity. Qed.

(** * Invariants of the service layer *)

Create HintDb respect discriminated.

Section Respect.
Context `{Platform} (R : World -> World -> Prop).

Hypothesis R_refl : forall w, R w w.
Hypothesis R_trans : forall w1 w2 w3, R w1 w2 -> R w2 w3 -> R w1 w3.

(** What the store may do without leaving [R]. *)
Hypothesis R_elapse : forall t down w, R w (elapse t down w).
Hypothesis R_trace : forall g w, R w (set_trace g w).
Hypothesis R_ids : forall g w, R w (set_next_id g w).
Hypothesis R_user : forall uid f w,
  (forall u, email (f u) = email u /\ pin_hash (f u) = pin_hash u
             /\ daily_limit (f u) = daily_limit u) ->
  R w (set_users (fun us => match us !! uid with
                            | Some u => <[uid := f u]> us
                            | None => us
                            end) w).
Hypothesis R_new_user : forall id row w,
  users w !! id = None ->
  (forall j u, users w !! j = Some u -> email u <> email row) ->
  R w (set_users (fun us => <[id := row]> us) w).
Hypothesis R_log : forall l w, R w (set_security_logs (fun x => x ++ [l]) w).
Hypothesis R_tx : forall row w,
  sound_transaction row -> R w (set_transactions (fun x => x ++ [row]) w).
Hypothesis R_device : forall row w,
  (forall d, d ∈ nfc_devices w -> device_uid d <> device_uid row) ->
  R w (set_nfc_devices (fun x => x ++ [row]) w).
Hypothesis R_devices : forall sel f w,
  (forall d, d_id (f d) = d_id d /\ d_user_id (f d) = d_user_id d
             /\ device_uid (f d) = device_uid d
             /\ device_name (f d) = device_name d
             /\ d_created_at (f d) = d_created_at d) ->
  R w (set_nfc_devices (fmap (fun d => if sel d : bool then f d else d)) w).

Lemma respects_ret {A} (a : A) : respects R (mret a).
Proof. intros w. apply R_refl. Qed.

Lemma respects_throw {A} (e : Error) : respects R (@throw A e).
Proof. intros w. apply R_refl. Qed.

Lemma respects_get {A} (g : World -> A) : respects R (get g).
Proof. intros w. apply R_refl. Qed.

Lemma respects_bind {A B} (m : M A) (k : A -> M B) :
  respects R m -> (forall a, respects R (k a)) -> respects R (m ≫= k).
Proof.
  intros Hm Hk w. rewrite bind_run. specialize (Hm w).
  destruct (m w) as [[a|e] w1]; cbn [snd] in *.
  - exact (R_trans _ _ _ Hm (Hk a w1)).
  - exact Hm.
Qed.

Lemma respects_request c : respects R (request c).
Proof. intros w. apply R_trace. Qed.

Lemma respects_fresh_id : respects R fresh_id.
Proof. intros w. apply R_ids. Qed.

Lemma respects_modify_logs l :
  respects R (modify (set_security_logs (fun x => x ++ [l]))).
Proof. intros w. apply R_log. Qed.

Local Hint Resolve respects_request respects_fresh_id respects_modify_logs : respect.

Ltac respect_step :=
  match goal with
  | |- respects _ (_ ≫= _) => apply respects_bind; [ | intros ? ]
  | |- respects _ (mret _) => apply respects_ret
  | |- respects _ (throw _) => apply respects_throw
  | |- respects _ (get _) => apply respects_get
  | |- respects _ Date_now => apply respects_get
  | |- respects _ (match ?x with _ => _ end) => destruct x
  | |- respects _ (let _ := _ in _) => cbv zeta
  end.

Ltac respect := repeat respect_step; auto with respect.

(** *** The store *)

Lemma respects_select_user cols uid : respects R (select_user cols uid).
Proof. unfold select_user. respect. Qed.

Lemma respects_select_devices_of uid : respects R (select_devices_of uid).
Proof. unfold select_devices_of. respect. Qed.

Lemma respects_select_device_by_uid duid : respects R (select_device_by_uid duid).
Proof. unfold select_device_by_uid. respect. Qed.

Lemma respects_select_transactions cols uid keep :
  respects R (select_transactions cols uid keep).
Proof. unfold select_transactions. respect. Qed.

Lemma respects_select_logs uid keep : respects R (select_logs uid keep).
Proof. unfold select_logs. respect. Qed.

Lemma respects_update_user uid f :
  (forall u, email (f u) = email u /\ pin_hash (f u) = pin_hash u
             /\ daily_limit (f u) = daily_limit u) ->
  respects R (update_user uid f).
Proof.
  intros Hf w. unfold update_user. run.
  destruct (faults w (length (trace w))); run; cbn [snd]; [apply R_trace | ].
  eapply R_trans; [apply R_trace | ]. apply (R_user uid f), Hf.
Qed.

Lemma respects_insert_user id row : respects R (insert_user id row).
Proof.
  intros w. unfold insert_user. run.
  destruct (faults w (length (trace w))); run; [apply R_trace | ].
  cbn [users set_trace].
  destruct (bool_decide_reflect (is_Some (users w !! id))) as [|Hid];
    cbn [orb]; run; [apply R_trace | ].
  destruct (bool_decide_reflect
              (map_Exists (fun _ u => email u = email row) (users w)))
    as [|Hemail]; run; cbn [snd]; [apply R_trace | ].
  eapply R_trans; [apply R_trace | ]. apply R_new_user.
  - cbn [users set_trace]. apply eq_None_not_Some, Hid.
  - cbn [users set_trace]. intros j u Hj Hsame. apply Hemail.
    exists j, u. auto.
Qed.

Lemma respects_insert_log uid ev sev descr : respects R (insert_log uid ev sev descr).
Proof. unfold insert_log. respect. Qed.

Lemma respects_insert_device uid duid name : respects R (insert_device uid duid name).
Proof.
  intros w. unfold insert_device. run.
  destruct (faults w (length (trace w))); run; [apply R_trace | ].
  cbn [users nfc_devices set_trace].
  destruct (bool_decide _); cbn [andb]; [ | apply R_trace].
  destruct (existsb _ (nfc_devices w)) eqn:Etaken; cbn [negb]; run;
    [apply R_trace | ].
  cbn [snd]. eapply R_trans; [apply R_trace | ].
  eapply R_trans; [apply R_ids | ].
  apply R_device. cbn [nfc_devices set_next_id set_trace device_uid].
  intros d Hd Huid.
  assert (Hex : existsb (fun d => bool_decide (device_uid d = duid)) (nfc_devices w) = true).
  { apply existsb_exists. exists d. split; [apply list_elem_of_In, Hd | ].
    apply bool_decide_eq_true, Huid. }
  congruence.
Qed.

Lemma respects_update_devices sel g :
  (forall d, d_id (g d) = d_id d /\ d_user_id (g d) = d_user_id d
             /\ device_uid (g d) = device_uid d
             /\ device_name (g d) = device_name d
             /\ d_created_at (g d) = d_created_at d) ->
  respects R (update_devices sel g).
Proof.
  intros Hg w. unfold update_devices. run.
  destruct (faults w (length (trace w))); run; cbn [snd]; [apply R_trace | ].
  eapply R_trans; [apply R_trace | ]. apply (R_devices sel g), Hg.
Qed.

Lemma respects_insert_transaction mk :
  (forall i t,
     t_status (mk i t) = determineTransactionStatus (risk_score (mk i t))
     /\ (t_status (mk i t) = declined <-> is_Some (decline_reason (mk i t)))) ->
  respects R (insert_transaction mk).
Proof.
  intros Hmk w. unfold insert_transaction. run.
  destruct (faults w (length (trace w))); run; cbn [snd]; [apply R_trace | ].
  cbn [next_id now users nfc_devices set_trace].
  destruct (isFinite _) eqn:Efinite; cbn [andb]; [ | apply R_trace].
  destruct (_ >? _)%num eqn:Eamount; cbn [andb]; [ | apply R_trace].
  destruct (bool_decide_reflect (0 <= risk_score (mk (next_id w) (now w)) <= 100))
    as [Hrisk|]; cbn [andb]; [ | apply R_trace].
  destruct (bool_decide _ && existsb _ _); run; cbn [snd]; [ | apply R_trace].
  eapply R_trans; [apply R_trace | ].
  eapply R_trans; [apply R_ids | ].
  apply R_tx. destruct (Hmk (next_id w) (now w)) as [Hst Hreason].
  split; [exact Efinite | ]. split; [exact Eamount | ]. auto.
Qed.

Local Hint Resolve respects_select_user respects_select_devices_of
  respects_select_device_by_uid respects_select_transactions respects_select_logs
  respects_insert_user respects_insert_log respects_insert_device : respect.

(** *** The services *)

Lemma respects_logSecurityEvent uid ev sev descr :
  respects R (logSecurityEvent uid ev sev descr).
Proof. unfold logSecurityEvent. respect. Qed.
Local Hint Resolve respects_logSecurityEvent : respect.

Lemma respects_incrementFailedAuthAttempts uid :
  respects R (incrementFailedAuthAttempts uid).
Proof.
  unfold incrementFailedAuthAttempts. respect.
  apply respects_update_user. intros u. repeat split.
Qed.

Lemma respects_resetFailedAuthAttempts uid :
  respects R (resetFailedAuthAttempts uid).
Proof.
  unfold resetFailedAuthAttempts. respect.
  apply respects_update_user. intros u. repeat split.
Qed.
Local Hint Resolve respects_incrementFailedAuthAttempts
  respects_resetFailedAuthAttempts : respect.

Lemma respects_verifyPin uid pin : respects R (verifyPin uid pin).
Proof. unfold verifyPin. respect. Qed.

Lemma respects_signIn resp : respects R (signIn resp).
Proof. unfold signIn. respect. Qed.

Lemma respects_signUp resp email pin : respects R (signUp resp email pin).
Proof. unfold signUp. respect. Qed.

Lemma respects_signOut session err : respects R (signOut session err).
Proof. unfold signOut. respect. Qed.

Lemma respects_getCurrentUser session : respects R (getCurrentUser session).
Proof. unfold getCurrentUser. respect. Qed.
Local Hint Resolve respects_verifyPin respects_signIn respects_signUp : respect.

Lemma respects_handleSubmit isSignUp resp email pin :
  respects R (handleSubmit isSignUp resp email pin).
Proof. unfold handleSubmit. respect. Qed.

Lemma respects_registerNFCDevice uid duid name :
  respects R (registerNFCDevice uid duid name).
Proof. unfold registerNFCDevice. respect. Qed.

Lemma respects_getUserDevices uid : respects R (getUserDevices uid).
Proof. unfold getUserDevices. respect. Qed.

Lemma respects_verifyDeviceOwnership duid uid :
  respects R (verifyDeviceOwnership duid uid).
Proof. unfold verifyDeviceOwnership. respect. Qed.

Lemma respects_updateDeviceLastUsed deviceId :
  respects R (updateDeviceLastUsed deviceId).
Proof.
  unfold updateDeviceLastUsed. respect.
  apply respects_update_devices. intros d. repeat split.
Qed.

Lemma respects_deactivateDevice deviceId uid :
  respects R (deactivateDevice deviceId uid).
Proof.
  unfold deactivateDevice. respect.
  apply respects_update_devices. intros d. repeat split.
Qed.
Local Hint Resolve respects_registerNFCDevice respects_updateDeviceLastUsed : respect.

Lemma respects_getDailyTransactionTotal uid :
  respects R (getDailyTransactionTotal uid).
Proof. unfold getDailyTransactionTotal. respect. Qed.

Lemma respects_getRecentTransactions uid minutes :
  respects R (getRecentTransactions uid minutes).
Proof. unfold getRecentTransactions. respect. Qed.
Local Hint Resolve respects_getDailyTransactionTotal
  respects_getRecentTransactions : respect.

Lemma respects_calculateRiskScore request : respects R (calculateRiskScore request).
Proof. unfold calculateRiskScore. respect. Qed.

Lemma respects_checkAccountStatus uid : respects R (checkAccountStatus uid).
Proof. unfold checkAccountStatus. respect. Qed.

Lemma respects_checkDailyLimit uid amt : respects R (checkDailyLimit uid amt).
Proof. unfold checkDailyLimit. respect. Qed.
Local Hint Resolve respects_calculateRiskScore respects_checkAccountStatus
  respects_checkDailyLimit : respect.

Lemma respects_processTransaction request : respects R (processTransaction request).
Proof.
  unfold processTransaction. respect.
  apply respects_insert_transaction. intros i t.
  cbn [t_status risk_score decline_reason]. split; [reflexivity | ].
  destruct (bool_decide_reflect (determineTransactionStatus a0 = declined));
    split; intros Hd; try (eauto; fail).
  - contradiction.
  - destruct Hd as [? [=]].
Qed.

Lemma respects_getUserTransactions uid : respects R (getUserTransactions uid).
Proof. unfold getUserTransactions. respect. Qed.

Lemma respects_getSecurityLogs uid : respects R (getSecurityLogs uid).
Proof. unfold getSecurityLogs. respect. Qed.

Lemma respects_getRecentSecurityLogs uid hours :
  respects R (getRecentSecurityLogs uid hours).
Proof. unfold getRecentSecurityLogs. respect. Qed.
Local Hint Resolve respects_getRecentSecurityLogs respects_processTransaction : respect.

Lemma respects_getAccountSecurityStatus uid :
  respects R (getAccountSecurityStatus uid).
Proof. unfold getAccountSecurityStatus. respect. Qed.

Lemma respects_handlePayment user pin amt name devices tag :
  respects R (handlePayment user pin amt name devices tag).
Proof.
  unfold handlePayment. respect.
Qed.

(** Every step of the machine, and so every run, stays within [R]. *)
Lemma respects_perform op w : R w (perform op w).
Proof.
  destruct op; cbn [perform];
    first [ apply R_elapse
          | apply respects_handleSubmit | apply respects_signUp
          | apply respects_signIn | apply respects_signOut
          | apply respects_getCurrentUser | apply respects_verifyPin
          | apply respects_registerNFCDevice | apply respects_getUserDevices
          | apply respects_verifyDeviceOwnership
          | apply respects_updateDeviceLastUsed | apply respects_deactivateDevice
          | apply respects_processTransaction | apply respects_getUserTransactions
          | apply respects_getSecurityLogs | apply respects_getAccountSecurityStatus
          | apply respects_handlePayment ].
Qed.

Lemma respects_perform_all ops : forall w, R w (perform_all ops w).
Proof.
  induction ops as [|op ops IH]; intros w; cbn [perform_all fold_left].
  - apply R_refl.
  - exact (R_trans _ _ _ (respects_perform op w) (IH (perform op w))).
Qed.

End Respect.

(** ** Invariants of every run *)

Section Invariants.
Context `{Platform}.

(** X1: whatever the services are asked to do, in whatever order, and
    whatever the store fails, no two devices of the registry come to share
    an identifier. *)
Theorem device_identifiers_stay_unique ops w :
  unique_devices w -> unique_devices (perform_all ops w).
Proof.
  revert w.
  apply (respects_perform_all (fun w w1 => unique_devices w -> unique_devices w1));
    unfold unique_devices; try (intros; assumption); try (intros; cbn; assumption).
  - intros w1 w2 w3 H12 H23 H1. auto.
  - intros row w Hfresh Hnodup. cbn [nfc_devices set_nfc_devices].
    rewrite fmap_app. apply NoDup_app. split; [exact Hnodup | ].
    split; [ | cbn; apply NoDup_singleton].
    intros uid Hin Hnew. apply list_elem_of_fmap in Hin as (d & -> & Hd).
    cbn in Hnew. apply list_elem_of_singleton in Hnew.
    exact (Hfresh d Hd Hnew).
  - intros sel f w Hf Hnodup. cbn [nfc_devices set_nfc_devices].
    rewrite <- list_fmap_compose.
    erewrite list_fmap_ext; [exact Hnodup | ].
    intros i d _. cbn. destruct (sel d); [apply Hf | reflexivity].
Qed.

(** X2: a device, once registered, is never removed from the registry
    and never changes its id, its owner, its identifier, its name or its
    date of registration; only its active flag and its last-used stamp
    move. *)
Theorem devices_keep_their_owner ops w : same_owners w (perform_all ops w).
Proof.
  apply (respects_perform_all same_owners); unfold same_owners;
    try (intros; cbn; eauto 10; fail).
  - intros w1 w2 w3 H12 H23 d Hd.
    destruct (H12 d Hd) as (d1 & Hd1 & Hi1 & Hu1 & Hn1 & Hm1 & Hc1).
    destruct (H23 d1 Hd1) as (d2 & Hd2 & Hi2 & Hu2 & Hn2 & Hm2 & Hc2).
    exists d2. repeat split; congruence.
  - intros row w0 _ d Hd. exists d. cbn [nfc_devices set_nfc_devices].
    split; [apply elem_of_app; auto | auto].
  - intros sel f w0 Hf d Hd. cbn [nfc_devices set_nfc_devices].
    exists (if sel d then f d else d). split.
    + apply list_elem_of_fmap. exists d. auto.
    + destruct (sel d); [apply Hf | auto].
Qed.

(** X3: the ledger and the audit log only grow: no service ever changes
    or deletes a stored transaction or a logged security event. *)
Theorem ledger_and_log_only_grow ops w : append_only w (perform_all ops w).
Proof.
  apply (respects_perform_all append_only); unfold append_only;
    try (intros; cbn; split; reflexivity).
  - intros w1 w2 w3 [Ht12 Hl12] [Ht23 Hl23].
    split; etransitivity; eassumption.
  - intros l w0. cbn. split; [reflexivity | apply prefix_app_r; reflexivity].
  - intros row w0 _. cbn. split; [apply prefix_app_r; reflexivity | reflexivity].
Qed.

(** X4: every transaction the services store has a positive amount, a
    risk score in [0,100], the status its score decides, and a decline
    reason exactly when it is declined. *)
Theorem stored_transactions_are_sound ops w :
  Forall sound_transaction (transactions w) ->
  Forall sound_transaction (transactions (perform_all ops w)).
Proof.
  revert w.
  apply (respects_perform_all
           (fun w w1 => Forall sound_transaction (transactions w) ->
                        Forall sound_transaction (transactions w1)));
    try (intros; assumption); try (intros; cbn; assumption).
  - intros w1 w2 w3 H12 H23 H1. auto.
  - intros row w Hrow Hall. cbn [transactions set_transactions].
    apply Forall_app. split; [exact Hall | ].
    constructor; [exact Hrow | constructor].
Qed.

(** X22: an account, once created, is never deleted, and no service
    changes its e-mail, its PIN digest or its daily limit: failed and
    successful authentications only move the counter, the status and the
    time of the last failure. *)
Theorem accounts_keep_their_credentials ops w :
  same_credentials w (perform_all ops w).
Proof.
  apply (respects_perform_all same_credentials); unfold same_credentials;
    try (intros; cbn; eauto; fail).
  - intros w1 w2 w3 H12 H23 uid u Hu.
    destruct (H12 uid u Hu) as (u1 & Hu1 & He1 & Hp1 & Hl1).
    destruct (H23 uid u1 Hu1) as (u2 & Hu2 & He2 & Hp2 & Hl2).
    exists u2. repeat split; congruence.
  - intros uid f w0 Hf i u Hu. cbn [users set_users].
    destruct (users w0 !! uid) as [v|] eqn:Hv; [ | eauto].
    destruct (decide (i = uid)) as [->|Hne].
    + rewrite lookup_insert_eq. exists (f v).
      assert (v = u) as -> by congruence. split; [reflexivity | apply Hf].
    + rewrite lookup_insert_ne by congruence. eauto.
  - intros id row w0 Hfresh _ i u Hu. cbn [users set_users].
    rewrite lookup_insert_ne by congruence. eauto.
Qed.

(** X23: no two accounts come to share an e-mail address. *)
Theorem emails_stay_unique ops w :
  unique_emails w -> unique_emails (perform_all ops w).
Proof.
  revert w.
  apply (respects_perform_all (fun w w1 => unique_emails w -> unique_emails w1));
    unfold unique_emails; try (intros; cbn in *; eauto; fail).
  - intros uid f w0 Hf Huniq i j u v. cbn [users set_users].
    destruct (users w0 !! uid) as [x|] eqn:Hx; [ | apply Huniq].
    assert (Hrow : forall k y, <[uid := f x]> (users w0) !! k = Some y ->
              exists y0, users w0 !! k = Some y0 /\ email y = email y0).
    { intros k y. destruct (decide (k = uid)) as [->|Hne].
      - rewrite lookup_insert_eq. intros [= <-]. exists x.
        split; [exact Hx | apply Hf].
      - rewrite lookup_insert_ne by congruence. eauto. }
    intros Hi Hj Hsame.
    apply Hrow in Hi as (u0 & Hi & Hu). apply Hrow in Hj as (v0 & Hj & Hv).
    apply (Huniq i j u0 v0 Hi Hj). congruence.
  - intros id row w0 Hfresh Hemail Huniq i j u v. cbn [users set_users].
    destruct (decide (i = id)) as [->|Hi], (decide (j = id)) as [->|Hj];
      rewrite ?lookup_insert_eq, ?lookup_insert_ne by congruence.
    + reflexivity.
    + intros [= <-] Hv Hsame. destruct (Hemail j v Hv). congruence.
    + intros Hu [= <-] Hsame. destruct (Hemail i u Hu). congruence.
    + apply Huniq.
Qed.

End Invariants.

(** * The two history pages *)

(** The first [n] rows by decreasing [key]: the [n] newest, newest first. *)
Lemma newest_page {A} (key : A -> Z) (n : nat) (l : list A) :
  exists rest,
    l ≡ₚ take n (order_desc key l) ++ rest
    /\ (length (take n (order_desc key l)) <= n)%nat
    /\ StronglySorted (later_first key) (take n (order_desc key l))
    /\ (forall x y, x ∈ take n (order_desc key l) -> y ∈ rest -> key y <= key x)
    /\ ((length l <= n)%nat -> rest = []).
Proof.
  exists (drop n (order_desc key l)).
  assert (Hsorted : StronglySorted (later_first key) (order_desc key l)).
  { apply StronglySorted_merge_sort; apply _. }
  rewrite <- (take_drop n (order_desc key l)) in Hsorted.
  split; [rewrite take_drop; symmetry; apply merge_sort_Permutation | ].
  split; [rewrite length_take; lia | ].
  split; [exact (StronglySorted_app_1_l _ _ _ Hsorted) | ].
  split.
  - intros x y Hx Hy.
    exact (StronglySorted_app_1_elem_of _ _ _ _ _ Hsorted Hx Hy).
  - intros Hlen. apply drop_ge. rewrite length_order_desc. exact Hlen.
Qed.

Lemma user_rows_are_history w uid :
  filter (fun t => t_user_id t = uid /\ true = true) (transactions w) = history w uid.
Proof. unfold history. apply list_filter_iff. intros x. tauto. Qed.

(** X5: [getUserTransactions] throws when its read fails; otherwise it
    returns at most 50 transactions, all of the user, newest first, and
    they are the newest: what it leaves out is no newer than anything it
    returns, and it leaves nothing out while the user has at most 50. *)
Theorem getUserTransactions_newest_50 uid w :
  (faults w (length (trace w)) = true ->
   (getUserTransactions uid w).1 = Throw (StoreError (tbl_transactions, SELECT "*")))
  /\ (faults w (length (trace w)) = false ->
      exists page rest,
        (getUserTransactions uid w).1 = Ok (toTransaction <$> page)
        /\ history w uid ≡ₚ page ++ rest
        /\ (length page <= 50)%nat
        /\ StronglySorted (fun a b => created_at b <= created_at a) page
        /\ (forall x y, x ∈ page -> y ∈ rest -> created_at y <= created_at x)
        /\ ((length (history w uid) <= 50)%nat -> rest = [])).
Proof.
  unfold getUserTransactions, select_transactions. run. split; intros ->.
  - reflexivity.
  - cbn [transactions set_trace]. rewrite user_rows_are_history.
    destruct (newest_page created_at 50 (history w uid))
      as (rest & Hperm & Hlen & Hsorted & Hnewest & Hall).
    exists (take 50 (order_desc created_at (history w uid))), rest.
    split; [reflexivity | ]. auto.
Qed.

Lemma user_logs_filter w uid :
  filter (fun l => l_user_id l = uid /\ true = true) (security_logs w)
  = filter (fun l => l_user_id l = uid) (security_logs w).
Proof. apply list_filter_iff. intros x. tauto. Qed.

(** X6: [getSecurityLogs] throws when its read fails; otherwise it
    returns at most 100 events, all of the user, newest first, and they
    are the newest of the user's events. *)
Theorem getSecurityLogs_newest_100 uid w :
  (faults w (length (trace w)) = true ->
   (getSecurityLogs uid w).1 = Throw (StoreError (tbl_security_logs, SELECT "*")))
  /\ (faults w (length (trace w)) = false ->
      exists page rest,
        (getSecurityLogs uid w).1 = Ok (toSecurityLog <$> page)
        /\ filter (fun l => l_user_id l = uid) (security_logs w) ≡ₚ page ++ rest
        /\ (length page <= 100)%nat
        /\ StronglySorted (fun a b => l_created_at b <= l_created_at a) page
        /\ (forall x y, x ∈ page -> y ∈ rest -> l_created_at y <= l_created_at x)
        /\ ((length (filter (fun l => l_user_id l = uid) (security_logs w)) <= 100)%nat
            -> rest = [])).
Proof.
  unfold getSecurityLogs, select_logs. run. split; intros ->.
  - reflexivity.
  - cbn [security_logs set_trace]. rewrite user_logs_filter.
    destruct (newest_page l_created_at 100
                (filter (fun l => l_user_id l = uid) (security_logs w)))
      as (rest & Hperm & Hlen & Hsorted & Hnewest & Hall).
    eexists _, rest. split; [reflexivity | ]. auto.
Qed.

(** * Accounts *)

Section Accounts.
Context `{Platform}.

Lemma insert_user_fresh id row w :
  faults w (length (trace w)) = false ->
  users w !! id = None ->
  (forall j u, users w !! j = Some u -> email u <> email row) ->
  insert_user id row w
  = (Ok (Data tt),
     set_users (fun us => <[id := row]> us)
       (set_trace (fun t => t ++ [(tbl_users, INSERT)]) w)).
Proof.
  intros Hfault Hid Hemail. unfold insert_user. run. rewrite Hfault.
  cbn [users set_trace]. rewrite Hid.
  rewrite (bool_decide_eq_false_2 (is_Some None)) by (intros [? [=]]).
  rewrite bool_decide_eq_false_2; [reflexivity | ].
  intros (j & u & Hj & Hu). exact (Hemail j u Hj Hu).
Qed.

(** X7: signing up, then using the PIN.  On a store that answers, for an
    identity and an e-mail address the store does not know: the account is
    created active, with a daily limit of 1000 and no failed attempt; the
    PIN chosen at sign-up verifies, a PIN with another digest does not;
    and [getCurrentUser] shows the new account. *)
Theorem signUp_then_verifyPin id email' pin other w :
  reliable w ->
  users w !! id = None ->
  (forall j u, users w !! j = Some u -> email u <> email') ->
  let run := signUp (mkAuthResponse None (Some id)) email' pin w in
  run.1 = Ok (mkAuthResponse None (Some id))
  /\ users run.2 !! id = Some (mkUser email' (hashPin pin) (Some (num_of_Z 1000)) active 0 None)
  /\ emits w run.2 "user_signup" low
  /\ (verifyPin id pin run.2).1 = Ok true
  /\ (hashPin other <> hashPin pin -> (verifyPin id other run.2).1 = Ok false)
  /\ (getCurrentUser (Some id) run.2).1
     = Ok (Some (mkAuthUser id email' (Some (num_of_Z 1000)) active)).
Proof.
  intros Hrel Hid Hemail. cbv zeta.
  set (row := mkUser email' (hashPin pin) (Some (num_of_Z 1000)) active 0 None).
  assert (Hrun : signUp (mkAuthResponse None (Some id)) email' pin w
    = (Ok (mkAuthResponse None (Some id)),
       set_security_logs
         (fun l => l ++ [mkLog id "user_signup" low "New user account created" (now w)])
         (set_trace (fun t => t ++ [(tbl_security_logs, INSERT)])
            (set_users (fun us => <[id := row]> us)
               (set_trace (fun t => t ++ [(tbl_users, INSERT)]) w))))).
  { unfold signUp. cbn [auth_error auth_user]. cbv zeta. fold row.
    rewrite bind_run, (insert_user_fresh id row w (Hrel _) Hid Hemail).
    rewrite bind_run, logSecurityEvent_known; [reflexivity | apply Hrel | ].
    cbn [users set_users set_trace]. rewrite lookup_insert_eq. eauto. }
  rewrite Hrun. cbn [fst snd].
  set (w1 := set_security_logs _ _).
  assert (Hrow : users w1 !! id = Some row) by apply lookup_insert_eq.
  split; [reflexivity | ]. split; [exact Hrow | ].
  split.
  { unfold emits, logged. cbn [security_logs w1 set_security_logs set_trace set_users].
    rewrite drop_app_length. constructor. split; reflexivity. }
  split.
  { rewrite (verifyPin_right id pin row w1); [reflexivity | exact Hrow | reflexivity | apply Hrel]. }
  split.
  { intros Hother.
    rewrite (verifyPin_wrong id other row w1); [reflexivity | exact Hrel | exact Hrow | ].
    cbn [pin_hash row]. congruence. }
  unfold getCurrentUser, select_user. run.
  replace (faults w1 (length (trace w1))) with false by (symmetry; apply Hrel).
  cbn [users set_trace]. rewrite Hrow. reflexivity.
Qed.

(** X8: [signUp] never writes over an account.  The rows the store
    holds, their PIN digests included, are the same after any sign-up; a
    sign-up for an identity or an e-mail address the store already knows
    ends in an error; and a sign-up that ends in an error has written
    neither a row nor an event. *)
Theorem signUp_never_overwrites resp email' pin w :
  let run := signUp resp email' pin w in
  (forall j u, users w !! j = Some u -> users run.2 !! j = Some u)
  /\ (forall id, auth_user resp = Some id ->
      is_Some (users w !! id)
      \/ (exists j u, users w !! j = Some u /\ email u = email') ->
      run.1 = Throw (StoreError (tbl_users, INSERT))
      \/ exists msg, auth_error resp = Some msg /\ run.1 = Throw (JsError msg))
  /\ (forall e, run.1 = Throw e ->
      users run.2 = users w /\ security_logs run.2 = security_logs w).
Proof.
  cbv zeta. unfold signUp.
  assert (Hstop : forall (e : Error) (w0 : World),
    users w0 = users w -> security_logs w0 = security_logs w ->
    (forall id, auth_user resp = Some id ->
       e = StoreError (tbl_users, INSERT)
       \/ exists msg, auth_error resp = Some msg /\ e = JsError msg) ->
    (forall j u, users w !! j = Some u -> users (Throw e : Res AuthResponse, w0).2 !! j = Some u)
    /\ (forall id, auth_user resp = Some id ->
        is_Some (users w !! id)
        \/ (exists j u, users w !! j = Some u /\ email u = email') ->
        (Throw e : Res AuthResponse, w0).1 = Throw (StoreError (tbl_users, INSERT))
        \/ exists msg, auth_error resp = Some msg
                       /\ (Throw e : Res AuthResponse, w0).1 = Throw (JsError msg))
    /\ (forall e0, (Throw e : Res AuthResponse, w0).1 = Throw e0 ->
        users (Throw e : Res AuthResponse, w0).2 = users w
        /\ security_logs (Throw e : Res AuthResponse, w0).2 = security_logs w)).
  { intros e w0 Hu Hl He. cbn [fst snd]. rewrite Hu.
    split; [auto | ]. split; [ | auto].
    intros id Hid _. destruct (He id Hid) as [-> | (msg & Hmsg & ->)]; eauto. }
  destruct (auth_error resp) as [msg|] eqn:Eerr.
  { apply Hstop; [reflexivity | reflexivity | ]. intros id _. right. eauto. }
  destruct (auth_user resp) as [id|] eqn:Euser.
  2: { apply Hstop; [reflexivity | reflexivity | ]. intros id [=]. }
  cbv zeta. rewrite bind_run. unfold insert_user. run.
  destruct (faults w (length (trace w))); run.
  { apply Hstop; [reflexivity | reflexivity | auto]. }
  cbn [users set_trace email].
  destruct (bool_decide_reflect (is_Some (users w !! id))) as [Hid|Hid]; cbn [orb].
  { apply Hstop; [reflexivity | reflexivity | auto]. }
  destruct (bool_decide_reflect
              (map_Exists (fun _ u => email u = email') (users w))) as [Hem|Hem].
  { apply Hstop; [reflexivity | reflexivity | auto]. }
  run.
  match goal with
  | |- context [logSecurityEvent ?a ?b ?c ?d ?w0] =>
      assert (Hk := keeps_logSecurityEvent users (fun _ _ => eq_refl)
                      (fun _ _ => eq_refl) a b c d w0);
      destruct (logSecurityEvent a b c d w0) as [[[]|e] w1] eqn:Hlog
  end.
  2: { exfalso. exact (safe_run _ _ _ _ (safe_logSecurityEvent _ _ _ _) Hlog). }
  cbn [fst snd mret M_ret] in *. split; [ | split].
  - intros j u Hj. rewrite Hk. cbn [users set_users set_trace].
    rewrite lookup_insert_ne; [exact Hj | ].
    intros <-. apply Hid. eauto.
  - intros id' [= <-] [Hknown | (j & u & Hj & Hu)].
    + contradiction.
    + exfalso. apply Hem. exists j, u. auto.
  - intros e [=].
Qed.

End Accounts.

(** * The security status *)

Lemma calculateSecurityScore_range f c h :
  0 <= f -> 0 <= c -> 0 <= h ->
  0 <= calculateSecurityScore f c h <= 100
  /\ (calculateSecurityScore f c h = 100 <-> f = 0 /\ c = 0 /\ h = 0).
Proof. unfold calculateSecurityScore. cbv zeta. lia. Qed.

Lemma getRecentSecurityLogs_run uid hours w :
  getRecentSecurityLogs uid hours w =
  (Ok (if faults w (length (trace w)) then []
       else filter (fun l => l_user_id l = uid
                             /\ (now w - hours * 60 * 60 * 1000 <=? l_created_at l) = true)
                   (security_logs w)),
   set_trace (fun t => t ++ [(tbl_security_logs, SELECT "*")]) w).
Proof.
  unfold getRecentSecurityLogs, select_logs. run.
  destruct (faults w (length (trace w))); reflexivity.
Qed.

(** What [getAccountSecurityStatus] answers, from what its two reads gave. *)
Lemma getAccountSecurityStatus_run uid w :
  exists userData recent,
    (userData = None \/ userData = users w !! uid)
    /\ (recent = []
        \/ recent = filter (fun l => l_user_id l = uid
                                     /\ (now w - 24 * 60 * 60 * 1000 <=? l_created_at l) = true)
                           (security_logs w))
    /\ (faults w (length (trace w)) = false -> userData = users w !! uid)
    /\ (faults w (S (length (trace w))) = false ->
        recent = filter (fun l => l_user_id l = uid
                                  /\ (now w - 24 * 60 * 60 * 1000 <=? l_created_at l) = true)
                        (security_logs w))
    /\ (getAccountSecurityStatus uid w).1
       = Ok (mkSecurityStatus
               (status <$> userData)
               (from_option failed_auth_attempts 0 userData)
               (userData ≫= last_failed_auth)
               (count_severity critical recent) (count_severity high recent)
               (Z.of_nat (length recent))
               (calculateSecurityScore (from_option failed_auth_attempts 0 userData)
                  (count_severity critical recent) (count_severity high recent))).
Proof.
  unfold getAccountSecurityStatus, select_user. run.
  set (w0 := set_trace _ w).
  set (logs := filter (fun l => l_user_id l = uid
                        /\ (now w - 24 * 60 * 60 * 1000 <=? l_created_at l) = true)
                      (security_logs w)).
  assert (Hlen : length (trace w0) = S (length (trace w))).
  { unfold w0. cbn [trace set_trace]. rewrite length_app. cbn. lia. }
  destruct (faults w (length (trace w))) eqn:F0; run;
    rewrite getRecentSecurityLogs_run; cbn [fst snd faults]; rewrite Hlen;
    change (faults w0) with (faults w);
    destruct (faults w (S (length (trace w)))) eqn:F1;
    [ exists None, [] | exists None, logs | exists (users w !! uid), []
    | exists (users w !! uid), logs ];
    (split; [auto | ]); (split; [auto | ]); (split; [auto; discriminate | ]);
    (split; [auto; discriminate | ]);
    unfold w0, logs; cbn [users security_logs now set_trace];
    try destruct (users w !! uid); reflexivity.
Qed.

Lemma recent_events_read w uid :
  filter (fun l => l_user_id l = uid
                   /\ (now w - 24 * 60 * 60 * 1000 <=? l_created_at l) = true)
         (security_logs w)
  = recent_events w uid.
Proof.
  unfold recent_events. apply list_filter_iff. intros l.
  rewrite Z.leb_le. change (24 * 60 * 60 * 1000) with 86400000. tauto.
Qed.

(** X9: the security status is what the store has on record.  When its
    two reads are answered, [getAccountSecurityStatus] returns the status
    and the counter of the row of the user ('unknown' and 0 without a
    row), the numbers of critical and of high events of the user in the
    last 24 hours of the log, and the score 100 - 10 per failed attempt -
    20 per such critical event - 10 per such high event, not below 0.  So,
    the counter not being negative, the score lies between 0 and 100 and
    is 100 exactly when no failed attempt is on record and the log holds
    no critical and no high event of the user in the last 24 hours.  The
    function always returns; when both reads fail it returns the status
    'unknown' with the score 100, whatever is on record. *)
Theorem security_status_is_the_record uid w :
  (exists st, (getAccountSecurityStatus uid w).1 = Ok st)
  /\ (faults w (length (trace w)) = false ->
      faults w (S (length (trace w))) = false ->
      (getAccountSecurityStatus uid w).1 = Ok (status_on_record w uid))
  /\ (faults w (length (trace w)) = true ->
      faults w (S (length (trace w))) = true ->
      (getAccountSecurityStatus uid w).1
      = Ok (mkSecurityStatus None 0 None 0 0 0 100))
  /\ (0 <= attempts_on_record w uid ->
      0 <= securityScore (status_on_record w uid) <= 100
      /\ (securityScore (status_on_record w uid) = 100
          <-> attempts_on_record w uid = 0
              /\ Forall (fun l => severity l <> critical /\ severity l <> high)
                        (recent_events w uid))).
Proof.
  destruct (getAccountSecurityStatus_run uid w)
    as (userData & recent & _ & _ & Hdata & Hrecent & Hrun).
  split; [eauto | ]. split; [ | split].
  - intros F0 F1. rewrite Hrun, (Hdata F0), (Hrecent F1), recent_events_read.
    unfold status_on_record, attempts_on_record, calculateSecurityScore,
      count_severity, recent_of.
    cbv zeta. destruct (users w !! uid) as [u|]; cbn [from_option];
      do 2 f_equal; lia.
  - intros F0 F1. clear Hrun Hdata Hrecent.
    unfold getAccountSecurityStatus, select_user. run. rewrite F0. run.
    rewrite getRecentSecurityLogs_run. cbn [faults trace set_trace fst].
    rewrite length_app, Nat.add_1_r, F1. reflexivity.
  - intros Hcount. unfold status_on_record. cbn [securityScore].
    set (criticals := recent_of critical w uid).
    set (highs := recent_of high w uid).
    assert (Hnone : forall sev,
              recent_of sev w uid = []
              <-> Forall (fun l => severity l <> sev) (recent_events w uid)).
    { intros sev. unfold recent_of.
      induction (recent_events w uid) as [|l ls IH]; [split; auto | ].
      rewrite Forall_cons. destruct (decide (severity l = sev)) as [Hs|Hs].
      - rewrite filter_cons_True by exact Hs. split; [discriminate | tauto].
      - rewrite filter_cons_False by exact Hs. tauto. }
    split; [lia | ].
    rewrite Forall_and, <- !Hnone. fold criticals highs.
    destruct criticals as [|c cs], highs as [|h hs]; cbn [length]; split;
      try (intros (? & ? & ?); lia); try (intros (_ & ? & ?); discriminate);
      intros Hs; repeat split; first [reflexivity | lia | exfalso; lia].
Qed.

Section Strikes.
Context `{Platform}.

Lemma count_severity_app sev l1 l2 :
  count_severity sev (l1 ++ l2) = count_severity sev l1 + count_severity sev l2.
Proof. unfold count_severity. rewrite filter_app, length_app. lia. Qed.

Lemma failure_events_counts uid t k :
  forall n,
    count_severity high (failure_events uid t n k) = Z.of_nat k
    /\ (5 <= n + Z.of_nat k -> (0 < k)%nat ->
        1 <= count_severity critical (failure_events uid t n k))
    /\ 0 <= count_severity critical (failure_events uid t n k)
    /\ Forall (fun l => l_user_id l = uid /\ l_created_at l = t)
              (failure_events uid t n k).
Proof.
  induction k as [|k IH]; intros n.
  - cbn [failure_events]. split; [reflexivity | ].
    split; [intros _ Hk; lia | ].
    split; [unfold count_severity; lia | constructor].
  - cbn [failure_events].
    destruct (IH (n + 1)) as (Hhigh & Hcrit & Hnonneg & Hall).
    rewrite !count_severity_app.
    change (count_severity high [invalid_pin_event uid t]) with 1.
    change (count_severity critical [invalid_pin_event uid t]) with 0.
    destruct (Z.leb_spec 5 (n + 1)).
    + change (count_severity high [account_locked_event uid (n + 1) t]) with 0.
      change (count_severity critical [account_locked_event uid (n + 1) t]) with 1.
      split; [lia | ]. split; [intros; lia | ]. split; [lia | ].
      repeat (constructor; [split; reflexivity | ]). exact Hall.
    + change (count_severity high []) with 0.
      change (count_severity critical []) with 0.
      split; [lia | ]. split; [ | split; [lia | ] ].
      * intros Hn _. destruct k; [lia | ].
        assert (1 <= count_severity critical (failure_events uid t (n + 1) (S k)))
          by (apply Hcrit; lia).
        lia.
      * constructor; [split; reflexivity | exact Hall].
Qed.

(** X10: five wrong PINs in a row bring the security score to 0.  On a
    store that answers and a counter that is not negative, the status read
    after the five attempts is [locked], with at least five recent events
    of severity high and at least one critical. *)
Theorem five_failures_zero_score uid u pins w :
  reliable w -> users w !! uid = Some u -> 0 <= failed_auth_attempts u ->
  length pins = 5%nat ->
  Forall (fun pin => pin_hash u <> hashPin pin) pins ->
  exists st,
    (getAccountSecurityStatus uid (attempts uid pins w)).1 = Ok st
    /\ securityScore st = 0
    /\ accountStatus st = Some locked
    /\ failedAuthAttempts st = failed_auth_attempts u + 5
    /\ 5 <= recentHighEvents st
    /\ 1 <= recentCriticalEvents st.
Proof.
  intros Hrel Hu Hcount Hlen Hwrong.
  destruct (attempts_failed uid pins u w Hrel Hu Hwrong) as (Ef & En & Eu & El).
  cbv zeta in *. rewrite Hlen in *.
  set (w5 := attempts uid pins w) in *.
  destruct (getAccountSecurityStatus_run uid w5)
    as (userData & recent & _ & _ & Hdata & Hrecent & ->).
  rewrite (Hdata ltac:(rewrite Ef; apply Hrel)), (Hrecent ltac:(rewrite Ef; apply Hrel)).
  rewrite Eu, El, En. clear Hdata Hrecent.
  destruct (iter_failed_attempt (now w) 5 u) as [_ H5].
  destruct (iter_failed_attempt (now w) 4 u) as [_ H4].
  assert (Hlocked : status (Nat.iter 5 (failed_attempt (now w)) u) = locked).
  { rewrite Nat.iter_succ. unfold failed_attempt at 1. cbn [status].
    rewrite H4. destruct (Z.leb_spec 5 (failed_auth_attempts u + Z.of_nat 4 + 1));
      [reflexivity | lia]. }
  destruct (failure_events_counts uid (now w) 5 (failed_auth_attempts u))
    as (Hhigh & Hcrit & _ & Hall).
  set (events := failure_events uid (now w) (failed_auth_attempts u) 5) in *.
  set (recent_of := filter (fun l : LogRow => l_user_id l = uid
                      /\ (now w - 24 * 60 * 60 * 1000 <=? l_created_at l) = true)).
  assert (Hnew : recent_of events = events).
  { unfold recent_of. clear -Hall. induction Hall as [|l ls [Hl Ht] _ IH]; [reflexivity | ].
    rewrite filter_cons_True, IH; [reflexivity | ].
    split; [exact Hl | ]. apply Z.leb_le. lia. }
  assert (Hsplit : recent_of (security_logs w ++ events)
                   = recent_of (security_logs w) ++ events).
  { unfold recent_of at 1. rewrite filter_app. fold recent_of. rewrite Hnew.
    reflexivity. }
  fold recent_of. rewrite Hsplit.
  eexists. split; [reflexivity | ].
  cbn [securityScore accountStatus failedAuthAttempts recentHighEvents
       recentCriticalEvents from_option fmap option_fmap option_map].
  rewrite !count_severity_app, Hhigh, Hlocked, H5.
  assert (Hc0 : 0 <= count_severity critical (recent_of (security_logs w)))
    by (unfold count_severity; lia).
  assert (Hh0 : 0 <= count_severity high (recent_of (security_logs w)))
    by (unfold count_severity; lia).
  specialize (Hcrit ltac:(lia) ltac:(lia)).
  unfold calculateSecurityScore. cbv zeta.
  repeat split; lia.
Qed.

End Strikes.

(** * Two ways out of a lock-out *)

Section Unlock.
Context `{Platform}.

Lemma signIn_ok_run uid u w :
  reliable w -> users w !! uid = Some u ->
  signIn (mkAuthResponse None (Some uid)) w
  = (Ok (mkAuthResponse None (Some uid)),
     set_security_logs
       (fun l => l ++ [mkLog uid "user_signin" low "User signed in successfully" (now w)])
       (set_trace (fun t => t ++ [(tbl_security_logs, INSERT)])
          (set_users
             (fun us => <[uid := mkUser (email u) (pin_hash u) (daily_limit u)
                                        (status u) 0 None]> us)
             (set_trace (fun t => t ++ [(tbl_users, UPDATE)]) w)))).
Proof.
  intros Hrel Hu. unfold signIn, resetFailedAuthAttempts, update_user.
  cbn [auth_error auth_user]. reliably Hrel. rewrite Hu.
  rewrite logSecurityEvent_known;
    [reflexivity | apply Hrel | world_simpl; rewrite lookup_insert_eq; eauto ].
Qed.

(** X11: a successful sign-in does not look at the status of the
    account: it resets the counter of failed attempts and leaves the status
    as it is.  So an account that is locked (or suspended), signs in and
    then enters one wrong PIN is active again, with one failed attempt on
    its counter. *)
Theorem sign_in_then_wrong_pin_unlocks uid u pin w :
  reliable w -> users w !! uid = Some u -> pin_hash u <> hashPin pin ->
  let w1 := (signIn (mkAuthResponse None (Some uid)) w).2 in
  let w2 := (verifyPin uid pin w1).2 in
  (signIn (mkAuthResponse None (Some uid)) w).1 = Ok (mkAuthResponse None (Some uid))
  /\ (exists u1, users w1 !! uid = Some u1
                 /\ status u1 = status u /\ failed_auth_attempts u1 = 0)
  /\ (exists u2, users w2 !! uid = Some u2
                 /\ status u2 = active /\ failed_auth_attempts u2 = 1).
Proof.
  intros Hrel Hu Hne. cbv zeta. rewrite (signIn_ok_run uid u w Hrel Hu).
  cbn [fst snd]. set (w1 := set_security_logs _ _).
  set (u1 := mkUser (email u) (pin_hash u) (daily_limit u) (status u) 0 None).
  assert (Hu1 : users w1 !! uid = Some u1) by apply lookup_insert_eq.
  split; [reflexivity | ]. split; [exists u1; auto | ].
  rewrite (verifyPin_wrong uid pin u1 w1); [ | exact Hrel | exact Hu1 | exact Hne].
  cbn [snd]. rewrite after_invalid_pin_users.
  exists (failed_attempt (now w1) u1). rewrite lookup_insert_eq.
  repeat split.
Qed.

(** X12: when the read of the counter fails and the update that follows
    goes through, [incrementFailedAuthAttempts] counts from 0: it writes
    the counter 1 and the status [active], whatever the row held, and logs
    no lock-out. *)
Theorem lost_counter_read_restarts_count uid u w :
  faults w (length (trace w)) = true ->
  faults w (S (length (trace w))) = false ->
  users w !! uid = Some u ->
  let run := incrementFailedAuthAttempts uid w in
  run.1 = Ok tt
  /\ users run.2 !! uid
     = Some (mkUser (email u) (pin_hash u) (daily_limit u) active 1 (Some (now w)))
  /\ security_logs run.2 = security_logs w.
Proof.
  intros F0 F1 Hu. cbv zeta.
  unfold incrementFailedAuthAttempts, select_user, update_user. run.
  rewrite F0. run. cbn [faults trace set_trace].
  rewrite length_app, Nat.add_1_r, F1. run. world_simpl.
  rewrite Hu. change (5 <=? 0 + 1) with false. change (0 + 1) with 1.
  cbv beta iota. world_simpl. rewrite lookup_insert_eq. repeat split.
Qed.

End Unlock.

(** * The device registry *)

Lemma filter_none {A} (P : A -> Prop) `{!forall x, Decision (P x)} (l : list A) :
  (forall x, x ∈ l -> ~ P x) -> filter P l = [].
Proof.
  induction l as [|x l IH]; intros Hnone; [reflexivity | ].
  rewrite filter_cons_False by (apply Hnone; left).
  apply IH. intros y Hy. apply Hnone. right. exact Hy.
Qed.

(** In a registry without duplicates a device is found by its identifier. *)
Lemma filter_unique_device (l : list DeviceRow) d :
  NoDup (device_uid <$> l) -> d ∈ l ->
  filter (fun x => device_uid x = device_uid d) l = [d].
Proof.
  induction l as [|x l IH]; intros Hnodup Hd; [inversion Hd | ].
  rewrite fmap_cons in Hnodup. apply NoDup_cons in Hnodup as [Hx Hnodup].
  apply elem_of_cons in Hd as [<- | Hd].
  - rewrite filter_cons_True by reflexivity. f_equal.
    apply filter_none. intros y Hy Huid. apply Hx.
    rewrite <- Huid. apply list_elem_of_fmap_2, Hy.
  - rewrite filter_cons_False; [apply IH; assumption | ].
    intros Huid. apply Hx. rewrite Huid. apply list_elem_of_fmap_2, Hd.
Qed.

Lemma verifyDeviceOwnership_run duid uid w :
  faults w (length (trace w)) = false ->
  (verifyDeviceOwnership duid uid w).1
  = Ok (match head (filter (fun d => device_uid d = duid) (nfc_devices w)) with
        | Some d => bool_decide (d_user_id d = uid) && is_active d
        | None => false
        end).
Proof.
  intros Hfault. unfold verifyDeviceOwnership, select_device_by_uid. run.
  rewrite Hfault. cbn [nfc_devices set_trace].
  destruct (head _); reflexivity.
Qed.

(** X13: registering a device, then asking who owns it.  On a store that
    answers, for a user the store knows and an identifier that is not yet
    in the registry: the device is registered active, its owner passes
    [verifyDeviceOwnership], nobody else does, and [getUserDevices] lists
    it for its owner. *)
Theorem registered_device_is_owned uid other duid name w :
  reliable w -> is_Some (users w !! uid) ->
  (forall d, d ∈ nfc_devices w -> device_uid d <> duid) ->
  let run := registerNFCDevice uid duid name w in
  let dev := mkNFCDevice (next_id w) uid duid name true None in
  run.1 = Ok dev
  /\ (verifyDeviceOwnership duid uid run.2).1 = Ok true
  /\ (other <> uid -> (verifyDeviceOwnership duid other run.2).1 = Ok false)
  /\ (exists devs, (getUserDevices uid run.2).1 = Ok devs /\ dev ∈ devs).
Proof.
  intros Hrel Hknown Hfresh. cbv zeta.
  rewrite (registerNFCDevice_fresh uid duid name w Hrel Hknown Hfresh).
  cbn [fst snd]. set (w1 := set_security_logs _ _).
  set (row := mkDevice (next_id w) uid duid name true None (now w)).
  assert (Hrows : nfc_devices w1 = nfc_devices w ++ [row]) by reflexivity.
  assert (Hfound : filter (fun d => device_uid d = duid) (nfc_devices w1) = [row]).
  { rewrite Hrows, filter_app, (filter_none _ (nfc_devices w)) by exact Hfresh.
    cbn [app]. rewrite filter_cons_True by reflexivity. reflexivity. }
  split; [reflexivity | ]. split; [ | split].
  - rewrite verifyDeviceOwnership_run by apply Hrel. rewrite Hfound.
    cbn [head d_user_id is_active row]. rewrite bool_decide_eq_true_2; reflexivity.
  - intros Hother. rewrite verifyDeviceOwnership_run by apply Hrel. rewrite Hfound.
    cbn [head d_user_id is_active row].
    rewrite bool_decide_eq_false_2; [reflexivity | congruence].
  - unfold getUserDevices, select_devices_of. run.
    replace (faults w1 (length (trace w1))) with false by (symmetry; apply Hrel).
    eexists. split; [reflexivity | ]. cbn [nfc_devices set_trace].
    apply (list_elem_of_fmap_2' toNFCDevice _ row); [ | reflexivity].
    unfold order_desc. rewrite merge_sort_Permutation.
    apply list_elem_of_filter. split; [reflexivity | ].
    rewrite Hrows. apply elem_of_app. right. left.
Qed.

Lemma update_devices_run sel g w :
  faults w (length (trace w)) = false ->
  update_devices sel g w
  = (Ok (Data tt),
     set_nfc_devices (fmap (fun d => if sel d then g d else d))
       (set_trace (fun t => t ++ [(tbl_nfc_devices, UPDATE)]) w)).
Proof. intros Hfault. unfold update_devices. run. rewrite Hfault. reflexivity. Qed.

(** X14: a device its owner has deactivated no longer passes
    [verifyDeviceOwnership], and the other devices of the registry are as
    they were.  (On a store that answers, in a registry without duplicate
    identifiers.) *)
Theorem deactivated_device_is_refused uid d w :
  reliable w -> unique_devices w -> d ∈ nfc_devices w -> d_user_id d = uid ->
  let run := deactivateDevice (d_id d) uid w in
  run.1 = Ok tt
  /\ (verifyDeviceOwnership (device_uid d) uid run.2).1 = Ok false
  /\ (forall d', d' ∈ nfc_devices w -> d_id d' <> d_id d -> d' ∈ nfc_devices run.2).
Proof.
  intros Hrel Hunique Hd Howner. cbv zeta. unfold deactivateDevice.
  rewrite bind_run, update_devices_run by apply Hrel.
  set (sel := fun x : DeviceRow =>
                bool_decide (d_id x = d_id d) && bool_decide (d_user_id x = uid)).
  set (off := fun x : DeviceRow =>
                mkDevice (d_id x) (d_user_id x) (device_uid x) (device_name x)
                         false (last_used x) (d_created_at x)).
  set (w1 := set_nfc_devices _ _).
  assert (Hrows : nfc_devices w1 = (fun x => if sel x then off x else x) <$> nfc_devices w)
    by reflexivity.
  match goal with
  | |- context [logSecurityEvent ?a ?b ?c ?e w1] =>
      assert (Hk := keeps_logSecurityEvent nfc_devices (fun _ _ => eq_refl)
                      (fun _ _ => eq_refl) a b c e w1);
      assert (Hf := keeps_logSecurityEvent faults (fun _ _ => eq_refl)
                      (fun _ _ => eq_refl) a b c e w1);
      destruct (logSecurityEvent_trace a b c e w1) as (w2 & Hlog & _);
      rewrite Hlog in *
  end.
  cbn [fst snd] in *. split; [reflexivity | ]. split.
  - rewrite verifyDeviceOwnership_run by (rewrite Hf; apply Hrel).
    rewrite Hk, Hrows.
    assert (Hfound : filter (fun x => device_uid x = device_uid d)
                            ((fun x => if sel x then off x else x) <$> nfc_devices w)
                     = [off d]).
    { transitivity ((fun x => if sel x then off x else x)
                      <$> filter (fun x => device_uid x = device_uid d) (nfc_devices w)).
      - clear. induction (nfc_devices w) as [|x l IH]; [reflexivity | ].
        rewrite fmap_cons.
        assert (Hsame : device_uid (if sel x then off x else x) = device_uid x)
          by (destruct (sel x); reflexivity).
        destruct (decide (device_uid x = device_uid d)) as [Hx|Hx].
        + rewrite !filter_cons_True by congruence. rewrite fmap_cons, IH. reflexivity.
        + rewrite !filter_cons_False by congruence. exact IH.
      - rewrite (filter_unique_device _ d Hunique Hd). cbn [fmap list_fmap].
        unfold sel. rewrite !bool_decide_eq_true_2 by auto. reflexivity. }
    rewrite Hfound. cbn [head off is_active]. apply f_equal, andb_false_r.
  - intros d' Hd' Hid. rewrite Hk, Hrows.
    apply (list_elem_of_fmap_2' _ _ d'); [exact Hd' | ].
    unfold sel. rewrite (bool_decide_eq_false_2 (d_id d' = d_id d)) by exact Hid.
    reflexivity.
Qed.

(** X15: [deactivateDevice] for a device the caller does not own, or
    that does not exist, changes nothing in the registry; it returns
    normally all the same and logs [nfc_device_deactivated]. *)
Theorem foreign_deactivation_changes_nothing deviceId uid w :
  reliable w -> is_Some (users w !! uid) ->
  (forall d, d ∈ nfc_devices w -> d_id d = deviceId -> d_user_id d <> uid) ->
  let run := deactivateDevice deviceId uid w in
  run.1 = Ok tt
  /\ nfc_devices run.2 = nfc_devices w
  /\ emits w run.2 "nfc_device_deactivated" medium.
Proof.
  intros Hrel Hknown Hforeign. cbv zeta. unfold deactivateDevice.
  rewrite bind_run, update_devices_run by apply Hrel.
  rewrite logSecurityEvent_known; [ | apply Hrel | exact Hknown].
  cbn [fst snd]. split; [reflexivity | ]. split.
  - cbn [nfc_devices set_security_logs set_trace set_nfc_devices].
    rewrite <- (list_fmap_id (nfc_devices w)) at 2.
    apply list_fmap_ext. intros i d Hi. cbn.
    destruct (bool_decide_reflect (d_id d = deviceId)) as [Hid|]; [ | reflexivity].
    rewrite bool_decide_eq_false_2; [reflexivity | ].
    apply Hforeign; [ | exact Hid]. exact (list_elem_of_lookup_2 _ _ _ Hi).
  - unfold emits, logged.
    cbn [security_logs set_security_logs set_trace set_nfc_devices].
    rewrite drop_app_length. constructor. split; reflexivity.
Qed.

Section Resolution.
Context `{Platform}.

(** The registry after [processTransaction]: as it was, or with the
    last use of the paying device stamped. *)
Lemma processTransaction_devices request w :
  exists g : DeviceRow -> DeviceRow,
    nfc_devices (processTransaction request w).2 = g <$> nfc_devices w
    /\ forall d, d_id (g d) = d_id d /\ d_user_id (g d) = d_user_id d
                 /\ device_uid (g d) = device_uid d
                 /\ device_name (g d) = device_name d
                 /\ is_active (g d) = is_active d.
Proof.
  assert (Hsame : forall w1, nfc_devices w1 = nfc_devices w ->
            exists g : DeviceRow -> DeviceRow,
              nfc_devices w1 = g <$> nfc_devices w
              /\ forall d, d_id (g d) = d_id d /\ d_user_id (g d) = d_user_id d
                           /\ device_uid (g d) = device_uid d
                           /\ device_name (g d) = device_name d
                           /\ is_active (g d) = is_active d).
  { intros w1 ->. exists id. rewrite list_fmap_id.
    split; [reflexivity | intros d; repeat split]. }
  destruct (processTransaction request w) as [[tx|e] w1] eqn:Hrun; cbn [snd];
    unfold processTransaction in Hrun.
  - apply bind_Ok_inv in Hrun as (t & w0 & [= <- <-] & Hrun). cbv zeta in Hrun.
    apply bind_Ok_inv in Hrun as (s & w2 & Hscore & Hrun).
    apply bind_Ok_inv in Hrun as ([] & w3 & Hacct & Hrun).
    apply bind_Ok_inv in Hrun as ([] & w4 & Hlimit & Hrun).
    apply bind_Ok_inv in Hrun as (r & w5 & Hins & Hrun).
    kept nfc_devices in Hscore as E2. kept nfc_devices in Hacct as E3.
    kept nfc_devices in Hlimit as E4. kept nfc_devices in Hins as E5.
    destruct r as [data|]; [ | discriminate Hrun].
    apply bind_Ok_inv in Hrun as ([] & w6 & Hlog & Hrun).
    apply bind_Ok_inv in Hrun as ([] & w7 & Htouch & [= _ <-]).
    kept nfc_devices in Hlog as E6.
    assert (E : nfc_devices w6 = nfc_devices w) by congruence.
    destruct (bool_decide (_ = approved)) in Htouch.
    + revert Htouch. unfold updateDeviceLastUsed, update_devices. run.
      destruct (faults w6 (length (trace w6))); intros [= <-].
      * apply Hsame. exact E.
      * eexists. cbn [nfc_devices set_nfc_devices set_trace]. rewrite E.
        split; [reflexivity | ]. intros d. cbv beta.
        destruct (bool_decide (d_id d = _)); repeat split.
    + injection Htouch as <-. apply Hsame. exact E.
  - apply Hsame.
    apply bind_Throw_inv in Hrun as [[=] | (t & w0 & [= <- <-] & Hrun)].
    cbv zeta in Hrun.
    apply bind_Throw_inv in Hrun as [Hrun | (s & w2 & Hscore & Hrun)];
      [unsafe Hrun | ].
    kept nfc_devices in Hscore as E2.
    apply bind_Throw_inv in Hrun as [Hrun | ([] & w3 & Hacct & Hrun)].
    { kept nfc_devices in Hrun as E3. congruence. }
    kept nfc_devices in Hacct as E3.
    apply bind_Throw_inv in Hrun as [Hrun | ([] & w4 & Hlimit & Hrun)].
    { kept nfc_devices in Hrun as E4. congruence. }
    kept nfc_devices in Hlimit as E4.
    apply bind_Throw_inv in Hrun as [Hrun | (r & w5 & Hins & Hrun)];
      [unsafe Hrun | ].
    kept nfc_devices in Hins as E5.
    destruct r as [data|].
    + apply bind_Throw_inv in Hrun as [Hrun | ([] & w6 & _ & Hrun)];
        [unsafe Hrun | ].
      apply bind_Throw_inv in Hrun as [Hrun | ([] & w7 & _ & [=])].
      destruct (bool_decide (_ = approved)) in Hrun; [unsafe Hrun | discriminate Hrun].
    + injection Hrun as _ <-. congruence.
Qed.

(** With the right PIN and a tag that is new to the component and to
    the registry, [handlePayment] is [processTransaction] run after the
    registration. *)
Lemma handlePayment_unknown_tag user pin amt name devices duid u w :
  reliable w -> users w !! au_id user = Some u -> pin_hash u = hashPin pin ->
  List.find (fun d => bool_decide (deviceUid d = duid)) devices = None ->
  (forall d, d ∈ nfc_devices w -> device_uid d <> duid) ->
  handlePayment user pin amt name devices (Ok duid) w
  = processTransaction
      (mkRequest (au_id user) (next_id w) amt ("MERCH_" +:+ pretty (now w))
                 name (Some "USD"))
      (registerNFCDevice (au_id user) duid
         ("Device " +:+ pretty (length devices + 1)%nat)
         (set_trace (fun t => t ++ [(tbl_users, SELECT "pin_hash")]) w)).2.
Proof.
  intros Hrel Hu Hhash Hfind Hfresh. unfold handlePayment.
  rewrite bind_run, (verifyPin_right _ _ u) by (auto; apply Hrel).
  cbn [negb]. rewrite bind_run. unfold readNFCTag. rewrite Hfind, bind_run.
  rewrite registerNFCDevice_fresh;
    [ | exact Hrel | world_simpl; rewrite Hu; eauto | exact Hfresh].
  reflexivity.
Qed.

(** X16: a payment with a tag that is neither in the component's device
    list nor in the registry registers it before the transaction is
    processed.  On a store that answers, with the right PIN, whatever the
    outcome of the payment (the account may be locked, the limit
    exceeded): the registry has one more device, it belongs to the payer,
    carries the tag's identifier, is active and is named after the length
    of the component's list. *)
Theorem unknown_tag_is_registered user pin amt name devices duid u w :
  reliable w -> users w !! au_id user = Some u -> pin_hash u = hashPin pin ->
  List.find (fun d => bool_decide (deviceUid d = duid)) devices = None ->
  (forall d, d ∈ nfc_devices w -> device_uid d <> duid) ->
  let run := handlePayment user pin amt name devices (Ok duid) w in
  length (nfc_devices run.2) = S (length (nfc_devices w))
  /\ exists row, last (nfc_devices run.2) = Some row
       /\ d_id row = next_id w
       /\ d_user_id row = au_id user
       /\ device_uid row = duid
       /\ device_name row = "Device " +:+ pretty (length devices + 1)%nat
       /\ is_active row = true.
Proof.
  intros Hrel Hu Hhash Hfind Hfresh. cbv zeta.
  rewrite (handlePayment_unknown_tag _ _ _ _ _ _ u) by assumption.
  rewrite registerNFCDevice_fresh;
    [ | exact Hrel | world_simpl; rewrite Hu; eauto | exact Hfresh].
  cbn [snd].
  match goal with
  | |- context [processTransaction ?r ?w3] =>
      destruct (processTransaction_devices r w3) as (g & -> & Hg)
  end.
  cbn [nfc_devices set_security_logs set_trace set_nfc_devices set_next_id].
  rewrite fmap_app, length_app, length_fmap. cbn [fmap list_fmap length].
  split; [lia | ].
  eexists. split; [apply last_snoc | ].
  set (row := mkDevice _ _ _ _ _ _ _).
  destruct (Hg row) as (-> & -> & -> & -> & ->). cbn.
  repeat split; reflexivity.
Qed.

End Resolution.

(** * The ledger: what a processed transaction leaves behind *)

Lemma insert_transaction_Data mk w row w1 :
  insert_transaction mk w = (Ok (Data row), w1) ->
  row = mk (next_id w) (now w)
  /\ isFinite (amount row) = true
  /\ (amount row >? num_of_Z 0)%num = true
  /\ transactions w1 = transactions w ++ [row].
Proof.
  unfold insert_transaction. run.
  destruct (faults w (length (trace w))); [discriminate | ].
  cbn [next_id now set_trace users nfc_devices].
  destruct (isFinite (amount (mk (next_id w) (now w)))) eqn:Efin;
    [ | cbn [andb]; discriminate].
  destruct (amount (mk (next_id w) (now w)) >? num_of_Z 0)%num eqn:Epos;
    [ | cbn [andb]; discriminate].
  match goal with |- context [if ?b then _ else _] => destruct b end;
    [ | discriminate].
  intros [= <- <-]. auto.
Qed.


Section Ledger.
Context `{Platform}.

(** The run of a successful [processTransaction], step by step. *)
Lemma processTransaction_Ok_run request w tx w1 :
  reliable w -> processTransaction request w = (Ok tx, w1) ->
  exists row,
    tx = toTransaction row
    /\ transactions w1 = transactions w ++ [row]
    /\ t_user_id row = rq_userId request
    /\ amount row = rq_amount request
    /\ created_at row = now w
    /\ (amount row >? num_of_Z 0)%num = true
    /\ users w1 = users w /\ now w1 = now w /\ tz_offset w1 = tz_offset w
    /\ ~ limit_exceeded w (rq_userId request) (rq_amount request)
    /\ security_logs w1 = security_logs w
         ++ [mkLog (rq_userId request) "transaction_processed"
               (if 70 <? risk_score row then high else low)
               ("Transaction " +:+ status_name (t_status row) +:+ ": $"
                +:+ number_to_string (rq_amount request) +:+ " at "
                +:+ rq_merchantName request)
               (now w)]
    /\ exists a b c d,
         risk_score row = Z.min (points a 30 + points b 40 + points c 50 + points d 70) 100
         /\ t_status row = determineTransactionStatus (risk_score row).
Proof.
  unfold processTransaction. intros Hrel Hrun.
  apply bind_Ok_inv in Hrun as (t & w0 & [= <- <-] & Hrun). cbv zeta in Hrun.
  apply bind_Ok_inv in Hrun as (s & w2 & Hscore & Hrun).
  apply bind_Ok_inv in Hrun as ([] & w3 & Hacct & Hrun).
  apply bind_Ok_inv in Hrun as ([] & w4 & Hlimit & Hrun).
  apply bind_Ok_inv in Hrun as (r & w5 & Hins & Hrun).
  destruct r as [data|]; [ | discriminate Hrun].
  apply bind_Ok_inv in Hrun as ([] & w6 & Hlog & Hrun).
  apply bind_Ok_inv in Hrun as ([] & w7 & Htouch & [= <- <-]).
  destruct (calculateRiskScore_run request w) as (recent & total & _ & _ & Hs).
  rewrite Hscore in Hs. injection Hs as Hs _.
  kept users in Hscore as U2. kept users in Hacct as U3.
  kept users in Hlimit as U4. kept users in Hins as U5.
  kept users in Hlog as U6.
  kept transactions in Hscore as T2. kept transactions in Hacct as T3.
  kept transactions in Hlimit as T4. kept transactions in Hlog as T6.
  kept security_logs in Hscore as L2. kept security_logs in Hacct as L3.
  kept security_logs in Hlimit as L4. kept security_logs in Hins as L5.
  kept now in Hscore as N2. kept now in Hacct as N3. kept now in Hlimit as N4.
  kept now in Hins as N5. kept now in Hlog as N6.
  kept tz_offset in Hscore as Z2. kept tz_offset in Hacct as Z3.
  kept tz_offset in Hlimit as Z4. kept tz_offset in Hins as Z5.
  kept tz_offset in Hlog as Z6.
  kept faults in Hscore as F2. kept faults in Hacct as F3.
  kept faults in Hlimit as F4. kept faults in Hins as F5.
  assert (U7 : users w7 = users w6 /\ transactions w7 = transactions w6
               /\ security_logs w7 = security_logs w6 /\ now w7 = now w6
               /\ tz_offset w7 = tz_offset w6).
  { destruct (bool_decide (_ = approved)) in Htouch.
    - kept users in Htouch as E1. kept transactions in Htouch as E2.
      kept security_logs in Htouch as E3. kept now in Htouch as E4.
      kept tz_offset in Htouch as E5. auto.
    - injection Htouch as <-. auto. }
  destruct U7 as (U7 & T7 & L7 & N7 & Z7).
  assert (Hlim : ~ limit_exceeded w (rq_userId request) (rq_amount request)).
  { apply checkDailyLimit_Ok in Hlimit; [ | rewrite F3, F2; apply Hrel ..].
    unfold limit_exceeded in *.
    rewrite (approved_today_same w w3) in Hlimit by congruence.
    rewrite U3, U2 in Hlimit. exact Hlimit. }
  apply checkAccountStatus_Ok in Hacct as (u & Hu & _).
  apply insert_transaction_Data in Hins as (Hrow & _ & Hpos & Hrows).
  assert (L6 : security_logs w6 = security_logs w5
                 ++ [mkLog (rq_userId request) "transaction_processed"
                       (if 70 <? s then high else low)
                       ("Transaction " +:+ status_name (determineTransactionStatus s)
                        +:+ ": $" +:+ number_to_string (rq_amount request) +:+ " at "
                        +:+ rq_merchantName request)
                       (now w5)]).
  { rewrite logSecurityEvent_known in Hlog;
      [ | rewrite F5, F4, F3, F2; apply Hrel | rewrite U5, U4, U3; eauto].
    injection Hlog as <-. reflexivity. }
  clear Hlog Htouch Hscore Hlimit.
  exists data. subst data.
  cbn [t_user_id amount created_at risk_score t_status] in *.
  split; [reflexivity | ].
  split; [rewrite T7, T6, Hrows; congruence | ].
  split; [reflexivity | ]. split; [reflexivity | ].
  split; [congruence | ]. split; [exact Hpos | ].
  split; [congruence | ]. split; [congruence | ]. split; [congruence | ].
  split; [exact Hlim | ].
  split; [rewrite L7, L6, L5, L4, L3, L2, N5, N4, N3, N2; reflexivity | ].
  do 4 eexists. split; [exact Hs | reflexivity].
Qed.

(** X17: the audit event of a processed transaction.  On a store that
    answers, a successful [processTransaction] appends exactly one event,
    of type [transaction_processed], and its severity is [high] exactly
    when the transaction was declined: the scores the rules can add up to
    are never between 71 and 79. *)
Theorem processed_event_is_high_iff_declined request w tx w1 :
  reliable w -> processTransaction request w = (Ok tx, w1) ->
  exists e, logged w w1 = [e]
    /\ l_user_id e = rq_userId request
    /\ event_type e = "transaction_processed"
    /\ severity e = (if bool_decide (tr_status tx = declined) then high else low).
Proof.
  intros Hrel Hrun.
  destruct (processTransaction_Ok_run _ _ _ _ Hrel Hrun)
    as (row & -> & _ & _ & _ & _ & _ & _ & _ & _ & _ & Hlogs & a & b & c & d & Hs & Hst).
  unfold logged. rewrite Hlogs, drop_app_length.
  eexists. split; [reflexivity | ]. cbn [l_user_id event_type severity toTransaction tr_status].
  repeat split. rewrite Hst, Hs.
  destruct a, b, c, d; reflexivity.
Qed.


(** X19: a stored daily limit of zero is read as 1000.  On a store that
    answers, for a user whose [daily_limit] is 0 (or is not a number),
    [checkDailyLimit] lets through exactly the amounts for which the
    approved total of the day plus the amount, in double arithmetic, is
    not above 1000. *)
Theorem zero_limit_is_read_as_1000 uid amt u l w :
  reliable w -> users w !! uid = Some u ->
  daily_limit u = Some l -> truthy l = false ->
  (checkDailyLimit uid amt w).1 = Ok tt
  <-> (total_amount (approved_today w uid) + amt >? num_of_Z 1000)%num = false.
Proof.
  intros Hrel Hu Hl Hzero. unfold checkDailyLimit, select_user. run.
  rewrite Hrel, getDailyTransactionTotal_run.
  cbn [faults trace set_trace users now tz_offset transactions].
  rewrite Hrel, approved_is_history, Hu. cbn [limitOrDefault]. rewrite Hl, Hzero.
  fold (total_amount (approved_today w uid)).
  destruct (_ >? _)%num; cbn [fst]; split; auto; discriminate.
Qed.

(** X20: the signature does not separate its fields.  The signed text
    joins the fields with colons, so a colon can be moved from the
    merchant identifier to the timestamp: the same signature verifies for
    both. *)
Theorem signature_does_not_separate_fields uid amt m x t :
  verifyTransactionSignature
    (generateTransactionSignature uid amt (m +:+ ":" +:+ x) t)
    uid amt m (x +:+ ":" +:+ t) = true.
Proof.
  unfold verifyTransactionSignature, generateTransactionSignature.
  apply bool_decide_eq_true. do 3 f_equal.
  assert (Hassoc : forall a b c : string, (a +:+ b) +:+ c = a +:+ (b +:+ c)).
  { intros a b c. induction a as [|ch a IH]; [reflexivity | ].
    change (String ch ((a +:+ b) +:+ c) = String ch (a +:+ (b +:+ c))).
    f_equal. exact IH. }
  rewrite !Hassoc. reflexivity.
Qed.

End Ledger.

(** X21: the colour of the risk score is the colour of the status it
    decides: [getRiskColor] and [determineTransactionStatus] share their
    thresholds, so the badge of the status and the score are shown in the
    same text colour. *)
Theorem risk_colour_matches_status (score : Z) :
  exists background,
    getStatusColor (determineTransactionStatus score)
    = getRiskColor score +:+ background.
Proof.
  unfold getStatusColor, determineTransactionStatus, getRiskColor.
  destruct (80 <=? score); [ | destruct (50 <=? score)];
    eexists; reflexivity.
Qed.

(** * What the components show *)

Lemma sameDay_startOfDay (offset created today : Z) :
  created <= today ->
  sameDay offset created today = (startOfDay offset today <=? created).
Proof.
  intros Hpast. unfold sameDay, startOfDay. cbv zeta.
  assert (Hc := Z.div_mod (created + offset) 86400000 ltac:(lia)).
  assert (Ht := Z.div_mod (today + offset) 86400000 ltac:(lia)).
  assert (Hrc := Z.mod_pos_bound (created + offset) 86400000 ltac:(lia)).
  assert (Hrt := Z.mod_pos_bound (today + offset) 86400000 ltac:(lia)).
  destruct (Z.eqb_spec ((created + offset) / 86400000) ((today + offset) / 86400000)),
           (Z.leb_spec (today + offset - (today + offset) mod 86400000 - offset) created);
    try reflexivity; lia.
Qed.

Lemma filter_agree {A} (P Q : A -> Prop)
    `{!forall x, Decision (P x)} `{!forall x, Decision (Q x)} (l : list A) :
  (forall x, x ∈ l -> P x <-> Q x) -> filter P l = filter Q l.
Proof.
  induction l as [|x l IH]; intros Hagree; [reflexivity | ].
  assert (Hx : P x <-> Q x) by (apply Hagree; left).
  assert (Hl : filter P l = filter Q l)
    by (apply IH; intros y Hy; apply Hagree; right; exact Hy).
  destruct (decide (P x)) as [HP|HP].
  - rewrite !filter_cons_True by tauto. f_equal. exact Hl.
  - rewrite !filter_cons_False by tauto. exact Hl.
Qed.

(** The sum the component folds over a page of rows. *)
Lemma todayAmount_rows offset today (l : list TxRow) :
  todayAmount offset today (toTransaction <$> l)
  = total_amount (filter (fun x => t_status x = approved
                                   /\ sameDay offset (created_at x) today = true) l).
Proof.
  unfold todayAmount, total_amount. change (double_of 0) with (num_of_Z 0).
  generalize (num_of_Z 0).
  induction l as [|x l IH]; intros a; [reflexivity | ].
  rewrite fmap_cons. cbn [List.filter toTransaction createdAt tr_status].
  destruct (sameDay offset (created_at x) today) eqn:Eday;
    [destruct (bool_decide_reflect (t_status x = approved)) as [Hst|Hst] | ];
    cbn [andb].
  - rewrite filter_cons_True by auto. cbn [fold_left tr_amount]. apply IH.
  - rewrite filter_cons_False by tauto. apply IH.
  - rewrite filter_cons_False by (intros [_ E]; congruence). apply IH.
Qed.

(** X24: the total of the day the history page shows adds up the amounts
    the limit check adds up.  On a store that answers, for a user with at
    most 50 transactions, none of them dated in the future, [todayAmount]
    of the page [getUserTransactions] returns is the sum, from 0 and from
    the newest row on, of the approved rows of the day, and
    [getDailyTransactionTotal] is the sum, from 0 and in the order of the
    ledger, of the same rows.  The two sums are taken in double
    arithmetic, where the order of the additions can change the result. *)
Theorem today_total_matches_the_limit_check uid w :
  reliable w ->
  (length (history w uid) <= 50)%nat ->
  (forall t, t ∈ history w uid -> created_at t <= now w) ->
  let newest_first := order_desc created_at (history w uid) in
  let rows := filter (fun x => t_status x = approved
                               /\ day_start (tz_offset w) (now w) <= created_at x)
                     newest_first in
  (getUserTransactions uid w).1 = Ok (toTransaction <$> newest_first)
  /\ todayAmount (tz_offset w) (now w) (toTransaction <$> newest_first)
     = total_amount rows
  /\ rows ≡ₚ approved_today w uid
  /\ (getDailyTransactionTotal uid w).1 = Ok (total_amount (approved_today w uid)).
Proof.
  intros Hrel Hfew Hpast newest_first rows.
  assert (Hperm : newest_first ≡ₚ history w uid)
    by apply merge_sort_Permutation.
  split; [ | split; [ | split]].
  - unfold getUserTransactions, select_transactions. run. rewrite Hrel.
    cbn [transactions set_trace fst]. rewrite user_rows_are_history.
    rewrite take_ge by (rewrite length_order_desc; exact Hfew). reflexivity.
  - rewrite todayAmount_rows. f_equal. apply filter_agree.
    intros x Hx. cbv beta. rewrite Hperm in Hx.
    rewrite (sameDay_startOfDay _ _ _ (Hpast x Hx)), Z.leb_le, startOfDay_day_start.
    tauto.
  - unfold rows, approved_today. rewrite Hperm. reflexivity.
  - rewrite getDailyTransactionTotal_run, Hrel, approved_is_history. reflexivity.
Qed.

Section Leaving.
Context `{Platform}.

(** X25: [signOut] records the event before it asks the identity
    service to end the session: on a store that answers, a sign-out that
    fails has still been logged as [user_signout]. *)
Theorem failed_sign_out_is_logged id msg w :
  reliable w -> is_Some (users w !! id) ->
  let run := signOut (Some id) (Some msg) w in
  run.1 = Throw (JsError msg)
  /\ logged w run.2 = [mkLog id "user_signout" low "User signed out" (now w)].
Proof.
  intros Hrel Hknown. cbv zeta. unfold signOut.
  rewrite bind_run, logSecurityEvent_known; [ | apply Hrel | exact Hknown].
  cbn [fst snd]. split; [reflexivity | ].
  unfold logged. cbn [security_logs set_security_logs set_trace].
  apply drop_app_length.
Qed.

End Leaving.

(** * The invariants and round trips at concrete inputs *)

Lemma paired_devices : nfc_devices paired_world = [first_device].
Proof. vm_compute. reflexivity. Qed.

Lemma alice_only row j u :
  users (world_of row) !! j = Some u -> j = "alice" /\ u = row.
Proof.
  unfold world_of. cbn [users]. intros Hj.
  apply lookup_singleton_Some in Hj as [<- <-]. auto.
Qed.

(** After the sample run the registry holds two devices with two
    identifiers. *)
Lemma device_identifiers_witness :
  unique_devices (@perform_all demo_platform sample_ops (world_of (alice_row active 0))).
Proof.
  apply (@device_identifiers_stay_unique demo_platform).
  unfold unique_devices. cbn. constructor.
Defined.

(** The payment of the sample run is stored, and it is sound. *)
Lemma stored_transactions_witness :
  Forall sound_transaction
    (transactions (@perform_all demo_platform sample_ops (world_of (alice_row active 0)))).
Proof.
  apply (@stored_transactions_are_sound demo_platform). cbn. constructor.
Defined.

(** [bob] signs up next to [alice]; his PIN verifies, another does not. *)
Lemma signUp_witness :
  let run := @signUp demo_platform (mkAuthResponse None (Some "bob"))
               "bob@example.com" "4321" (world_of (alice_row active 0)) in
  run.1 = Ok (mkAuthResponse None (Some "bob"))
  /\ (@verifyPin demo_platform "bob" "4321" run.2).1 = Ok true
  /\ (@verifyPin demo_platform "bob" "0000" run.2).1 = Ok false.
Proof.
  cbv zeta.
  pose proof (@signUp_then_verifyPin demo_platform "bob" "bob@example.com" "4321"
                "0000" (world_of (alice_row active 0))) as Hthm.
  cbv zeta in Hthm.
  destruct Hthm as (Hrun & _ & _ & Hpin & Hother & _).
  - intros n. reflexivity.
  - vm_compute. reflexivity.
  - intros j u Hj Hsame. apply alice_only in Hj as [_ ->].
    vm_compute in Hsame. discriminate Hsame.
  - split; [exact Hrun | ]. split; [exact Hpin | ].
    apply Hother. vm_compute. intros Hq. discriminate Hq.
Defined.

(** Two failed attempts on record: the score is 80.  A locked account
    with seven failures on record whose reads fail: the score is 100. *)
Lemma security_score_witness :
  (getAccountSecurityStatus "alice" (world_of (alice_row active 2))).1
  = Ok (mkSecurityStatus (Some active) 2 None 0 0 0 80)
  /\ (getAccountSecurityStatus "alice"
        (mkWorld {[ "alice" := alice_row locked 7 ]} [] [] [] noon 0 all_down [] 0)).1
     = Ok (mkSecurityStatus None 0 None 0 0 0 100).
Proof.
  split.
  - destruct (security_status_is_the_record "alice" (world_of (alice_row active 2)))
      as (_ & Hrecord & _).
    rewrite Hrecord by reflexivity. vm_compute. reflexivity.
  - destruct (security_status_is_the_record "alice"
                (mkWorld {[ "alice" := alice_row locked 7 ]} [] [] [] noon 0
                         all_down [] 0))
      as (_ & _ & Hdown & _).
    apply Hdown; reflexivity.
Defined.

(** Five wrong PINs: locked, with a score of 0. *)
Lemma five_failures_score_witness :
  exists st,
    (getAccountSecurityStatus "alice"
       (@attempts demo_platform "alice" wrong_pins (world_of (alice_row active 0)))).1
    = Ok st
    /\ securityScore st = 0 /\ accountStatus st = Some locked.
Proof.
  destruct (@five_failures_zero_score demo_platform "alice" (alice_row active 0)
              wrong_pins (world_of (alice_row active 0)))
    as (st & Hst & Hscore & Hstatus & _).
  - intros n. reflexivity.
  - vm_compute. reflexivity.
  - vm_compute. intros Hq. discriminate Hq.
  - reflexivity.
  - repeat (constructor; [vm_compute; intros Hq; discriminate Hq | ]). constructor.
  - exists st. auto.
Defined.

(** A locked account signs in, enters a wrong PIN, and is active. *)
Lemma sign_in_unlocks_witness :
  let w1 := (signIn (mkAuthResponse None (Some "alice"))
               (world_of (alice_row locked 5))).2 in
  let w2 := (@verifyPin demo_platform "alice" "0000" w1).2 in
  status <$> users w2 !! "alice" = Some active.
Proof.
  cbv zeta.
  pose proof (@sign_in_then_wrong_pin_unlocks demo_platform "alice"
                (alice_row locked 5) "0000" (world_of (alice_row locked 5))) as Hthm.
  cbv zeta in Hthm.
  destruct Hthm as (_ & _ & u2 & Hu2 & Hactive & _).
  - intros n. reflexivity.
  - vm_compute. reflexivity.
  - vm_compute. intros Hq. discriminate Hq.
  - rewrite Hu2. cbn [fmap option_fmap option_map]. f_equal. exact Hactive.
Defined.

(** A locked account with seven failures on record, a failed read: the
    counter is 1 and the account active. *)
Lemma lost_counter_witness :
  let w := mkWorld {[ "alice" := alice_row locked 7 ]} [] [] [] noon 0
                   first_read_down [] 0 in
  users (incrementFailedAuthAttempts "alice" w).2 !! "alice"
  = Some (mkUser "alice@example.com" (@hashPin demo_platform "1234") (Some (num_of_Z 1000))
                 active 1 (Some noon)).
Proof.
  cbv zeta.
  pose proof (lost_counter_read_restarts_count "alice" (alice_row locked 7)
                (mkWorld {[ "alice" := alice_row locked 7 ]} [] [] [] noon 0
                         first_read_down [] 0)) as Hthm.
  cbv zeta in Hthm.
  destruct Hthm as (_ & Hrow & _).
  - reflexivity.
  - reflexivity.
  - vm_compute. reflexivity.
  - exact Hrow.
Defined.

(** The tag [alice] registered is hers and nobody else's. *)
Lemma registered_device_witness :
  (verifyDeviceOwnership "tag-1" "alice" paired_world).1 = Ok true
  /\ (verifyDeviceOwnership "tag-1" "bob" paired_world).1 = Ok false.
Proof.
  pose proof (registered_device_is_owned "alice" "bob" "tag-1" "Device 1"
                (world_of (alice_row active 0))) as Hthm.
  cbv zeta in Hthm.
  destruct Hthm as (_ & Hown & Hother & _).
  - intros n. reflexivity.
  - vm_compute. eauto.
  - intros d Hd. apply elem_of_nil in Hd. destruct Hd.
  - split; [exact Hown | ]. apply Hother. intros Hq. discriminate Hq.
Defined.

(** Once deactivated, the tag no longer passes the ownership check. *)
Lemma deactivated_device_witness :
  (verifyDeviceOwnership "tag-1" "alice" unpaired_world).1 = Ok false.
Proof.
  pose proof (deactivated_device_is_refused "alice" first_device paired_world) as Hthm.
  cbv zeta in Hthm.
  destruct Hthm as (_ & Hrefused & _).
  - intros n. vm_compute. reflexivity.
  - unfold unique_devices. rewrite paired_devices. apply NoDup_singleton.
  - rewrite paired_devices. left.
  - reflexivity.
  - exact Hrefused.
Defined.

(** Deactivating a device that does not exist changes nothing. *)
Lemma foreign_deactivation_witness :
  (deactivateDevice 7 "alice" paired_world).1 = Ok tt
  /\ nfc_devices (deactivateDevice 7 "alice" paired_world).2 = [first_device].
Proof.
  pose proof (foreign_deactivation_changes_nothing 7 "alice" paired_world) as Hthm.
  cbv zeta in Hthm.
  destruct Hthm as (Hok & Hsame & _).
  - intros n. vm_compute. reflexivity.
  - vm_compute. eauto.
  - intros d Hd Hid. rewrite paired_devices in Hd.
    apply list_elem_of_singleton in Hd as ->. vm_compute in Hid. discriminate Hid.
  - split; [exact Hok | ]. rewrite Hsame. apply paired_devices.
Defined.

(** A locked account pays with a new tag: the payment is refused, the
    tag is registered all the same. *)
Lemma unknown_tag_witness :
  length (nfc_devices
            (@handlePayment demo_platform alice "1234" (num_of_Z 25) "Cafe" [] (Ok "tag-9")
               (world_of (alice_row locked 5))).2) = 1%nat.
Proof.
  pose proof (@unknown_tag_is_registered demo_platform alice "1234" (num_of_Z 25) "Cafe" []
                "tag-9" (alice_row locked 5) (world_of (alice_row locked 5))) as Hthm.
  cbv zeta in Hthm.
  destruct Hthm as (Hlen & _).
  - intros n. reflexivity.
  - vm_compute. reflexivity.
  - reflexivity.
  - reflexivity.
  - intros d Hd. apply elem_of_nil in Hd. destruct Hd.
  - exact Hlen.
Defined.

(** The fourth payment of 10.00 to the same merchant in five minutes is
    declined, and logged with severity high. *)
Lemma processed_event_witness :
  exists tx w1 e,
    @processTransaction demo_platform echo_request echo_world = (Ok tx, w1)
    /\ tr_status tx = declined
    /\ logged echo_world w1 = [e] /\ severity e = high.
Proof.
  destruct (@processTransaction demo_platform echo_request echo_world)
    as [[tx|err] w1] eqn:Hrun; [ | vm_compute in Hrun; discriminate Hrun].
  assert (Hst : tr_status tx = declined).
  { assert (Htx : (tr_status <$> Some tx) = Some declined);
      [ | injection Htx as ->; reflexivity].
    replace (Some tx)
      with (match (@processTransaction demo_platform echo_request echo_world).1 with
            | Ok t => Some t
            | Throw _ => None
            end) by (rewrite Hrun; reflexivity).
    vm_compute. reflexivity. }
  destruct (@processed_event_is_high_iff_declined demo_platform echo_request
              echo_world tx w1) as (e & Hlog & _ & _ & Hsev).
  - intros n. reflexivity.
  - exact Hrun.
  - exists tx, w1, e. split; [reflexivity | ]. split; [exact Hst | ].
    split; [exact Hlog | ]. rewrite Hsev, (bool_decide_eq_true_2 _ Hst). reflexivity.
Defined.


(** With a stored limit of zero a payment of 25.00 passes the check. *)
Lemma zero_limit_witness :
  (checkDailyLimit "alice" (num_of_Z 25) (world_of unlimited_row)).1 = Ok tt.
Proof.
  apply (zero_limit_is_read_as_1000 "alice" (num_of_Z 25) unlimited_row (num_of_Z 0)
           (world_of unlimited_row)).
  - intros n. reflexivity.
  - vm_compute. reflexivity.
  - reflexivity.
  - vm_compute. reflexivity.
  - vm_compute. reflexivity.
Defined.

(** [carol]'s sign-up with [alice]'s address is refused: the addresses
    stay unique through the sample run. *)
Lemma emails_witness :
  unique_emails (@perform_all demo_platform sample_ops (world_of (alice_row active 0))).
Proof.
  apply (@emails_stay_unique demo_platform).
  intros i j u v Hi Hj _.
  apply alice_only in Hi as [-> _]. apply alice_only in Hj as [-> _]. reflexivity.
Defined.

(** 0.10, 0.20 and 0.30 spent today: the page adds them from the newest
    and shows 0.6, the limit check adds them in the order of the ledger
    and counts 0.6000000000000001. *)
Lemma today_total_witness :
  exists page total,
    (getUserTransactions "alice" tenths_world).1 = Ok page
    /\ (getDailyTransactionTotal "alice" tenths_world).1 = Ok total
    /\ todayAmount 0 noon page = decimal 6 1
    /\ total = S754_finite false 5404319552844596 (-53)
    /\ (todayAmount 0 noon page <? total)%num = true.
Proof.
  assert (Hrows : history tenths_world "alice"
                  = [past_payment 1 (decimal 1 1) "M1" approved 10800000;
                     past_payment 2 (decimal 2 1) "M2" approved 7200000;
                     past_payment 3 (decimal 3 1) "M3" approved 3600000])
    by (vm_compute; reflexivity).
  pose proof (today_total_matches_the_limit_check "alice" tenths_world) as Hthm.
  cbv zeta in Hthm.
  destruct Hthm as (Hpage & Hshown & _ & Htotal).
  - intros n. reflexivity.
  - rewrite Hrows. cbn [length]. lia.
  - intros t Ht. rewrite Hrows in Ht.
    repeat (apply elem_of_cons in Ht as [-> | Ht];
            [vm_compute; intros Hq; discriminate Hq | ]).
    apply elem_of_nil in Ht. destruct Ht.
  - eexists _, _. split; [exact Hpage | ]. split; [exact Htotal | ].
    change (tz_offset tenths_world) with 0 in Hshown.
    change (now tenths_world) with noon in Hshown.
    rewrite Hshown. repeat split; vm_compute; reflexivity.
Defined.

(** A sign-out the identity service refuses is in the log. *)
Lemma failed_sign_out_witness :
  let run := signOut (Some "alice") (Some "network") (world_of (alice_row active 0)) in
  run.1 = Throw (JsError "network")
  /\ event_type <$> logged (world_of (alice_row active 0)) run.2 = ["user_signout"].
Proof.
  cbv zeta.
  pose proof (failed_sign_out_is_logged "alice" "network"
                (world_of (alice_row active 0))) as Hthm.
  cbv zeta in Hthm.
  destruct Hthm as (Hthrow & Hlog).
  - intros n. reflexivity.
  - vm_compute. eauto.
  - split; [exact Hthrow | ]. rewrite Hlog. reflexivity.
Defined.

(** 600.00 spent an hour ago, 600.00 more with a limit of 5000: every
    gate passes, the rules score 80, and the payment returns normally as a
    declined transaction that is in the ledger. *)
Lemma passed_gates_witness :
  let run := @handlePayment demo_platform alice "1234" (num_of_Z 600) "Cafe"
               (devices_of paired_world) (Ok "tag-1") generous_world in
  exists tx,
    run.1 = Ok tx
    /\ riskScore tx = 80 /\ tr_status tx = declined
    /\ declineReason tx = Some "High risk score"
    /\ toTransaction <$> transactions run.2
       = (toTransaction <$> transactions generous_world) ++ [tx].
Proof.
  cbv zeta.
  assert (Hfind : List.find (fun d => bool_decide (deviceUid d = "tag-1"))
                            (devices_of paired_world)
                  = Some (mkNFCDevice 0 "alice" "tag-1" "Device 1" true None))
    by (vm_compute; reflexivity).
  pose proof (@passed_gates_store_the_decided_row demo_platform alice "1234"
                (num_of_Z 600) "Cafe" (devices_of paired_world) "tag-1"
                (mkNFCDevice 0 "alice" "tag-1" "Device 1" true None)
                generous_row generous_world) as Hthm.
  cbv zeta in Hthm.
  destruct Hthm as (tx & row & Hrun & Hrows & Htx & _ & _ & _ & Hscore & Hst & Hwhy).
  - intros n. reflexivity.
  - vm_compute. reflexivity.
  - reflexivity.
  - reflexivity.
  - exact Hfind.
  - exists first_device. split; [vm_compute; left | reflexivity].
  - vm_compute. reflexivity.
  - vm_compute. reflexivity.
  - unfold limit_exceeded. vm_compute. intros Hq. discriminate Hq.
  - assert (Hrules : rule_score generous_world
                       (payment_request (au_id alice)
                          (nd_id (mkNFCDevice 0 "alice" "tag-1" "Device 1" true None))
                          (num_of_Z 600) (now generous_world) "Cafe") = 80)
      by (vm_compute; reflexivity).
    rewrite Hrules in Hscore, Hst, Hwhy.
    exists tx. split; [exact Hrun | ]. split; [exact Hscore | ].
    split; [exact Hst | ]. split; [exact Hwhy | ].
    rewrite Hrows, fmap_app, Htx. reflexivity.
Defined.
